(** * CFAR target-detection simulation: a shallow embedding

    The notebook computes with Python floats and NumPy arrays.  Finite float
    values are modelled as exact rationals ([Q]).  One operation is rounded
    as binary64 rounds it: the subtraction [1 - pfa] of the threshold
    estimator, whose result is 1.0 for every PFA up to 2^-54 and so decides
    between a finite and an infinite quantile.  The other operations are
    exact; overflow, subnormal numbers and signed zeros of binary64 are
    outside the model.  The special values that the code can produce (NaN
    from the mean of an empty array or from a quantile lookup outside [0,1],
    infinities from the support bounds) are kept in [np_float].  Python
    exceptions are an explicit [result] type and the process-wide random
    stream is threaded as explicit state. *)

From Stdlib Require Import String QArith Qround Qpower ZArith List Bool.
From Stdlib Require Import Lia Lqa.
From Stdlib Require Import Permutation.
Import ListNotations.

Open Scope Q_scope.

(* ------------------------------------------------------------------ *)
(** ** Python exceptions *)

(** The first four are the built-in exceptions that the notebook and its
    libraries raise.  [MissingTarget] is the error that the specification
    names for a target generated without an RCS; the notebook defines no
    exception of its own, and the constructor is here so that a statement
    can say which of the two is raised. *)
Inductive exn : Type :=
| ZeroDivisionError
| TypeError
| ValueError
| KeyError
| MissingTarget.

Inductive result (A : Type) : Type :=
| Ok (a : A)
| Raise (e : exn).

Arguments Ok {A} a.
Arguments Raise {A} e.

Definition bind_result {A B : Type} (r : result A) (k : A -> result B)
  : result B :=
  match r with
  | Ok a => k a
  | Raise e => Raise e
  end.

(* ------------------------------------------------------------------ *)
(** ** Boolean comparisons on rationals *)

Definition Qlt_bool (x y : Q) : bool := negb (Qle_bool y x).

(* ------------------------------------------------------------------ *)
(** ** The target catalogue and the pixel estimate *)

(** [target_info]: identifier -> (RCS in dBsm or None, length in metres). *)
Definition target_info : list (string * (option Q * Q)) :=
  [ ("None"%string, (None, 0));
    ("Fishing Vessel (RCS=8 dBsm, Length=30 feet)"%string, (Some 8, 9.144));
    ("Smaller Coaster (RCS=20 dBsm, Length=140 feet)"%string,
      (Some 20, 42.672));
    ("Warship (Frigate) (RCS=40 dBsm, Length=340 feet)"%string,
      (Some 40, 103.632));
    ("Bulk Carrier (RCS=45 dBsm, Length=650 feet)"%string,
      (Some 45, 198.12)) ].

Definition ground_resolution : Q := 10.

(** Python's [/] on two numbers: a zero divisor raises. *)
Definition py_truediv (x y : Q) : result Q :=
  if Qeq_bool y 0 then Raise ZeroDivisionError else Ok (x / y).

(** [np.ceil] returns a float holding an integer value. *)
Definition np_ceil (x : Q) : Q := inject_Z (Qceiling x).

(** [int(x)] on a float truncates toward zero. *)
Definition py_int (x : Q) : Z := Z.quot (Qnum x) (Zpos (Qden x)).

(** [max(1, int(np.ceil(target_length / ground_resolution)))] *)
Definition estimate_pixels (target_length ground_resolution : Q) : result Z :=
  bind_result (py_truediv target_length ground_resolution)
    (fun q => Ok (Z.max 1 (py_int (np_ceil q)))).

(** The pixel count in the words of the data model: the ceiling of
    length / resolution, floored at 1. *)
Definition pixel_count_spec (target_length resolution : Q) : Z :=
  Z.max 1 (Qceiling (target_length / resolution)).

(* ------------------------------------------------------------------ *)
(** ** Floats with their special values *)

Inductive np_float : Type :=
| Finite (q : Q)
| PosInf
| NegInf
| NaN.

Definition np_neg (x : np_float) : np_float :=
  match x with
  | Finite q => Finite (- q)
  | PosInf => NegInf
  | NegInf => PosInf
  | NaN => NaN
  end.

Definition np_add (x y : np_float) : np_float :=
  match x, y with
  | NaN, _ | _, NaN => NaN
  | Finite a, Finite b => Finite (a + b)
  | PosInf, NegInf | NegInf, PosInf => NaN
  | PosInf, _ | _, PosInf => PosInf
  | NegInf, _ | _, NegInf => NegInf
  end.

Definition np_sub (x y : np_float) : np_float := np_add x (np_neg y).

(** An infinity carrying the sign of [q]; NaN when [q] is zero. *)
Definition inf_of_sign (q : Q) : np_float :=
  match q ?= 0 with
  | Gt => PosInf
  | Lt => NegInf
  | Eq => NaN
  end.

Definition np_mul (x y : np_float) : np_float :=
  match x, y with
  | NaN, _ | _, NaN => NaN
  | Finite a, Finite b => Finite (a * b)
  | Finite a, PosInf | PosInf, Finite a => inf_of_sign a
  | Finite a, NegInf | NegInf, Finite a => np_neg (inf_of_sign a)
  | PosInf, PosInf | NegInf, NegInf => PosInf
  | PosInf, NegInf | NegInf, PosInf => NegInf
  end.

(** Division of NumPy scalars: a zero divisor yields an infinity or NaN
    (with a warning), never an exception. *)
Definition np_div (x y : np_float) : np_float :=
  match x, y with
  | NaN, _ | _, NaN => NaN
  | Finite a, Finite b =>
      if Qeq_bool b 0 then inf_of_sign a else Finite (a / b)
  | Finite _, (PosInf | NegInf) => Finite 0
  | (PosInf | NegInf), (PosInf | NegInf) => NaN
  | PosInf, Finite b => if Qlt_bool b 0 then NegInf else PosInf
  | NegInf, Finite b => if Qlt_bool b 0 then PosInf else NegInf
  end.

Definition np_le (x y : np_float) : bool :=
  match x, y with
  | NaN, _ | _, NaN => false
  | Finite a, Finite b => Qle_bool a b
  | NegInf, _ | _, PosInf => true
  | _, _ => false
  end.

Definition np_lt (x y : np_float) : bool :=
  match x, y with
  | NaN, _ | _, NaN => false
  | Finite a, Finite b => Qlt_bool a b
  | PosInf, _ | _, NegInf => false
  | _, _ => true
  end.

(** [x >= y] *)
Definition np_ge (x y : np_float) : bool := np_le y x.

(** Two results are the same float: the same finite value, or the same
    special value.  (This is identity of results, not the comparison [==]
    of IEEE 754, under which NaN differs from itself.) *)
Definition same_float (x y : np_float) : Prop :=
  match x, y with
  | Finite a, Finite b => a == b
  | PosInf, PosInf | NegInf, NegInf | NaN, NaN => True
  | _, _ => False
  end.

(* ------------------------------------------------------------------ *)
(** ** Rounding to binary64 *)

(** The binary exponent of a positive rational: the [e] with
    [2^e <= q < 2^(e+1)].  The difference of the bit lengths of numerator
    and denominator is [e] or [e + 1]. *)
Definition binary_exponent (q : Q) : Z :=
  let e := (Z.log2 (Qnum q) - Z.log2 (Zpos (Qden q)))%Z in
  if Qle_bool (2 ^ e) q then e else (e - 1)%Z.

(** The nearest integer, a tie going to the even one. *)
Definition round_half_even (x : Q) : Z :=
  let f := Qfloor x in
  match Qcompare (x - inject_Z f) (1 # 2) with
  | Lt => f
  | Gt => (f + 1)%Z
  | Eq => if Z.even f then f else (f + 1)%Z
  end.

(** A positive value rounded to 53 significant bits: the significand
    [q / ulp] lies in [2^52, 2^53) and is rounded to an integer. *)
Definition round_magnitude (q : Q) : Q :=
  let ulp := 2 ^ (binary_exponent q - 52) in
  inject_Z (round_half_even (q / ulp)) * ulp.

(** The binary64 value nearest to [q] (round to nearest, ties to even), for
    [q] in the range of the normal numbers. *)
Definition round_binary64 (q : Q) : Q :=
  match q ?= 0 with
  | Eq => 0
  | Gt => round_magnitude q
  | Lt => - round_magnitude (- q)
  end.

(** Python's [x - y] on two floats: the exact difference, rounded. *)
Definition float_sub (x y : Q) : Q := round_binary64 (x - y).

(** Half the spacing of the floats just below 1.0 is [2^-54], and just
    above it [2^-53]; as literals, for linear arithmetic. *)
Ltac literal_bounds :=
  change (2 ^ (-54)) with (1 # 18014398509481984) in *;
  change (2 ^ (-53)) with (1 # 9007199254740992) in *.

(* ------------------------------------------------------------------ *)
(** ** NumPy array helpers *)

Fixpoint Qsum (l : list Q) : Q :=
  match l with
  | [] => 0
  | x :: r => x + Qsum r
  end.

(** The arithmetic mean of a non-empty array. *)
Definition sample_mean (data : list Q) : Q :=
  Qsum data / inject_Z (Z.of_nat (length data)).

(** [np.mean]: NaN (and a warning) on an empty array. *)
Definition np_mean (data : list Q) : np_float :=
  match data with
  | [] => NaN
  | _ :: _ => Finite (sample_mean data)
  end.

(** [array + scalar] *)
Definition np_add_scalar (a : list Q) (s : Q) : list Q :=
  map (fun x => x + s) a.

Fixpoint zip_add (a b : list Q) : list Q :=
  match a, b with
  | x :: a', y :: b' => (x + y) :: zip_add a' b'
  | _, _ => []
  end.

(** [array + array] on one-dimensional arrays: equal shapes add element by
    element, a one-element operand is broadcast, other shapes raise. *)
Definition np_add_arrays (a b : list Q) : result (list Q) :=
  if Nat.eqb (length a) (length b) then Ok (zip_add a b)
  else match a, b with
       | [x], _ => Ok (map (fun y => x + y) b)
       | _, [y] => Ok (map (fun x => x + y) a)
       | _, _ => Raise ValueError
       end.

(** The number of elements that satisfy [f]. *)
Definition count {A : Type} (f : A -> bool) (l : list A) : nat :=
  length (filter f l).

Definition Zsum (l : list Z) : Z := fold_right Z.add 0%Z l.

(** [np.zeros_like] and [np.ones_like] *)
Definition np_zeros_like (a : list Q) : list Q := map (fun _ => 0) a.
Definition np_ones_like (a : list Q) : list Q := map (fun _ => 1) a.

(** [np.diff] *)
Fixpoint np_diff (x : list np_float) : list np_float :=
  match x with
  | a :: ((b :: _) as r) => np_sub b a :: np_diff r
  | _ => []
  end.

Fixpoint np_sum (x : list np_float) : np_float :=
  match x with
  | [] => Finite 0
  | a :: r => np_add a (np_sum r)
  end.

(** The summands of the trapezoidal rule:
    [d * (y[1:] + y[:-1]) / 2.0] with [d = diff(x)]. *)
Fixpoint trapz_terms (y x : list np_float) : list np_float :=
  match y, x with
  | y0 :: ((y1 :: _) as yr), x0 :: ((x1 :: _) as xr) =>
      np_div (np_mul (np_sub x1 x0) (np_add y1 y0)) (Finite 2)
      :: trapz_terms yr xr
  | _, _ => []
  end.

(** [np.trapz(y, x)] *)
Definition np_trapz (y x : list np_float) : np_float :=
  np_sum (trapz_terms y x).

(* ------------------------------------------------------------------ *)
(** ** scikit-learn's [roc_curve] and [auc]

    The model follows [sklearn.metrics]: [_binary_clf_curve], [roc_curve]
    with [drop_intermediate=True], and [auc].  Labels are the floats 0.0 and
    1.0 (positive label 1) and scores are booleans, which is what
    [compute_roc_curve] passes.  The thresholds array is not modelled: the
    caller discards it. *)

Definition bool_to_Z (b : bool) : Z := if b then 1%Z else 0%Z.

Fixpoint cumsum_from (acc : Z) (l : list Z) : list Z :=
  match l with
  | [] => []
  | x :: r => (acc + x)%Z :: cumsum_from (acc + x)%Z r
  end.

(** [np.cumsum] *)
Definition np_cumsum (l : list Z) : list Z := cumsum_from 0%Z l.

(** [y_true[desc_score_indices]] and [y_score[desc_score_indices]] with
    [desc_score_indices = np.argsort(y_score, kind="mergesort")[::-1]],
    on (label, score) pairs.  A stable ascending sort of booleans lists the
    False scores and then the True scores, each group in its original
    order; [[::-1]] reverses the whole. *)
Definition sort_desc_by_score (pairs : list (bool * bool))
  : list (bool * bool) :=
  rev (filter (fun p => negb (snd p)) pairs ++ filter (fun p => snd p) pairs).

(** [np.where(np.diff(y_score))[0]], counting positions from [i]. *)
Fixpoint distinct_value_indices_from (i : nat) (y_score : list bool)
  : list nat :=
  match y_score with
  | a :: ((b :: _) as r) =>
      if xorb a b then i :: distinct_value_indices_from (S i) r
      else distinct_value_indices_from (S i) r
  | _ => []
  end.

Fixpoint map2 {A B C : Type} (f : A -> B -> C) (a : list A) (b : list B)
  : list C :=
  match a, b with
  | x :: a', y :: b' => f x y :: map2 f a' b'
  | _, _ => []
  end.

(** The body of [_binary_clf_curve] after the sort: cumulative false and
    true positive counts at the positions where the sorted score changes,
    and at the end. *)
Definition cumulative_counts (sorted : list (bool * bool))
  : list Z * list Z :=
  let y_score' := map snd sorted in
  let y_true' := map fst sorted in
  let distinct_value_indices := distinct_value_indices_from 0 y_score' in
  let threshold_idxs :=
    distinct_value_indices ++ [(length y_true' - 1)%nat] in
  let cs := np_cumsum (map bool_to_Z y_true') in
  let tps := map (fun i => nth i cs 0%Z) threshold_idxs in
  let fps := map2 (fun i t => (1 + Z.of_nat i - t)%Z) threshold_idxs tps in
  (fps, tps).

(** [_binary_clf_curve]: arrays of different lengths and empty arrays are
    rejected. *)
Definition binary_clf_curve (y_true y_score : list bool)
  : result (list Z * list Z) :=
  if negb (Nat.eqb (length y_true) (length y_score)) then Raise ValueError
  else if Nat.eqb (length y_true) 0 then Raise ValueError
  else Ok (cumulative_counts (sort_desc_by_score (combine y_true y_score))).

(** (label, decision) pairs in sorted order, by group size: detected
    targets, detected clutter, missed targets, missed clutter. *)
Definition grouped_pairs (tp fp fn tn : nat) : list (bool * bool) :=
  repeat (true, true) tp ++ repeat (false, true) fp ++
  repeat (true, false) fn ++ repeat (false, false) tn.

(** [np.diff(a, 2)] *)
Fixpoint np_diff2 (l : list Z) : list Z :=
  match l with
  | a :: ((b :: c :: _) as r) => ((c - b) - (b - a))%Z :: np_diff2 r
  | _ => []
  end.

Fixpoint select {A : Type} (mask : list bool) (l : list A) : list A :=
  match mask, l with
  | m :: mask', x :: l' => if m then x :: select mask' l' else select mask' l'
  | _, _ => []
  end.

(** The mask of [optimal_idxs]: first and last points, and the points where
    the second difference of either count is not zero. *)
Definition optimal_mask (fps tps : list Z) : list bool :=
  true ::
  map2 orb (map (fun d => negb (Z.eqb d 0)) (np_diff2 fps))
           (map (fun d => negb (Z.eqb d 0)) (np_diff2 tps))
  ++ [true].

(** [counts / counts[-1]], or an array of NaN when the last count is not
    positive. *)
Definition rate (counts : list Z) : list np_float :=
  if (last counts 0 <=? 0)%Z then map (fun _ => NaN) counts
  else map (fun c => np_div (Finite (inject_Z c))
                            (Finite (inject_Z (last counts 0%Z)))) counts.

Definition roc_curve (y_true : list Q) (y_score : list bool)
  : result (list np_float * list np_float) :=
  if negb (forallb (fun l => Qeq_bool l 0 || Qeq_bool l 1) y_true)
  then Raise ValueError
  else
    bind_result
      (binary_clf_curve (map (fun l => Qeq_bool l 1) y_true) y_score)
      (fun '(fps, tps) =>
         let '(fps, tps) :=
           if (2 <? length fps)%nat
           then (select (optimal_mask fps tps) fps,
                 select (optimal_mask fps tps) tps)
           else (fps, tps) in
         let tps := 0%Z :: tps in
         let fps := 0%Z :: fps in
         Ok (rate fps, rate tps)).

(** [auc(x, y)]: the trapezoidal rule, negated when [x] is decreasing. *)
Definition auc (x y : list np_float) : result np_float :=
  if negb (Nat.eqb (length x) (length y)) then Raise ValueError
  else if (length x <? 2)%nat then Raise ValueError
  else
    let dx := np_diff x in
    if existsb (fun d => np_lt d (Finite 0)) dx then
      if forallb (fun d => np_le d (Finite 0)) dx
      then Ok (np_neg (np_trapz y x))
      else Raise ValueError
    else Ok (np_trapz y x).

(* ------------------------------------------------------------------ *)
(** ** The ROC evaluator *)

(** The decision on one sample: [score >= cfar_threshold]. *)
Definition detected (cfar_threshold : np_float) (score : Q) : bool :=
  np_ge (Finite score) cfar_threshold.

Definition missed (cfar_threshold : np_float) (score : Q) : bool :=
  negb (detected cfar_threshold score).

Definition compute_roc_curve (clutter_data target_data : list Q)
    (cfar_threshold : np_float)
  : result (list np_float * list np_float * np_float) :=
  let labels := np_zeros_like clutter_data ++ np_ones_like target_data in
  let scores := clutter_data ++ target_data in
  let detections := map (detected cfar_threshold) scores in
  bind_result (roc_curve labels detections)
    (fun '(fpr, tpr) =>
       bind_result (auc fpr tpr)
         (fun roc_auc => Ok (fpr, tpr, roc_auc))).

(* ------------------------------------------------------------------ *)
(** ** Python dictionaries, in insertion order *)

Fixpoint dict_set {V : Type} (k : string) (v : V) (d : list (string * V))
  : list (string * V) :=
  match d with
  | [] => [(k, v)]
  | (k', v') :: r =>
      if String.eqb k k' then (k, v) :: r else (k', v') :: dict_set k v r
  end.

Fixpoint dict_get {V : Type} (k : string) (d : list (string * V))
  : result V :=
  match d with
  | [] => Raise KeyError
  | (k', v') :: r => if String.eqb k k' then Ok v' else dict_get k r
  end.

Definition dict_keys {V : Type} (d : list (string * V)) : list string :=
  map fst d.

(* ------------------------------------------------------------------ *)
(** ** SciPy's frozen distributions *)

(** What the program uses of a frozen continuous distribution: the bounds
    of its support, its quantile function inside (0,1) and its mean. *)
Record rv_frozen : Type := {
  support_a : np_float;
  support_b : np_float;
  inner_ppf : Q -> Q;
  dist_mean : np_float
}.

(** [rv_continuous.ppf] with [loc = 0] and [scale = 1]: NaN outside
    [0,1], the lower support bound at 0, the upper one at 1, and the
    distribution's own [_ppf] inside. *)
Definition rv_ppf (d : rv_frozen) (q : Q) : np_float :=
  if Qlt_bool 0 q && Qlt_bool q 1 then Finite (inner_ppf d q)
  else if Qeq_bool q 0 then support_a d
  else if Qeq_bool q 1 then support_b d
  else NaN.

(* ------------------------------------------------------------------ *)
(** ** The interactive controls *)

(** What [plot_sea_state] computes before it draws: the clutter array, the
    target array and the array shown as the target distribution (clutter
    and target together) when a target is selected, the threshold when one
    sea state is selected, and the ROC result when it is asked for. *)
Record plot_data : Type := {
  shown_clutter : list Q;
  shown_target : option (list Q);
  shown_combined : option (list Q);
  shown_threshold : option np_float;
  shown_roc : option (list np_float * list np_float * np_float)
}.

(** [['All'] + list(initial_clutter_data.keys())] *)
Definition sea_state_options (initial_clutter_data : list (string * list Q))
  : list string :=
  "All"%string :: dict_keys initial_clutter_data.

(** [list(target_info.keys())] *)
Definition target_options : list string := dict_keys target_info.

(** The values of the controls and the two [disabled] flags the program
    writes. *)
Record widgets : Type := {
  sea_state_value : string;
  pfa_value : Q;
  target_value : string;
  snr_value : Q;
  nesz_value : Q;
  hist_value : bool;
  roc_value : bool;
  pfa_disabled : bool;
  roc_disabled : bool
}.

(** The controls as created, after the three assignments that disable the
    PFA slider and the ROC checkbox for the first run. *)
Definition initial_widgets : widgets :=
  {| sea_state_value := "All";
     pfa_value := 1 # 10000000000;
     target_value := nth 0 target_options ""%string;
     snr_value := 0;
     nesz_value := -25;
     hist_value := true;
     roc_value := false;
     pfa_disabled := true;
     roc_disabled := true |}.

(** The observer of the sea-state and target selections; its [change]
    argument is not read. *)
Definition on_selection_change (w : widgets) : widgets :=
  if String.eqb (sea_state_value w) "All" then
    {| sea_state_value := sea_state_value w;
       pfa_value := pfa_value w;
       target_value := target_value w;
       snr_value := snr_value w;
       nesz_value := nesz_value w;
       hist_value := hist_value w;
       roc_value := false;
       pfa_disabled := true;
       roc_disabled := true |}
  else if String.eqb (target_value w) "None" then
    {| sea_state_value := sea_state_value w;
       pfa_value := pfa_value w;
       target_value := target_value w;
       snr_value := snr_value w;
       nesz_value := nesz_value w;
       hist_value := hist_value w;
       roc_value := false;
       pfa_disabled := false;
       roc_disabled := true |}
  else
    {| sea_state_value := sea_state_value w;
       pfa_value := pfa_value w;
       target_value := target_value w;
       snr_value := snr_value w;
       nesz_value := nesz_value w;
       hist_value := hist_value w;
       roc_value := roc_value w;
       pfa_disabled := false;
       roc_disabled := false |}.

(* ------------------------------------------------------------------ *)
(** ** A concrete random stream

    A linear congruential generator and samplers that respect the supports
    of the Gamma and Rayleigh distributions.  They serve to run the model
    on concrete inputs. *)

Module Lcg.

Definition next (s : Z) : Z := ((1103515245 * s + 12345) mod 2147483648)%Z.

(** A draw in [0, 1). *)
Definition unit_draw (s : Z) : Q := inject_Z (s mod 1000) / 1000.

Fixpoint draws (n : nat) (s : Z) : list Q * Z :=
  match n with
  | O => ([], s)
  | S k =>
      let s' := next s in
      let '(l, s'') := draws k s' in
      (unit_draw s' :: l, s'')
  end.

(** A negative [size] raises, as NumPy does. *)
Definition sample (f : Q -> Q) (size : Z) (s : Z) : result (list Q * Z) :=
  if (size <? 0)%Z then Raise ValueError
  else let '(l, s') := draws (Z.to_nat size) s in Ok (map f l, s').

Definition gamma_rvs (a scale : Q) : Z -> Z -> result (list Q * Z) :=
  sample (fun u => scale * (a * u)).

Definition rayleigh_rvs (loc scale : Q) : Z -> Z -> result (list Q * Z) :=
  sample (fun u => loc + scale * u).

(** A power function on rationals: the exponent is rounded down. *)
Definition float_pow (b x : Q) : Q := Qpower b (Qfloor x).

(** An increasing quantile function on (0,1), and a positive mean. *)
Definition quantile (q : Q) : Q := q + (1 # 3).
Definition mean : Q := 8687 # 10000.

End Lcg.

(* ------------------------------------------------------------------ *)
(** ** The generators and the threshold estimator

    The random stream of [np.random], Python's float power and the SciPy
    distributions are parameters of the model. *)

Section Simulation.

(** The state of the process-wide random stream. *)
Variable rng_state : Type.

(** [b ** x] on floats. *)
Variable float_pow : Q -> Q -> Q.

(** [gamma.rvs(a=a, scale=scale, size=size)] *)
Variable gamma_rvs : Q -> Q -> Z -> rng_state -> result (list Q * rng_state).

(** [rayleigh.rvs(loc=loc, scale=scale, size=size)] *)
Variable rayleigh_rvs :
  Q -> Q -> Z -> rng_state -> result (list Q * rng_state).

(** The quantile function of the Kolmogorov two-sided distribution inside
    (0,1), and the mean that [kstwobign().mean()] returns. *)
Variable kolmogorov_ppf : Q -> Q.
Variable kolmogorov_mean : Q.

(** Computations that draw from the random stream and may raise. *)
Definition sampling (A : Type) : Type := rng_state -> result (A * rng_state).

Definition ret {A : Type} (a : A) : sampling A := fun st => Ok (a, st).

Definition raise {A : Type} (e : exn) : sampling A := fun _ => Raise e.

Definition bind {A B : Type} (m : sampling A) (k : A -> sampling B)
  : sampling B :=
  fun st =>
    match m st with
    | Ok (a, st') => k a st'
    | Raise e => Raise e
    end.

Definition lift {A : Type} (r : result A) : sampling A :=
  fun st =>
    match r with
    | Ok a => Ok (a, st)
    | Raise e => Raise e
    end.

Notation "x <- m ;; k" := (bind m (fun x => k))
  (at level 61, m at next level, right associativity).

Definition sea_state_1 : string :=
  "Sea State 1: Calm (rippled) - Wave Height: 0 - 0.1m".
Definition sea_state_2 : string :=
  "Sea State 2: Smooth (wavelets) - Wave Height: 0.1 - 0.5m".
Definition sea_state_3 : string :=
  "Sea State 3: Slight - Wave Height: 0.5 - 1.25m".
Definition sea_state_4 : string :=
  "Sea State 4: Moderate - Wave Height: 1.25 - 2.5m".
Definition sea_state_5 : string :=
  "Sea State 5: Rough - Wave Height: 2.5 - 4.0m".

Definition generate_clutter_data (nesz : Q)
  : sampling (list (string * list Q)) :=
  let nesz_linear := float_pow 10 (nesz / 10) in
  g1 <- gamma_rvs 2 1 1000 ;;
  let d := dict_set sea_state_1 (np_add_scalar g1 nesz_linear) [] in
  g2 <- gamma_rvs 2 2 1000 ;;
  let d := dict_set sea_state_2 (np_add_scalar g2 nesz_linear) d in
  g3 <- gamma_rvs 2 3 1000 ;;
  let d := dict_set sea_state_3 (np_add_scalar g3 nesz_linear) d in
  g4 <- gamma_rvs 2 4 1000 ;;
  let d := dict_set sea_state_4 (np_add_scalar g4 nesz_linear) d in
  g5 <- gamma_rvs 2 5 1000 ;;
  let d := dict_set sea_state_5 (np_add_scalar g5 nesz_linear) d in
  ret d.

(** [rcs] is [None] for the catalogue's "None" entry; [None * float]
    raises a [TypeError]. *)
Definition generate_target_data (rcs : option Q) (snr_db : Q)
    (size pixels : Z) (nesz : Q) : sampling (list Q) :=
  let nesz_linear := float_pow 10 (nesz / 10) in
  let snr_linear := float_pow 10 (snr_db / 10) in
  adjusted_rcs <-
    match rcs with
    | Some r => ret (r * snr_linear)
    | None => raise TypeError
    end ;;
  target_signal <-
    rayleigh_rvs (adjusted_rcs + nesz_linear) 1.5 (size * pixels)%Z ;;
  g <- gamma_rvs 2 2 (size * pixels)%Z ;;
  let clutter_noise := np_add_scalar g nesz_linear in
  lift (np_add_arrays target_signal clutter_noise).

(** [kstwobign()]: support [0, inf). *)
Definition kstwobign : rv_frozen :=
  {| support_a := Finite 0;
     support_b := PosInf;
     inner_ppf := kolmogorov_ppf;
     dist_mean := Finite kolmogorov_mean |}.

(** [1 - pfa] is a float subtraction: for a PFA of at most 2^-54 the
    argument of [ppf] is 1.0, where the quantile is the upper bound of the
    support. *)
Definition compute_cfar_threshold (data : list Q) (pfa : Q) : np_float :=
  let k_dist := kstwobign in
  let threshold := rv_ppf k_dist (float_sub 1 pfa) in
  let scale_factor := np_div (np_mean data) (dist_mean k_dist) in
  np_mul threshold scale_factor.

(** The lines of [plot_sea_state] that produce the target samples: the
    caller looks the target up in the catalogue and calls the generator only
    when a target is selected. *)
Definition plot_target_data (target : string) (snr_db nesz : Q)
  : sampling (option (list Q)) :=
  if negb (String.eqb target "None") then
    info <- lift (dict_get target target_info) ;;
    let '(rcs, target_length) := info in
    pixels <- lift (estimate_pixels target_length ground_resolution) ;;
    target_data <- generate_target_data rcs snr_db 1000 pixels nesz ;;
    ret (Some target_data)
  else ret None.

(** The lines of [plot_sea_state] that choose the clutter array: all five
    arrays concatenated for "All", otherwise the array of the selected sea
    state. *)
Definition plot_clutter_data (sea_state : string)
    (clutter_sea_states : list (string * list Q)) : result (list Q) :=
  if String.eqb sea_state "All"
  then Ok (concat (map snd clutter_sea_states))
  else dict_get sea_state clutter_sea_states.

(** [plot_sea_state] without its drawing calls.  [cfar_threshold] is bound
    when one sea state is selected and [target_data] when a target is, so
    the ROC test [include_roc and sea_state != 'All' and target != 'None']
    is the test that both are bound and [include_roc] holds. *)
Definition plot_sea_state (sea_state : string) (pfa : Q) (target : string)
    (snr_db nesz : Q) (include_histogram include_roc : bool)
  : sampling plot_data :=
  clutter_sea_states <- generate_clutter_data nesz ;;
  clutter_data <- lift (plot_clutter_data sea_state clutter_sea_states) ;;
  target_data <- plot_target_data target snr_db nesz ;;
  let combined_data := option_map (fun t => clutter_data ++ t) target_data in
  let cfar_threshold :=
    if negb (String.eqb sea_state "All")
    then Some (compute_cfar_threshold clutter_data pfa)
    else None in
  roc <-
    match include_roc, cfar_threshold, target_data with
    | true, Some threshold, Some t =>
        r <- lift (compute_roc_curve clutter_data t threshold) ;;
        ret (Some r)
    | _, _, _ => ret None
    end ;;
  ret {| shown_clutter := clutter_data;
         shown_target := target_data;
         shown_combined := combined_data;
         shown_threshold := cfar_threshold;
         shown_roc := roc |}.

(** [interactive_output]: the plot function on the values of the
    controls. *)
Definition interactive_output (w : widgets) : sampling plot_data :=
  plot_sea_state (sea_state_value w) (pfa_value w) (target_value w)
    (snr_value w) (nesz_value w) (hist_value w) (roc_value w).

(* ------------------------------------------------------------------ *)
(** ** What is assumed of the libraries *)

(** Gamma samples are non-negative, and [size] of them are drawn. *)
Hypothesis gamma_rvs_spec :
  forall (a scale : Q) (n : Z) (st : rng_state),
    0 < a -> 0 < scale -> (0 <= n)%Z ->
    exists l st',
      gamma_rvs a scale n st = Ok (l, st') /\
      length l = Z.to_nat n /\
      Forall (fun x => 0 <= x) l.

(** Rayleigh samples are at least the location parameter. *)
Hypothesis rayleigh_rvs_spec :
  forall (loc scale : Q) (n : Z) (st : rng_state),
    0 < scale -> (0 <= n)%Z ->
    exists l st',
      rayleigh_rvs loc scale n st = Ok (l, st') /\
      length l = Z.to_nat n /\
      Forall (fun x => loc <= x) l.

(** A quantile function is non-decreasing. *)
Hypothesis kolmogorov_ppf_mono :
  forall p q : Q, 0 < p -> p <= q -> q < 1 ->
    kolmogorov_ppf p <= kolmogorov_ppf q.

(** The Kolmogorov distribution function is continuous, so its quantile
    function is strictly increasing. *)
Hypothesis kolmogorov_ppf_strict :
  forall p q : Q, 0 < p -> p < q -> q < 1 ->
    kolmogorov_ppf p < kolmogorov_ppf q.

Hypothesis kolmogorov_mean_pos : 0 < kolmogorov_mean.

(* ------------------------------------------------------------------ *)
(** ** Array lemmas *)

Lemma length_zip_add (a b : list Q) :
  length a = length b -> length (zip_add a b) = length a.
Proof.
  revert b; induction a as [|x a IH]; intros [|y b]; simpl; intros H;
    try discriminate; auto.
Qed.

Lemma nth_zip_add (a b : list Q) (i : nat) :
  length a = length b -> (i < length a)%nat ->
  nth i (zip_add a b) 0 = nth i a 0 + nth i b 0.
Proof.
  revert b i; induction a as [|x a IH]; intros [|y b] i; simpl; intros H Hi;
    try discriminate; try lia.
  destruct i as [|i]; [reflexivity|].
  apply IH; lia.
Qed.

Lemma nth_np_add_scalar (a : list Q) (s : Q) (i : nat) :
  (i < length a)%nat ->
  nth i (np_add_scalar a s) 0 = nth i a 0 + s.
Proof.
  revert i; induction a as [|x a IH]; intros i; simpl; intros Hi; [lia|].
  destruct i as [|i]; [reflexivity|].
  apply IH; lia.
Qed.

Lemma np_add_arrays_same_length (a b : list Q) :
  length a = length b -> np_add_arrays a b = Ok (zip_add a b).
Proof.
  intros H. unfold np_add_arrays. rewrite H, Nat.eqb_refl. reflexivity.
Qed.

Lemma Forall_zip_add (P Q' R : Q -> Prop) (a b : list Q) :
  (forall x y, P x -> Q' y -> R (x + y)) ->
  Forall P a -> Forall Q' b -> Forall R (zip_add a b).
Proof.
  intros HR Ha; revert b; induction Ha as [|x a Hx Ha IH];
    intros b Hb; simpl; [constructor|].
  destruct Hb as [|y b Hy Hb]; constructor; auto.
Qed.

Lemma Forall_np_add_scalar (a : list Q) (s : Q) :
  Forall (fun x => 0 <= x) a -> Forall (fun x => s <= x) (np_add_scalar a s).
Proof.
  intros H; induction H as [|x a Hx Ha IH]; simpl; constructor; auto.
  lra.
Qed.

(* ------------------------------------------------------------------ *)
(** ** The clutter generator *)

(** Runs the next [gamma.rvs] call of the goal with [gamma_rvs_spec]. *)
Ltac draw_gamma g st' E L P :=
  match goal with
  | |- context [gamma_rvs ?a ?s ?n ?st] =>
      destruct (gamma_rvs_spec a s n st) as (g & st' & E & L & P);
      [reflexivity | reflexivity | lia | rewrite E]
  end.

Lemma length_np_add_scalar (a : list Q) (s : Q) :
  length (np_add_scalar a s) = length a.
Proof. apply length_map. Qed.

(** C3. For every NESZ value, [generate_clutter_data] returns a dictionary
    with exactly the five sea-state keys, all different; each value has
    exactly 1000 elements, and every element is at least the linear NESZ
    floor [10 ** (nesz / 10)]. *)
Theorem generate_clutter_data_spec (nesz : Q) (st : rng_state) :
  exists d st',
    generate_clutter_data nesz st = Ok (d, st') /\
    dict_keys d =
      [sea_state_1; sea_state_2; sea_state_3; sea_state_4; sea_state_5] /\
    NoDup (dict_keys d) /\
    length d = 5%nat /\
    forall k v, In (k, v) d ->
      length v = 1000%nat /\
      Forall (fun x => float_pow 10 (nesz / 10) <= x) v.
Proof.
  unfold generate_clutter_data, bind, ret.
  draw_gamma g1 st1 E1 L1 P1.
  draw_gamma g2 st2 E2 L2 P2.
  draw_gamma g3 st3 E3 L3 P3.
  draw_gamma g4 st4 E4 L4 P4.
  draw_gamma g5 st5 E5 L5 P5.
  eexists; eexists; split; [reflexivity|].
  cbn [dict_set dict_keys map fst length].
  split; [reflexivity|].
  split.
  { repeat constructor; cbn [In]; intros H;
      repeat (destruct H as [H|H]; [discriminate H|]); exact H. }
  split; [reflexivity|].
  intros k v Hin. cbn [In] in Hin.
  repeat (destruct Hin as [Hin|Hin];
          [ inversion Hin; subst k v; clear Hin;
            split; [rewrite length_np_add_scalar; assumption
                   | apply Forall_np_add_scalar; assumption]
          | ]).
  contradiction.
Qed.

(* ------------------------------------------------------------------ *)
(** ** The target generator *)

(** The generator on a present RCS, in terms of the two draws it makes. *)
Lemma generate_target_data_draws
    (rcs snr_db : Q) (size pixels : Z) (nesz : Q) (st : rng_state) :
  (0 <= size * pixels)%Z ->
  exists target_signal st1 g st2,
    rayleigh_rvs
      (rcs * float_pow 10 (snr_db / 10) + float_pow 10 (nesz / 10)) 1.5
      (size * pixels) st = Ok (target_signal, st1) /\
    gamma_rvs 2 2 (size * pixels) st1 = Ok (g, st2) /\
    length target_signal = Z.to_nat (size * pixels) /\
    length g = Z.to_nat (size * pixels) /\
    Forall
      (fun x =>
         rcs * float_pow 10 (snr_db / 10) + float_pow 10 (nesz / 10) <= x)
      target_signal /\
    Forall (fun x => 0 <= x) g /\
    generate_target_data (Some rcs) snr_db size pixels nesz st =
      Ok (zip_add target_signal
            (np_add_scalar g (float_pow 10 (nesz / 10))), st2).
Proof.
  intros Hn.
  destruct (rayleigh_rvs_spec
              (rcs * float_pow 10 (snr_db / 10) + float_pow 10 (nesz / 10))
              1.5 (size * pixels) st) as (t & st1 & Et & Lt & Pt);
    [reflexivity | assumption |].
  destruct (gamma_rvs_spec 2 2 (size * pixels) st1)
    as (g & st2 & Eg & Lg & Pg); [reflexivity | reflexivity | assumption |].
  exists t, st1, g, st2.
  repeat (split; [assumption|]).
  unfold generate_target_data, bind, ret, lift.
  rewrite Et, Eg.
  rewrite np_add_arrays_same_length; [reflexivity|].
  rewrite length_np_add_scalar; congruence.
Qed.

(** C5. For a present RCS, a base sample count [size >= 0] and a pixel
    count [pixels >= 1], [generate_target_data] returns an array of exactly
    [size * pixels] elements: the element-wise sum of the Rayleigh draw with
    location [rcs * 10 ** (snr_db / 10) + 10 ** (nesz / 10)] and scale 1.5,
    and of the Gamma(2, 2) draw shifted by the linear NESZ floor. *)
Theorem generate_target_data_spec
    (rcs snr_db : Q) (size pixels : Z) (nesz : Q) (st : rng_state) :
  (0 <= size)%Z -> (1 <= pixels)%Z ->
  exists target_signal st1 g st2 out,
    rayleigh_rvs
      (rcs * float_pow 10 (snr_db / 10) + float_pow 10 (nesz / 10)) 1.5
      (size * pixels) st = Ok (target_signal, st1) /\
    gamma_rvs 2 2 (size * pixels) st1 = Ok (g, st2) /\
    generate_target_data (Some rcs) snr_db size pixels nesz st =
      Ok (out, st2) /\
    length out = (Z.to_nat size * Z.to_nat pixels)%nat /\
    forall i, (i < length out)%nat ->
      nth i out 0 =
      nth i target_signal 0 + (nth i g 0 + float_pow 10 (nesz / 10)).
Proof.
  intros Hs Hp.
  destruct (generate_target_data_draws rcs snr_db size pixels nesz st)
    as (t & st1 & g & st2 & Et & Eg & Lt & Lg & _ & _ & E); [nia|].
  exists t, st1, g, st2. eexists.
  repeat (split; [eassumption|]).
  assert (Hlen : length t = length (np_add_scalar g (float_pow 10 (nesz / 10))))
    by (rewrite length_np_add_scalar; congruence).
  split.
  - rewrite length_zip_add by assumption.
    rewrite Lt. apply Z2Nat.inj_mul; lia.
  - intros i Hi. rewrite length_zip_add in Hi by assumption.
    rewrite nth_zip_add by assumption.
    rewrite nth_np_add_scalar by congruence.
    reflexivity.
Qed.

(** C10. Every element returned by [generate_target_data] on a present RCS
    is at least [rcs * 10 ** (snr_db / 10) + 2 * 10 ** (nesz / 10)]. *)
Theorem generate_target_data_lower_bound
    (rcs snr_db : Q) (size pixels : Z) (nesz : Q) (st : rng_state) :
  (0 <= size * pixels)%Z ->
  exists out st',
    generate_target_data (Some rcs) snr_db size pixels nesz st =
      Ok (out, st') /\
    Forall
      (fun x =>
         rcs * float_pow 10 (snr_db / 10) + 2 * float_pow 10 (nesz / 10) <= x)
      out.
Proof.
  intros Hn.
  destruct (generate_target_data_draws rcs snr_db size pixels nesz st Hn)
    as (t & st1 & g & st2 & _ & _ & _ & _ & Pt & Pg & E).
  eexists; eexists; split; [exact E|].
  apply Forall_zip_add
    with (P := fun x =>
                 rcs * float_pow 10 (snr_db / 10) + float_pow 10 (nesz / 10)
                 <= x)
         (Q' := fun y => float_pow 10 (nesz / 10) <= y).
  - intros x y Hx Hy. lra.
  - exact Pt.
  - apply Forall_np_add_scalar. exact Pg.
Qed.

(** C7, as the code has it.  With an absent RCS the generator raises
    Python's [TypeError] (for [None * snr_linear]) before anything is
    drawn, whatever the other arguments, the samplers and the state of the
    random stream; it returns no samples, and the error is not a
    [MissingTarget] error.  The caller guards the call: with the target
    "None" nothing is generated, and every other catalogue entry carries an
    RCS. *)
Theorem generate_target_data_absent_rcs :
  (forall (snr_db : Q) (size pixels : Z) (nesz : Q) (st : rng_state),
      generate_target_data None snr_db size pixels nesz st = Raise TypeError
      /\
      generate_target_data None snr_db size pixels nesz st
      <> Raise MissingTarget)
  /\
  (forall (snr_db nesz : Q) (st : rng_state),
      plot_target_data "None" snr_db nesz st = Ok (None, st))
  /\
  (forall (target : string) (rcs : option Q) (target_length : Q),
      In (target, (rcs, target_length)) target_info ->
      target <> "None"%string ->
      exists r, rcs = Some r).
Proof.
  split; [|split].
  - intros snr_db size pixels nesz st.
    assert (E : generate_target_data None snr_db size pixels nesz st =
                Raise TypeError) by reflexivity.
    split; [exact E|]. rewrite E. discriminate.
  - intros. reflexivity.
  - intros target rcs len Hin Hne. cbn [target_info In] in Hin.
    repeat (destruct Hin as [Hin|Hin];
            [ inversion Hin; subst; try (exfalso; apply Hne; reflexivity);
              eexists; reflexivity | ]).
    contradiction.
Qed.

(* ------------------------------------------------------------------ *)
(** ** Rounding to binary64 *)

Lemma pow2_pos (e : Z) : 0 < 2 ^ e.
Proof. apply Qpower_0_lt. reflexivity. Qed.

Lemma pow2_succ (e : Z) : 2 ^ (e + 1) == 2 * 2 ^ e.
Proof.
  rewrite Qpower_plus by discriminate. rewrite Qpower_1_r. ring.
Qed.

Lemma pow2_le (e e' : Z) : (e <= e')%Z -> 2 ^ e <= 2 ^ e'.
Proof. intros H. apply Qpower_le_compat_l; [exact H | discriminate]. Qed.

Lemma pow2_lt_inv (e e' : Z) : 2 ^ e < 2 ^ e' -> (e < e')%Z.
Proof. intros H. apply (Qpower_lt_compat_l_inv 2); [exact H | reflexivity]. Qed.

Lemma pow2_inject_Z (a : Z) : (0 <= a)%Z -> inject_Z (2 ^ a) == 2 ^ a.
Proof. intros H. rewrite Zpower_Qpower by exact H. reflexivity. Qed.

(** The exponent brackets the value between two powers of two. *)
Lemma binary_exponent_spec (q : Q) :
  0 < q -> 2 ^ binary_exponent q <= q /\ q < 2 ^ (binary_exponent q + 1).
Proof.
  intros Hq. destruct q as [n d].
  assert (Hn : (0 < n)%Z) by (unfold Qlt in Hq; simpl in Hq; lia).
  unfold binary_exponent. cbn [Qnum Qden].
  set (a := Z.log2 n). set (b := Z.log2 (Z.pos d)).
  assert (Ha0 : (0 <= a)%Z) by apply Z.log2_nonneg.
  assert (Hb0 : (0 <= b)%Z) by apply Z.log2_nonneg.
  destruct (Z.log2_spec n Hn) as [Ha1 Ha2]. fold a in Ha1, Ha2.
  destruct (Z.log2_spec (Z.pos d) eq_refl) as [Hb1 Hb2]. fold b in Hb1, Hb2.
  rewrite Zle_Qle, pow2_inject_Z in Ha1, Hb1 by assumption.
  rewrite Zlt_Qlt, pow2_inject_Z in Ha2, Hb2 by lia.
  replace (Z.succ a) with (a + 1)%Z in Ha2 by lia.
  replace (Z.succ b) with (b + 1)%Z in Hb2 by lia.
  assert (Hd : 0 < inject_Z (Z.pos d)) by reflexivity.
  assert (E : n # d == inject_Z n / inject_Z (Z.pos d))
    by apply Qmake_Qdiv.
  pose proof (pow2_pos a) as Pa. pose proof (pow2_pos b) as Pb.
  pose proof (pow2_pos (a - b)) as Pab.
  assert (Eab : 2 ^ a == 2 ^ (a - b) * 2 ^ b).
  { rewrite <- Qpower_plus by discriminate.
    replace (a - b + b)%Z with a by lia. reflexivity. }
  assert (Hup : n # d < 2 ^ (a - b + 1)).
  { rewrite E. apply Qlt_shift_div_r; [exact Hd|].
    rewrite pow2_succ.
    rewrite pow2_succ in Ha2. nra. }
  assert (Hlo : 2 ^ (a - b - 1) <= n # d).
  { rewrite E. apply Qle_shift_div_l; [exact Hd|].
    assert (E1 : 2 ^ (a - b) == 2 * 2 ^ (a - b - 1)).
    { rewrite <- pow2_succ. replace (a - b - 1 + 1)%Z with (a - b)%Z by lia.
      reflexivity. }
    pose proof (pow2_pos (a - b - 1)).
    rewrite pow2_succ in Hb2. nra. }
  destruct (Qle_bool (2 ^ (a - b)) (n # d)) eqn:Hc.
  - apply Qle_bool_iff in Hc. split; assumption.
  - split; [exact Hlo|].
    replace (a - b - 1 + 1)%Z with (a - b)%Z by lia.
    apply Qnot_le_lt. intros H. apply Qle_bool_iff in H. congruence.
Qed.

Lemma binary_exponent_unique (q : Q) (e : Z) :
  2 ^ e <= q -> q < 2 ^ (e + 1) -> binary_exponent q = e.
Proof.
  intros H1 H2.
  assert (Hq : 0 < q) by (pose proof (pow2_pos e); lra).
  destruct (binary_exponent_spec q Hq) as [B1 B2].
  assert (e < binary_exponent q + 1)%Z by (apply pow2_lt_inv; lra).
  assert (binary_exponent q < e + 1)%Z by (apply pow2_lt_inv; lra).
  lia.
Qed.

Lemma binary_exponent_mono (x y : Q) :
  0 < x -> x <= y -> (binary_exponent x <= binary_exponent y)%Z.
Proof.
  intros Hx Hxy.
  destruct (binary_exponent_spec x Hx) as [X1 X2].
  destruct (binary_exponent_spec y) as [Y1 Y2]; [lra|].
  assert (binary_exponent x < binary_exponent y + 1)%Z
    by (apply pow2_lt_inv; lra).
  lia.
Qed.

(** Rounding to an integer moves a value by at most one half. *)
Lemma round_half_even_bounds (x : Q) :
  x - (1 # 2) <= inject_Z (round_half_even x) /\
  inject_Z (round_half_even x) <= x + (1 # 2).
Proof.
  unfold round_half_even.
  pose proof (Qfloor_le x) as H1. pose proof (Qlt_floor x) as H2.
  rewrite inject_Z_plus in H2. change (inject_Z 1) with 1 in H2.
  destruct (Qcompare (x - inject_Z (Qfloor x)) (1 # 2)) eqn:C.
  - apply Qeq_alt in C.
    destruct (Z.even (Qfloor x));
      rewrite ?inject_Z_plus; change (inject_Z 1) with 1; split; lra.
  - apply Qlt_alt in C. split; lra.
  - apply Qgt_alt in C. rewrite inject_Z_plus. change (inject_Z 1) with 1.
    split; lra.
Qed.

Lemma round_half_even_floor (x : Q) :
  (Qfloor x <= round_half_even x <= Qfloor x + 1)%Z.
Proof.
  unfold round_half_even.
  destruct (Qcompare _ _); [destruct (Z.even _)| |]; lia.
Qed.

Lemma round_half_even_mono (x y : Q) :
  x <= y -> (round_half_even x <= round_half_even y)%Z.
Proof.
  intros Hxy.
  pose proof (Qfloor_resp_le x y Hxy) as Hf.
  destruct (Z.eq_dec (Qfloor x) (Qfloor y)) as [E|E].
  - unfold round_half_even. rewrite <- E.
    destruct (Qcompare (x - inject_Z (Qfloor x)) (1 # 2)) eqn:Cx;
      destruct (Qcompare (y - inject_Z (Qfloor x)) (1 # 2)) eqn:Cy;
      try (destruct (Z.even (Qfloor x)); lia); try lia;
      exfalso;
      first [apply Qeq_alt in Cx | apply Qlt_alt in Cx | apply Qgt_alt in Cx];
      first [apply Qeq_alt in Cy | apply Qlt_alt in Cy | apply Qgt_alt in Cy];
      lra.
  - pose proof (round_half_even_floor x). pose proof (round_half_even_floor y).
    lia.
Qed.

Lemma round_half_even_inject_Z (z : Z) : round_half_even (inject_Z z) = z.
Proof.
  unfold round_half_even. rewrite Qfloor_Z.
  replace (Qcompare (inject_Z z - inject_Z z) (1 # 2)) with Lt; [reflexivity|].
  symmetry. apply Qlt_alt.
  assert (E : inject_Z z - inject_Z z == 0) by ring.
  rewrite E. reflexivity.
Qed.

Lemma round_half_even_eq (x : Q) (z : Z) :
  x == inject_Z z -> round_half_even x = z.
Proof.
  intros E. apply Z.le_antisymm.
  - rewrite <- (round_half_even_inject_Z z).
    apply round_half_even_mono. lra.
  - rewrite <- (round_half_even_inject_Z z).
    apply round_half_even_mono. lra.
Qed.

(** The unit in the last place of the binade of [q], and the scaled
    significand. *)
Lemma significand_range (q : Q) :
  0 < q ->
  inject_Z (2 ^ 52) <= q / 2 ^ (binary_exponent q - 52) /\
  q / 2 ^ (binary_exponent q - 52) < inject_Z (2 ^ 53).
Proof.
  intros Hq. destruct (binary_exponent_spec q Hq) as [B1 B2].
  set (e := binary_exponent q) in *.
  pose proof (pow2_pos (e - 52)) as Pu.
  assert (E1 : 2 ^ e == inject_Z (2 ^ 52) * 2 ^ (e - 52)).
  { rewrite pow2_inject_Z by lia. rewrite <- Qpower_plus by discriminate.
    replace (52 + (e - 52))%Z with e by lia. reflexivity. }
  assert (E2 : 2 ^ (e + 1) == inject_Z (2 ^ 53) * 2 ^ (e - 52)).
  { rewrite pow2_inject_Z by lia. rewrite <- Qpower_plus by discriminate.
    replace (53 + (e - 52))%Z with (e + 1)%Z by lia. reflexivity. }
  split.
  - apply Qle_shift_div_l; [exact Pu|]. lra.
  - apply Qlt_shift_div_r; [exact Pu|]. lra.
Qed.

Lemma round_magnitude_bounds (q : Q) :
  0 < q ->
  2 ^ binary_exponent q <= round_magnitude q /\
  round_magnitude q <= 2 ^ (binary_exponent q + 1).
Proof.
  intros Hq. destruct (significand_range q Hq) as [S1 S2].
  unfold round_magnitude. set (e := binary_exponent q) in *.
  set (u := 2 ^ (e - 52)) in *.
  assert (Pu : 0 < u) by apply pow2_pos.
  assert (E1 : 2 ^ e == inject_Z (2 ^ 52) * u).
  { unfold u. rewrite pow2_inject_Z by lia.
    rewrite <- Qpower_plus by discriminate.
    replace (52 + (e - 52))%Z with e by lia. reflexivity. }
  assert (E2 : 2 ^ (e + 1) == inject_Z (2 ^ 53) * u).
  { unfold u. rewrite pow2_inject_Z by lia.
    rewrite <- Qpower_plus by discriminate.
    replace (53 + (e - 52))%Z with (e + 1)%Z by lia. reflexivity. }
  assert (M1 : (2 ^ 52 <= round_half_even (q / u))%Z).
  { pose proof (round_half_even_mono _ _ S1) as H.
    rewrite round_half_even_inject_Z in H. exact H. }
  assert (M2 : (round_half_even (q / u) <= 2 ^ 53)%Z).
  { pose proof (round_half_even_mono _ _ (Qlt_le_weak _ _ S2)) as H.
    rewrite round_half_even_inject_Z in H. exact H. }
  rewrite Zle_Qle in M1, M2.
  rewrite E1, E2. split; apply Qmult_le_compat_r; lra.
Qed.

Lemma round_magnitude_pos (q : Q) : 0 < q -> 0 < round_magnitude q.
Proof.
  intros Hq. pose proof (round_magnitude_bounds q Hq) as [H _].
  pose proof (pow2_pos (binary_exponent q)). lra.
Qed.

Lemma round_magnitude_mono (x y : Q) :
  0 < x -> x <= y -> round_magnitude x <= round_magnitude y.
Proof.
  intros Hx Hxy. assert (Hy : 0 < y) by lra.
  pose proof (binary_exponent_mono x y Hx Hxy) as He.
  destruct (Z.eq_dec (binary_exponent x) (binary_exponent y)) as [E|E].
  - unfold round_magnitude. rewrite E.
    set (u := 2 ^ (binary_exponent y - 52)).
    assert (Pu : 0 < u) by apply pow2_pos.
    apply Qmult_le_compat_r; [|lra].
    rewrite <- Zle_Qle. apply round_half_even_mono.
    apply Qle_shift_div_l; [exact Pu|].
    assert (Ex : x / u * u == x) by (field; lra).
    rewrite Ex. exact Hxy.
  - destruct (round_magnitude_bounds x Hx) as [_ X2].
    destruct (round_magnitude_bounds y Hy) as [Y1 _].
    assert (2 ^ (binary_exponent x + 1) <= 2 ^ binary_exponent y)
      by (apply pow2_le; lia).
    lra.
Qed.

(** Rounding keeps the order. *)
Lemma round_binary64_mono (x y : Q) :
  x <= y -> round_binary64 x <= round_binary64 y.
Proof.
  intros Hxy. unfold round_binary64.
  destruct (x ?= 0) eqn:Cx; destruct (y ?= 0) eqn:Cy;
    first [apply Qeq_alt in Cx | apply Qlt_alt in Cx | apply Qgt_alt in Cx];
    first [apply Qeq_alt in Cy | apply Qlt_alt in Cy | apply Qgt_alt in Cy];
    try lra.
  - pose proof (round_magnitude_pos y Cy). lra.
  - assert (Hx : 0 < - x) by lra. pose proof (round_magnitude_pos _ Hx). lra.
  - assert (Hy : 0 < - y) by lra.
    assert (H : - y <= - x) by lra.
    pose proof (round_magnitude_mono _ _ Hy H). lra.
  - assert (Hx : 0 < - x) by lra. pose proof (round_magnitude_pos _ Hx).
    pose proof (round_magnitude_pos y Cy). lra.
  - apply round_magnitude_mono; assumption.
Qed.

Lemma round_binary64_pos (x : Q) : 0 < x -> 0 < round_binary64 x.
Proof.
  intros H. unfold round_binary64.
  rewrite (proj1 (Qgt_alt x 0) H). apply round_magnitude_pos. exact H.
Qed.

Lemma round_binary64_neg (x : Q) : x < 0 -> round_binary64 x < 0.
Proof.
  intros H. unfold round_binary64.
  rewrite (proj1 (Qlt_alt x 0) H).
  assert (Hx : 0 < - x) by lra. pose proof (round_magnitude_pos _ Hx). lra.
Qed.

Lemma round_binary64_eq (x y : Q) :
  x == y -> round_binary64 x == round_binary64 y.
Proof.
  intros E. apply Qle_antisym; apply round_binary64_mono; lra.
Qed.

(** Below [1 - 2^-54] the rounded value is below 1. *)
Lemma round_binary64_below_one (x : Q) :
  x < 1 - 2 ^ (-54) -> round_binary64 x < 1.
Proof.
  intros Hx. literal_bounds.
  destruct (Qlt_le_dec x (1 # 2)) as [Hh|Hh].
  - assert (H : round_binary64 x <= round_binary64 (1 # 2))
      by (apply round_binary64_mono; lra).
    assert (E : round_binary64 (1 # 2) == 1 # 2) by reflexivity.
    lra.
  - assert (Hp : 0 < x) by lra.
    unfold round_binary64. rewrite (proj1 (Qgt_alt x 0) Hp).
    unfold round_magnitude.
    rewrite (binary_exponent_unique x (-1));
      [ | change (2 ^ (-1)) with (1 # 2); lra
        | change (2 ^ (-1 + 1)) with 1; lra ].
    change (2 ^ (-1 - 52)) with (1 # 9007199254740992).
    pose proof (round_half_even_bounds (x / (1 # 9007199254740992)))
      as [_ B].
    assert (E : x / (1 # 9007199254740992) == x * 9007199254740992)
      by (field; discriminate).
    rewrite E in B at 2. lra.
Qed.

(** Above [1 + 2^-53] the rounded value is above 1. *)
Lemma round_binary64_above_one (x : Q) :
  1 + 2 ^ (-53) < x -> 1 < round_binary64 x.
Proof.
  intros Hx. literal_bounds.
  destruct (Qlt_le_dec x 2) as [Hh|Hh].
  - assert (Hp : 0 < x) by lra.
    unfold round_binary64. rewrite (proj1 (Qgt_alt x 0) Hp).
    unfold round_magnitude.
    rewrite (binary_exponent_unique x 0);
      [ | change (2 ^ 0) with 1; lra
        | change (2 ^ (0 + 1)) with 2; lra ].
    change (2 ^ (0 - 52)) with (1 # 4503599627370496).
    pose proof (round_half_even_bounds (x / (1 # 4503599627370496)))
      as [B _].
    assert (E : x / (1 # 4503599627370496) == x * 4503599627370496)
      by (field; discriminate).
    rewrite E in B at 1. lra.
  - assert (H : round_binary64 2 <= round_binary64 x)
      by (apply round_binary64_mono; lra).
    assert (E : round_binary64 2 == 2) by reflexivity.
    lra.
Qed.


(** [1 - pfa] in binary64 is exactly 1.0 for every [pfa] from [-2^-53] to
    [2^-54]. *)
Lemma float_sub_one_eq (pfa : Q) :
  - 2 ^ (-53) <= pfa -> pfa <= 2 ^ (-54) -> float_sub 1 pfa == 1.
Proof.
  intros H1 H2. unfold float_sub. literal_bounds.
  assert (L : round_binary64 (1 - (1 # 18014398509481984)) <=
              round_binary64 (1 - pfa))
    by (apply round_binary64_mono; lra).
  assert (U : round_binary64 (1 - pfa) <=
              round_binary64 (1 + (1 # 9007199254740992)))
    by (apply round_binary64_mono; lra).
  assert (EL : round_binary64 (1 - (1 # 18014398509481984)) == 1)
    by (vm_compute; reflexivity).
  assert (EU : round_binary64 (1 + (1 # 9007199254740992)) == 1)
    by (vm_compute; reflexivity).
  lra.
Qed.

Lemma float_sub_one_inside (pfa : Q) :
  2 ^ (-54) < pfa -> pfa < 1 ->
  0 < float_sub 1 pfa /\ float_sub 1 pfa < 1.
Proof.
  intros H1 H2. unfold float_sub. split.
  - apply round_binary64_pos. lra.
  - apply round_binary64_below_one. lra.
Qed.

Lemma float_sub_one_mono (pfa1 pfa2 : Q) :
  pfa1 <= pfa2 -> float_sub 1 pfa2 <= float_sub 1 pfa1.
Proof. intros H. apply round_binary64_mono. lra. Qed.

Lemma float_sub_one_outside (pfa : Q) :
  pfa < - 2 ^ (-53) \/ 1 < pfa ->
  float_sub 1 pfa < 0 \/ 1 < float_sub 1 pfa.
Proof.
  intros [H|H]; unfold float_sub.
  - right. apply round_binary64_above_one. lra.
  - left. apply round_binary64_neg. lra.
Qed.

Lemma float_sub_one_zero (pfa : Q) : pfa == 1 -> float_sub 1 pfa == 0.
Proof.
  intros H. unfold float_sub.
  rewrite (round_binary64_eq (1 - pfa) 0) by lra. reflexivity.
Qed.

(* ------------------------------------------------------------------ *)
(** ** The threshold estimator *)

Lemma Qlt_bool_iff (x y : Q) : Qlt_bool x y = true <-> x < y.
Proof.
  unfold Qlt_bool. rewrite negb_true_iff.
  split.
  - intros H. apply Qnot_le_lt. intros Hle.
    apply Qle_bool_iff in Hle. congruence.
  - intros H. destruct (Qle_bool y x) eqn:E; [|reflexivity].
    apply Qle_bool_iff in E. exfalso. apply (Qlt_not_le _ _ H E).
Qed.

Lemma Qlt_bool_false_iff (x y : Q) : Qlt_bool x y = false <-> y <= x.
Proof.
  unfold Qlt_bool. rewrite negb_false_iff. apply Qle_bool_iff.
Qed.

Lemma Qeq_bool_false (x y : Q) : ~ x == y -> Qeq_bool x y = false.
Proof.
  intros H. destruct (Qeq_bool x y) eqn:E; [|reflexivity].
  apply Qeq_bool_iff in E. contradiction.
Qed.

Lemma rv_ppf_inside (d : rv_frozen) (q : Q) :
  0 < q -> q < 1 -> rv_ppf d q = Finite (inner_ppf d q).
Proof.
  intros H0 H1. unfold rv_ppf.
  rewrite (proj2 (Qlt_bool_iff 0 q) H0), (proj2 (Qlt_bool_iff q 1) H1).
  reflexivity.
Qed.

Lemma rv_ppf_outside (d : rv_frozen) (q : Q) :
  q < 0 \/ 1 < q -> rv_ppf d q = NaN.
Proof.
  intros H. unfold rv_ppf.
  assert (Hin : Qlt_bool 0 q && Qlt_bool q 1 = false).
  { destruct H as [H|H].
    - rewrite (proj2 (Qlt_bool_false_iff 0 q)) by lra. reflexivity.
    - rewrite (proj2 (Qlt_bool_false_iff q 1)) by lra.
      apply andb_false_r. }
  rewrite Hin, !Qeq_bool_false by lra. reflexivity.
Qed.

Lemma rv_ppf_zero (d : rv_frozen) (q : Q) :
  q == 0 -> rv_ppf d q = support_a d.
Proof.
  intros H. unfold rv_ppf.
  rewrite (proj2 (Qlt_bool_false_iff 0 q)) by lra.
  rewrite (proj2 (Qeq_bool_iff q 0) H). reflexivity.
Qed.

Lemma rv_ppf_one (d : rv_frozen) (q : Q) :
  q == 1 -> rv_ppf d q = support_b d.
Proof.
  intros H. unfold rv_ppf.
  rewrite (proj2 (Qlt_bool_false_iff q 1)) by lra.
  rewrite andb_false_r, Qeq_bool_false by lra.
  rewrite (proj2 (Qeq_bool_iff q 1) H). reflexivity.
Qed.

Lemma np_mean_nonempty (data : list Q) :
  data <> [] -> np_mean data = Finite (sample_mean data).
Proof. destruct data; [congruence | reflexivity]. Qed.

(** The scale factor [np.mean(data) / k_dist.mean()] on a non-empty
    array. *)
Lemma scale_factor_nonempty (data : list Q) :
  data <> [] ->
  np_div (np_mean data) (dist_mean kstwobign) =
  Finite (sample_mean data / kolmogorov_mean).
Proof.
  intros H. rewrite np_mean_nonempty by assumption.
  cbn [np_div kstwobign dist_mean].
  rewrite Qeq_bool_false; [reflexivity|].
  pose proof kolmogorov_mean_pos. lra.
Qed.

Lemma inf_of_sign_pos (q : Q) : 0 < q -> inf_of_sign q = PosInf.
Proof.
  intros H. unfold inf_of_sign.
  rewrite (proj1 (Qgt_alt q 0) H). reflexivity.
Qed.

Lemma inf_of_sign_neg (q : Q) : q < 0 -> inf_of_sign q = NegInf.
Proof.
  intros H. unfold inf_of_sign.
  rewrite (proj1 (Qlt_alt q 0) H). reflexivity.
Qed.

Lemma inf_of_sign_zero (q : Q) : q == 0 -> inf_of_sign q = NaN.
Proof.
  intros H. unfold inf_of_sign.
  rewrite (proj1 (Qeq_alt q 0) H). reflexivity.
Qed.

(** The sign of the scale factor is the sign of the mean. *)
Lemma scale_factor_sign (m : Q) :
  (0 < m -> 0 < m / kolmogorov_mean) /\
  (m < 0 -> m / kolmogorov_mean < 0) /\
  (m == 0 -> m / kolmogorov_mean == 0).
Proof.
  pose proof kolmogorov_mean_pos as Hk.
  split; [|split]; intros Hm.
  - apply Qlt_shift_div_l; [exact Hk | lra].
  - apply Qlt_shift_div_r; [exact Hk | lra].
  - rewrite Hm. field. lra.
Qed.

(** Where [1 - pfa] rounds to a value below 1 the quantile is finite. *)
Lemma compute_cfar_threshold_inside (data : list Q) (pfa : Q) :
  2 ^ (-54) < pfa -> pfa < 1 -> data <> [] ->
  compute_cfar_threshold data pfa =
  Finite (kolmogorov_ppf (float_sub 1 pfa)
          * (sample_mean data / kolmogorov_mean)).
Proof.
  intros H0 H1 Hd. unfold compute_cfar_threshold.
  destruct (float_sub_one_inside pfa H0 H1) as [Q0 Q1].
  rewrite rv_ppf_inside by assumption.
  rewrite scale_factor_nonempty by assumption.
  reflexivity.
Qed.

(** Where [1 - pfa] rounds to 1.0 the quantile is +infinity, and the
    threshold an infinity with the sign of the mean. *)
Lemma compute_cfar_threshold_saturated (data : list Q) (pfa : Q) :
  - 2 ^ (-53) <= pfa -> pfa <= 2 ^ (-54) -> data <> [] ->
  compute_cfar_threshold data pfa =
  inf_of_sign (sample_mean data / kolmogorov_mean).
Proof.
  intros H0 H1 Hd. unfold compute_cfar_threshold.
  rewrite rv_ppf_one by (apply float_sub_one_eq; assumption).
  rewrite scale_factor_nonempty by assumption.
  reflexivity.
Qed.

Lemma compute_cfar_threshold_outside (data : list Q) (pfa : Q) :
  pfa < - 2 ^ (-53) \/ 1 < pfa -> compute_cfar_threshold data pfa = NaN.
Proof.
  intros H. unfold compute_cfar_threshold.
  rewrite rv_ppf_outside by (apply float_sub_one_outside; exact H).
  reflexivity.
Qed.

Lemma compute_cfar_threshold_at_one (data : list Q) (pfa : Q) :
  pfa == 1 -> data <> [] ->
  exists t, compute_cfar_threshold data pfa = Finite t /\ t == 0.
Proof.
  intros H Hne. unfold compute_cfar_threshold.
  rewrite rv_ppf_zero by (apply float_sub_one_zero; exact H).
  rewrite scale_factor_nonempty by assumption.
  eexists; split; [reflexivity|]. ring.
Qed.



Lemma Qsum_nonneg (data : list Q) :
  Forall (fun x => 0 <= x) data -> 0 <= Qsum data.
Proof.
  intros H; induction H as [|x l Hx Hl IH]; simpl; lra.
Qed.

Lemma Qsum_scale (c : Q) (data : list Q) :
  Qsum (map (Qmult c) data) == c * Qsum data.
Proof.
  induction data as [|x l IH]; simpl; [ring|]. rewrite IH. ring.
Qed.

Lemma length_pos_Q {A : Type} (l : list A) :
  l <> [] -> 0 < inject_Z (Z.of_nat (length l)).
Proof.
  intros H. destruct l as [|a l]; [congruence|].
  change 0 with (inject_Z 0). rewrite <- Zlt_Qlt. simpl length. lia.
Qed.

Lemma sample_mean_nonneg (data : list Q) :
  data <> [] -> Forall (fun x => 0 <= x) data -> 0 <= sample_mean data.
Proof.
  intros Hne H. unfold sample_mean.
  apply Qle_shift_div_l; [apply length_pos_Q; assumption|].
  pose proof (Qsum_nonneg data H). lra.
Qed.

Lemma sample_mean_scale (c : Q) (data : list Q) :
  data <> [] -> sample_mean (map (Qmult c) data) == c * sample_mean data.
Proof.
  intros Hne. unfold sample_mean.
  rewrite length_map, Qsum_scale.
  pose proof (length_pos_Q data Hne).
  field. lra.
Qed.

(** An infinity keeps its sign under a positive factor. *)
Lemma inf_of_sign_scale (c a a' : Q) :
  0 < c -> a' == c * a -> inf_of_sign a' = inf_of_sign a.
Proof.
  intros Hc E.
  destruct (Q_dec a 0) as [[Ha|Ha]|Ha].
  - rewrite !inf_of_sign_neg; [reflexivity|exact Ha|].
    rewrite E. assert (0 < c * - a) by (apply Qmult_lt_0_compat; lra).
    assert (E' : c * - a == - (c * a)) by ring. lra.
  - rewrite !inf_of_sign_pos; [reflexivity|exact Ha|].
    rewrite E. apply Qmult_lt_0_compat; assumption.
  - rewrite !inf_of_sign_zero; [reflexivity|exact Ha|].
    rewrite E, Ha. ring.
Qed.




(* ------------------------------------------------------------------ *)
(** ** Lookups in the generated dictionary and in the catalogue *)

Lemma dict_get_missing {V : Type} (k : string) (d : list (string * V)) :
  ~ In k (dict_keys d) -> dict_get k d = Raise KeyError.
Proof.
  induction d as [|[k' v'] d IH]; intros H; [reflexivity|].
  cbn [dict_get]. destruct (String.eqb_spec k k') as [E|E].
  - exfalso. apply H. left. symmetry. exact E.
  - apply IH. intros Hin. apply H. right. exact Hin.
Qed.

Lemma dict_get_found {V : Type} (k : string) (v : V)
    (d : list (string * V)) :
  NoDup (dict_keys d) -> In (k, v) d -> dict_get k d = Ok v.
Proof.
  induction d as [|[k' v'] d IH]; intros Hnd Hin; [contradiction|].
  cbn [dict_keys map fst] in Hnd. inversion Hnd as [|? ? Hnotin Hnd']; subst.
  cbn [dict_get]. destruct Hin as [Hin|Hin].
  - inversion Hin; subst. rewrite String.eqb_refl. reflexivity.
  - destruct (String.eqb_spec k k') as [E|E].
    + exfalso. subst k'. apply Hnotin.
      apply (in_map fst) in Hin. exact Hin.
    + apply IH; assumption.
Qed.

(** The dictionary of the clutter generator, entry by entry. *)
Lemma generate_clutter_data_entries (nesz : Q) (st : rng_state) :
  exists a1 a2 a3 a4 a5 st',
    generate_clutter_data nesz st =
      Ok ([(sea_state_1, a1); (sea_state_2, a2); (sea_state_3, a3);
           (sea_state_4, a4); (sea_state_5, a5)], st') /\
    Forall
      (fun a => length a = 1000%nat /\
                Forall (fun x => float_pow 10 (nesz / 10) <= x) a)
      [a1; a2; a3; a4; a5].
Proof.
  unfold generate_clutter_data, bind, ret.
  draw_gamma g1 st1 E1 L1 P1.
  draw_gamma g2 st2 E2 L2 P2.
  draw_gamma g3 st3 E3 L3 P3.
  draw_gamma g4 st4 E4 L4 P4.
  draw_gamma g5 st5 E5 L5 P5.
  do 6 eexists. split; [reflexivity|].
  repeat (constructor;
          [split; [rewrite length_np_add_scalar; assumption
                  | apply Forall_np_add_scalar; assumption]|]).
  constructor.
Qed.

Lemma sea_state_keys_NoDup :
  NoDup [sea_state_1; sea_state_2; sea_state_3; sea_state_4; sea_state_5].
Proof.
  repeat constructor; cbn [In]; intros H;
    repeat (destruct H as [H|H]; [discriminate H|]); exact H.
Qed.

(** X1. In the dictionary that [generate_clutter_data] returns, each of the
    five sea-state keys is found with an array of 1000 elements, and every
    name that is not an option of the sea-state control raises [KeyError];
    the options are "All" and the five keys, in this order; the "All"
    selection of the caller concatenates the five arrays into one of 5000
    elements, all at least the noise floor. *)
Theorem generate_clutter_data_lookup (nesz : Q) (st : rng_state) :
  exists d st',
    generate_clutter_data nesz st = Ok (d, st') /\
    (forall k,
        In k [sea_state_1; sea_state_2; sea_state_3; sea_state_4;
              sea_state_5] ->
        exists v,
          plot_clutter_data k d = Ok v /\ length v = 1000%nat /\
          Forall (fun x => float_pow 10 (nesz / 10) <= x) v) /\
    sea_state_options d =
      ["All"%string; sea_state_1; sea_state_2; sea_state_3; sea_state_4;
       sea_state_5] /\
    (forall k,
        ~ In k (sea_state_options d) ->
        plot_clutter_data k d = Raise KeyError) /\
    (exists v,
        plot_clutter_data "All" d = Ok v /\ length v = 5000%nat /\
        Forall (fun x => float_pow 10 (nesz / 10) <= x) v).
Proof.
  destruct (generate_clutter_data_entries nesz st)
    as (a1 & a2 & a3 & a4 & a5 & st' & E & H).
  eexists; eexists; split; [exact E|].
  inversion H as [|? ? [L1 P1] H2]; subst.
  inversion H2 as [|? ? [L2 P2] H3]; subst.
  inversion H3 as [|? ? [L3 P3] H4]; subst.
  inversion H4 as [|? ? [L4 P4] H5]; subst.
  inversion H5 as [|? ? [L5 P5] _]; subst.
  split; [|split; [reflexivity|split]].
  - intros k Hk. cbn [In] in Hk.
    repeat (destruct Hk as [Hk|Hk];
            [subst k; eexists; split; [reflexivity|]; split; assumption|]).
    contradiction.
  - intros k Hk. unfold plot_clutter_data.
    destruct (String.eqb_spec k "All") as [Ea|Ea].
    + exfalso. apply Hk. left. symmetry. exact Ea.
    + apply dict_get_missing. intros Hin. apply Hk. right. exact Hin.
  - eexists. split; [reflexivity|].
    cbn [map snd concat]. split.
    + rewrite !length_app, L1, L2, L3, L4, L5. reflexivity.
    + repeat (apply Forall_app; split; [assumption|]). constructor.
Qed.


Lemma target_info_keys_NoDup : NoDup (dict_keys target_info).
Proof.
  repeat constructor; cbn [In]; intros H;
    repeat (destruct H as [H|H]; [discriminate H|]); exact H.
Qed.

(** The target branch of the caller once the catalogue entry and the pixel
    count are known. *)
Lemma plot_target_data_selected
    (target : string) (rcs len : Q) (pixels : Z) (snr_db nesz : Q)
    (st : rng_state) :
  target <> "None"%string ->
  dict_get target target_info = Ok (Some rcs, len) ->
  estimate_pixels len ground_resolution = Ok pixels ->
  (1 <= pixels)%Z ->
  exists out st',
    plot_target_data target snr_db nesz st = Ok (Some out, st') /\
    length out = (1000 * Z.to_nat pixels)%nat /\
    Forall
      (fun x =>
         rcs * float_pow 10 (snr_db / 10) + 2 * float_pow 10 (nesz / 10) <= x)
      out.
Proof.
  intros Hne Hget Hpix Hp.
  destruct (generate_target_data_draws rcs snr_db 1000 pixels nesz st)
    as (t & st1 & g & st2 & _ & _ & Lt & Lg & Pt & Pg & E); [lia|].
  exists (zip_add t (np_add_scalar g (float_pow 10 (nesz / 10)))), st2.
  split; [|split].
  - unfold plot_target_data.
    rewrite (proj2 (String.eqb_neq target "None") Hne). cbn [negb].
    unfold bind at 1. unfold lift at 1. rewrite Hget.
    unfold bind at 1. unfold lift at 1. rewrite Hpix.
    unfold bind at 1. rewrite E. reflexivity.
  - rewrite length_zip_add
      by (rewrite length_np_add_scalar; congruence).
    rewrite Lt, Z2Nat.inj_mul by lia. reflexivity.
  - apply Forall_zip_add
      with (P := fun x =>
                   rcs * float_pow 10 (snr_db / 10)
                   + float_pow 10 (nesz / 10) <= x)
           (Q' := fun y => float_pow 10 (nesz / 10) <= y).
    + intros x y Hx Hy. lra.
    + exact Pt.
    + apply Forall_np_add_scalar. exact Pg.
Qed.

(** X2. The target branch of [plot_sea_state]: with the target "None"
    nothing is generated and the random stream is left as it was; for every
    other catalogue entry the branch does not raise and returns
    1000 x pixels samples, at least 1000, each at least
    [rcs * 10 ** (snr_db / 10) + 2 * 10 ** (nesz / 10)]; a name that is not
    in the catalogue raises [KeyError]. *)
Theorem plot_target_data_catalogue
    (target : string) (snr_db nesz : Q) (st : rng_state) :
  (target = "None"%string ->
   plot_target_data target snr_db nesz st = Ok (None, st))
  /\
  (forall rcs len,
      target <> "None"%string ->
      In (target, (Some rcs, len)) target_info ->
      exists pixels out st',
        estimate_pixels len ground_resolution = Ok pixels /\
        plot_target_data target snr_db nesz st = Ok (Some out, st') /\
        length out = (1000 * Z.to_nat pixels)%nat /\
        (1000 <= length out)%nat /\
        Forall
          (fun x =>
             rcs * float_pow 10 (snr_db / 10)
             + 2 * float_pow 10 (nesz / 10) <= x)
          out)
  /\
  (~ In target target_options ->
   plot_target_data target snr_db nesz st = Raise KeyError).
Proof.
  split; [|split].
  - intros ->. reflexivity.
  - intros rcs len Hne Hin.
    pose proof (dict_get_found _ _ _ target_info_keys_NoDup Hin) as Hget.
    assert (Hpix : exists pixels,
               estimate_pixels len ground_resolution = Ok pixels /\
               (1 <= pixels)%Z).
    { cbn [target_info In] in Hin.
      destruct Hin as [Hin|Hin]; [discriminate Hin|].
      repeat (destruct Hin as [Hin|Hin];
              [ inversion Hin; subst len;
                eexists; split; [reflexivity | lia] | ]).
      contradiction. }
    destruct Hpix as (pixels & Hpix & Hp).
    destruct (plot_target_data_selected target rcs len pixels snr_db nesz st
                Hne Hget Hpix Hp) as (out & st' & E & L & P).
    exists pixels, out, st'.
    repeat (split; [assumption|]).
    split; [|exact P]. rewrite L. lia.
  - intros Hnot. unfold plot_target_data.
    assert (Hne : target <> "None"%string).
    { intros ->. apply Hnot. left. reflexivity. }
    rewrite (proj2 (String.eqb_neq target "None") Hne). cbn [negb].
    unfold bind at 1. unfold lift at 1.
    rewrite (dict_get_missing target target_info Hnot). reflexivity.
Qed.


(* ------------------------------------------------------------------ *)
(** ** More on the threshold estimator *)

(** X3. Edge cases of [compute_cfar_threshold].  On the empty array the
    result is NaN for every PFA.  At PFA = 0, where the quantile is
    +infinity, the threshold of a non-empty array is +infinity, -infinity
    or NaN as the mean of the array is positive, negative or zero. *)
Theorem compute_cfar_threshold_edges :
  (forall pfa : Q, compute_cfar_threshold [] pfa = NaN)
  /\
  (forall (data : list Q) (pfa : Q),
      data <> [] -> pfa == 0 ->
      (0 < sample_mean data -> compute_cfar_threshold data pfa = PosInf) /\
      (sample_mean data < 0 -> compute_cfar_threshold data pfa = NegInf) /\
      (sample_mean data == 0 -> compute_cfar_threshold data pfa = NaN)).
Proof.
  split.
  - intros pfa. unfold compute_cfar_threshold. cbn [np_mean np_div].
    destruct (rv_ppf kstwobign (float_sub 1 pfa)); reflexivity.
  - intros data pfa Hne H0.
    rewrite compute_cfar_threshold_saturated;
      [ | literal_bounds; lra | literal_bounds; lra | exact Hne ].
    destruct (scale_factor_sign (sample_mean data)) as (S1 & S2 & S3).
    split; [|split]; intros Hm.
    + apply inf_of_sign_pos, S1, Hm.
    + apply inf_of_sign_neg, S2, Hm.
    + apply inf_of_sign_zero, S3, Hm.
Qed.

Lemma Qsum_permutation (l l' : list Q) :
  Permutation l l' -> Qsum l == Qsum l'.
Proof.
  intros H; induction H as [|x l l' H IH|x y l|l l' l'' H1 IH1 H2 IH2];
    simpl; try lra.
Qed.

Lemma sample_mean_permutation (l l' : list Q) :
  Permutation l l' -> sample_mean l == sample_mean l'.
Proof.
  intros H. unfold sample_mean.
  rewrite (Permutation_length H), (Qsum_permutation l l' H). reflexivity.
Qed.

Lemma same_float_refl (x : np_float) : same_float x x.
Proof. destruct x; cbn [same_float]; [reflexivity | exact I ..]. Qed.

(** A product changes with its second factor only through the value of
    that factor. *)
Lemma np_mul_same (x : np_float) (a a' : Q) :
  a == a' -> same_float (np_mul x (Finite a)) (np_mul x (Finite a')).
Proof.
  intros E.
  assert (Es : inf_of_sign a = inf_of_sign a').
  { apply (inf_of_sign_scale 1); [reflexivity|]. rewrite E. ring. }
  destruct x as [p| | |]; cbn [np_mul].
  - cbn [same_float]. rewrite E. reflexivity.
  - rewrite Es. apply same_float_refl.
  - rewrite Es. apply same_float_refl.
  - exact I.
Qed.

(** X4. The threshold depends on the clutter array through its mean only.
    For every PFA, two non-empty arrays with the same mean get the same
    threshold (the same finite value, the same infinity, or NaN both), and
    so do an array and any rearrangement of it. *)
Theorem compute_cfar_threshold_mean_only (pfa : Q) :
  (forall data data' : list Q,
      data <> [] -> data' <> [] ->
      sample_mean data == sample_mean data' ->
      same_float (compute_cfar_threshold data pfa)
                 (compute_cfar_threshold data' pfa))
  /\
  (forall data data' : list Q,
      Permutation data data' ->
      same_float (compute_cfar_threshold data pfa)
                 (compute_cfar_threshold data' pfa)).
Proof.
  assert (Hmean : forall data data' : list Q,
             data <> [] -> data' <> [] ->
             sample_mean data == sample_mean data' ->
             same_float (compute_cfar_threshold data pfa)
                        (compute_cfar_threshold data' pfa)).
  { intros data data' Hd Hd' Hm. unfold compute_cfar_threshold.
    rewrite !scale_factor_nonempty by assumption.
    apply np_mul_same. rewrite Hm. reflexivity. }
  split; [exact Hmean|].
  intros data data' Hp.
  destruct data as [|x data].
  - apply Permutation_nil in Hp. subst data'. apply same_float_refl.
  - apply Hmean.
    + discriminate.
    + intros E. subst data'.
      apply Permutation_sym, Permutation_nil in Hp. discriminate Hp.
    + apply sample_mean_permutation. exact Hp.
Qed.

(** X5. The sign of the mean decides the sign of the threshold and the
    direction in which it moves with the PFA.  Where the quantile is
    finite (a PFA above 2^-54 and below 1) and positive, the threshold of a
    non-empty array is positive, zero or negative with the mean of the
    array; where the binary64 value of [1 - pfa] is 1.0 (a PFA from 0 to
    2^-54) it is +infinity, -infinity or NaN with the mean.  For an array
    whose mean is negative the threshold does not decrease when the PFA
    grows inside (0,1), in the order of the floats with -infinity at the
    bottom. *)
Theorem compute_cfar_threshold_sign (data : list Q) :
  data <> [] ->
  (forall pfa : Q,
      2 ^ (-54) < pfa -> pfa < 1 -> 0 < kolmogorov_ppf (float_sub 1 pfa) ->
      exists t,
        compute_cfar_threshold data pfa = Finite t /\
        (0 < sample_mean data -> 0 < t) /\
        (sample_mean data == 0 -> t == 0) /\
        (sample_mean data < 0 -> t < 0))
  /\
  (forall pfa : Q,
      0 <= pfa -> pfa <= 2 ^ (-54) ->
      (0 < sample_mean data -> compute_cfar_threshold data pfa = PosInf) /\
      (sample_mean data < 0 -> compute_cfar_threshold data pfa = NegInf) /\
      (sample_mean data == 0 -> compute_cfar_threshold data pfa = NaN))
  /\
  (sample_mean data < 0 ->
   forall pfa1 pfa2 : Q,
     0 < pfa1 -> pfa1 <= pfa2 -> pfa2 < 1 ->
     np_le (compute_cfar_threshold data pfa1)
           (compute_cfar_threshold data pfa2) = true).
Proof.
  intros Hne.
  destruct (scale_factor_sign (sample_mean data)) as (S1 & S2 & S3).
  assert (Hlow : forall p, 0 <= p -> - 2 ^ (-53) <= p)
    by (intros p Hp; literal_bounds; lra).
  split; [|split].
  - intros pfa H0 H1 Hq.
    eexists. split; [apply compute_cfar_threshold_inside; assumption|].
    split; [|split]; intros Hm.
    + apply Qmult_lt_0_compat; [exact Hq | exact (S1 Hm)].
    + rewrite (S3 Hm). ring.
    + pose proof (S2 Hm) as Hs.
      assert (Hp : 0 < kolmogorov_ppf (float_sub 1 pfa)
                       * - (sample_mean data / kolmogorov_mean))
        by (apply Qmult_lt_0_compat; [exact Hq | lra]).
      assert (E : kolmogorov_ppf (float_sub 1 pfa)
                  * - (sample_mean data / kolmogorov_mean) ==
                  - (kolmogorov_ppf (float_sub 1 pfa)
                     * (sample_mean data / kolmogorov_mean))) by ring.
      rewrite E in Hp. lra.
  - intros pfa H0 H1.
    rewrite (compute_cfar_threshold_saturated data pfa (Hlow pfa H0) H1 Hne).
    split; [|split]; intros Hm.
    + apply inf_of_sign_pos, S1, Hm.
    + apply inf_of_sign_neg, S2, Hm.
    + apply inf_of_sign_zero, S3, Hm.
  - intros Hm pfa1 pfa2 H0 H12 H1.
    pose proof (S2 Hm) as Hs.
    destruct (Qlt_le_dec (2 ^ (-54)) pfa1) as [Hin|Hsat].
    + assert (Hin2 : 2 ^ (-54) < pfa2) by lra.
      rewrite !compute_cfar_threshold_inside by (lra || assumption).
      destruct (float_sub_one_inside pfa1 Hin) as [P1 Q1]; [lra|].
      destruct (float_sub_one_inside pfa2 Hin2 H1) as [P2 Q2].
      pose proof (float_sub_one_mono pfa1 pfa2 H12) as Hq.
      cbn [np_le]. apply Qle_bool_iff.
      assert (Hpp : kolmogorov_ppf (float_sub 1 pfa2)
                    <= kolmogorov_ppf (float_sub 1 pfa1))
        by (apply kolmogorov_ppf_mono; assumption).
      assert (Hn : 0 <= - (sample_mean data / kolmogorov_mean)) by lra.
      pose proof (Qmult_le_compat_r _ _ _ Hpp Hn) as Hle.
      assert (E1 : kolmogorov_ppf (float_sub 1 pfa1)
                   * - (sample_mean data / kolmogorov_mean) ==
                   - (kolmogorov_ppf (float_sub 1 pfa1)
                      * (sample_mean data / kolmogorov_mean))) by ring.
      assert (E2 : kolmogorov_ppf (float_sub 1 pfa2)
                   * - (sample_mean data / kolmogorov_mean) ==
                   - (kolmogorov_ppf (float_sub 1 pfa2)
                      * (sample_mean data / kolmogorov_mean))) by ring.
      rewrite E1, E2 in Hle. lra.
    + rewrite (compute_cfar_threshold_saturated data pfa1)
        by (try assumption; apply Hlow; lra).
      rewrite (inf_of_sign_neg _ Hs).
      destruct (Qlt_le_dec (2 ^ (-54)) pfa2) as [Hin2|Hsat2].
      * rewrite compute_cfar_threshold_inside by assumption. reflexivity.
      * rewrite (compute_cfar_threshold_saturated data pfa2)
          by (try assumption; apply Hlow; lra).
        rewrite (inf_of_sign_neg _ Hs). reflexivity.
Qed.


End Simulation.

(* ------------------------------------------------------------------ *)
(** ** The pixel estimate *)

Lemma py_int_inject_Z (z : Z) : py_int (inject_Z z) = z.
Proof. unfold py_int. simpl. apply Z.quot_1_r. Qed.

Lemma estimate_pixels_nonzero (target_length resolution : Q) :
  ~ resolution == 0 ->
  estimate_pixels target_length resolution =
  Ok (pixel_count_spec target_length resolution).
Proof.
  intros H. unfold estimate_pixels, py_truediv, pixel_count_spec, np_ceil.
  destruct (Qeq_bool resolution 0) eqn:E.
  - apply Qeq_bool_iff in E. contradiction.
  - simpl. rewrite py_int_inject_Z. reflexivity.
Qed.

Lemma pixel_count_spec_mono (l1 l2 resolution : Q) :
  0 < resolution -> l1 <= l2 ->
  (pixel_count_spec l1 resolution <= pixel_count_spec l2 resolution)%Z.
Proof.
  intros Hr Hl. unfold pixel_count_spec.
  apply Z.max_le_compat_l, Qceiling_resp_le.
  unfold Qdiv. apply Qmult_le_compat_r; [assumption|].
  apply Qinv_le_0_compat. lra.
Qed.

Lemma pixel_count_spec_one (target_length resolution : Q) :
  0 < resolution -> target_length <= resolution ->
  pixel_count_spec target_length resolution = 1%Z.
Proof.
  intros Hr Hl. unfold pixel_count_spec.
  apply Z.max_l.
  rewrite <- (Qceiling_Z 1).
  apply Qceiling_resp_le. apply Qle_shift_div_r; [assumption|].
  change (inject_Z 1) with 1. lra.
Qed.

(** C4. [estimate_pixels] computes the ceiling of length / resolution,
    floored at 1; for a positive resolution it is non-decreasing in the
    target length and returns 1 for every length up to the resolution;
    [estimate_pixels 9.144 10 = 1] and [estimate_pixels 42.672 10 = 5]. *)
Theorem estimate_pixels_spec :
  (forall target_length resolution : Q,
      ~ resolution == 0 ->
      estimate_pixels target_length resolution =
      Ok (Z.max 1 (Qceiling (target_length / resolution))))
  /\
  (forall l1 l2 resolution : Q,
      0 < resolution -> l1 <= l2 ->
      exists n1 n2,
        estimate_pixels l1 resolution = Ok n1 /\
        estimate_pixels l2 resolution = Ok n2 /\
        (n1 <= n2)%Z)
  /\
  (forall target_length resolution : Q,
      0 < resolution -> target_length <= resolution ->
      estimate_pixels target_length resolution = Ok 1%Z)
  /\
  estimate_pixels 9.144 10 = Ok 1%Z
  /\
  estimate_pixels 42.672 10 = Ok 5%Z.
Proof.
  split; [|split; [|split; [|split]]].
  - intros l r Hr. apply estimate_pixels_nonzero. assumption.
  - intros l1 l2 r Hr Hl.
    exists (pixel_count_spec l1 r), (pixel_count_spec l2 r).
    rewrite !estimate_pixels_nonzero by lra.
    repeat split. apply pixel_count_spec_mono; assumption.
  - intros l r Hr Hl.
    rewrite estimate_pixels_nonzero by lra.
    f_equal. apply pixel_count_spec_one; assumption.
  - reflexivity.
  - reflexivity.
Qed.

(** C9. For a positive resolution [estimate_pixels] raises on no target
    length, zero and negative ones included, and returns an integer that is
    at least 1; it returns 1 for every length that is zero or negative, and
    for the length 0 of the catalogue's "None" entry at the configured
    resolution. *)
Theorem estimate_pixels_total :
  (forall target_length resolution : Q,
      0 < resolution ->
      exists n,
        estimate_pixels target_length resolution = Ok n /\ (1 <= n)%Z)
  /\
  (forall target_length resolution : Q,
      0 < resolution -> target_length <= 0 ->
      estimate_pixels target_length resolution = Ok 1%Z)
  /\
  (forall rcs target_length,
      dict_get "None" target_info = Ok (rcs, target_length) ->
      estimate_pixels target_length ground_resolution = Ok 1%Z).
Proof.
  split; [|split].
  - intros l r Hr. exists (pixel_count_spec l r).
    rewrite estimate_pixels_nonzero by lra.
    split; [reflexivity|]. unfold pixel_count_spec. lia.
  - intros l r Hr Hl.
    rewrite estimate_pixels_nonzero by lra.
    f_equal. apply pixel_count_spec_one; lra.
  - intros rcs l H. cbn in H. inversion H; subst. reflexivity.
Qed.

(* ------------------------------------------------------------------ *)
(** ** The ROC evaluator *)

Section Roc.

(** The threshold the decisions are taken against. *)
Variable thr : np_float.

Lemma count_app {A : Type} (f : A -> bool) (l1 l2 : list A) :
  count f (l1 ++ l2) = (count f l1 + count f l2)%nat.
Proof. unfold count. rewrite filter_app, length_app. reflexivity. Qed.

(** [sort_desc_by_score] rearranges the pairs, with the True scores
    first. *)
Lemma sort_desc_by_score_permutation (pairs : list (bool * bool)) :
  Permutation pairs (sort_desc_by_score pairs).
Proof.
  unfold sort_desc_by_score. rewrite <- Permutation_rev.
  induction pairs as [|[l s] pairs IH]; [constructor|].
  cbn [filter snd]. destruct s; cbn [negb].
  - apply Permutation_cons_app. exact IH.
  - cbn [app]. apply perm_skip. exact IH.
Qed.

Lemma sort_desc_by_score_sorted (pairs : list (bool * bool)) :
  map snd (sort_desc_by_score pairs) =
  repeat true (count (fun p => snd p) pairs) ++
  repeat false (count (fun p => negb (snd p)) pairs).
Proof.
  assert (H : forall (b : bool) (f : bool * bool -> bool),
             (forall p, f p = true -> snd p = b) ->
             map snd (filter f pairs) = repeat b (count f pairs)).
  { intros b f Hf. unfold count.
    induction pairs as [|p pairs IH]; [reflexivity|].
    cbn [filter]. destruct (f p) eqn:E; [|exact IH].
    cbn [map length repeat]. rewrite IH, (Hf p E). reflexivity. }
  unfold sort_desc_by_score.
  rewrite rev_app_distr, map_app, !map_rev.
  rewrite (H true (fun p => snd p)) by (intros p E; exact E).
  rewrite (H false (fun p => negb (snd p)))
    by (intros p E; apply negb_true_iff; exact E).
  rewrite !rev_repeat. reflexivity.
Qed.

Lemma count_detected_missed (l : list Q) :
  (count (detected thr) l + count (missed thr) l = length l)%nat.
Proof.
  unfold count, missed.
  induction l as [|x l IH]; simpl; [reflexivity|].
  destruct (detected thr x); simpl; lia.
Qed.

Lemma labels_binary (clutter target : list Q) :
  forallb (fun l => Qeq_bool l 0 || Qeq_bool l 1)
    (np_zeros_like clutter ++ np_ones_like target) = true.
Proof.
  rewrite forallb_app. apply andb_true_intro; split.
  - induction clutter; simpl; auto.
  - induction target; simpl; auto.
Qed.

(** The (label, decision) pairs that reach [_binary_clf_curve]. *)
Lemma labelled_decisions (clutter target : list Q) :
  combine
    (map (fun l => Qeq_bool l 1)
       (np_zeros_like clutter ++ np_ones_like target))
    (map (detected thr) (clutter ++ target)) =
  map (fun s => (false, detected thr s)) clutter ++
  map (fun s => (true, detected thr s)) target.
Proof.
  induction clutter as [|x c IH]; simpl.
  - induction target as [|y t IH]; simpl; [reflexivity|].
    rewrite IH. reflexivity.
  - rewrite IH. reflexivity.
Qed.

Lemma filter_detected (b : bool) (l : list Q) :
  filter (fun p : bool * bool => snd p) (map (fun s => (b, detected thr s)) l) =
  repeat (b, true) (count (detected thr) l).
Proof.
  unfold count.
  induction l as [|x l IH]; simpl; [reflexivity|].
  destruct (detected thr x); simpl; rewrite IH; reflexivity.
Qed.

Lemma filter_missed (b : bool) (l : list Q) :
  filter (fun p : bool * bool => negb (snd p))
    (map (fun s => (b, detected thr s)) l) =
  repeat (b, false) (count (missed thr) l).
Proof.
  unfold count, missed.
  induction l as [|x l IH]; simpl; [reflexivity|].
  destruct (detected thr x); simpl; rewrite IH; reflexivity.
Qed.

(** After the descending sort the detected targets come first, then the
    detected clutter, the missed targets and the missed clutter. *)
Lemma sort_desc_labelled (clutter target : list Q) :
  sort_desc_by_score
    (map (fun s => (false, detected thr s)) clutter ++
     map (fun s => (true, detected thr s)) target) =
  grouped_pairs
    (count (detected thr) target) (count (detected thr) clutter)
    (count (missed thr) target) (count (missed thr) clutter).
Proof.
  unfold sort_desc_by_score, grouped_pairs.
  rewrite !filter_app, !filter_detected, !filter_missed.
  rewrite !rev_app_distr, !rev_repeat, <- !app_assoc.
  reflexivity.
Qed.

Lemma distinct_value_indices_cons (i : nat) (a b : bool) (r : list bool) :
  distinct_value_indices_from i (a :: b :: r) =
  if xorb a b then i :: distinct_value_indices_from (S i) (b :: r)
  else distinct_value_indices_from (S i) (b :: r).
Proof. reflexivity. Qed.

Lemma distinct_value_indices_const (x : bool) (n i : nat) :
  distinct_value_indices_from i (repeat x n) = [].
Proof.
  revert i; induction n as [|n IH]; intros i; [reflexivity|].
  destruct n as [|n]; [reflexivity|].
  change (repeat x (S (S n))) with (x :: x :: repeat x n).
  rewrite distinct_value_indices_cons, xorb_nilpotent.
  apply (IH (S i)).
Qed.

(** Sorted scores change value at one position: the last True. *)
Lemma distinct_value_indices_step (a b i : nat) :
  (0 < a)%nat -> (0 < b)%nat ->
  distinct_value_indices_from i (repeat true a ++ repeat false b) =
  [(i + a - 1)%nat].
Proof.
  intros Ha Hb. revert i; induction a as [|a IH]; intros i; [lia|].
  destruct a as [|a].
  - destruct b as [|b]; [lia|].
    change (repeat true 1 ++ repeat false (S b))
      with (true :: false :: repeat false b).
    rewrite distinct_value_indices_cons. cbn [xorb].
    change (false :: repeat false b) with (repeat false (S b)).
    rewrite distinct_value_indices_const.
    f_equal. lia.
  - change (repeat true (S (S a)) ++ repeat false b)
      with (true :: true :: (repeat true a ++ repeat false b)).
    rewrite distinct_value_indices_cons. cbn [xorb].
    change (true :: repeat true a ++ repeat false b)
      with (repeat true (S a) ++ repeat false b).
    rewrite (IH ltac:(lia) (S i)). f_equal. lia.
Qed.

Lemma length_cumsum_from (acc : Z) (l : list Z) :
  length (cumsum_from acc l) = length l.
Proof.
  revert acc; induction l as [|x l IH]; intros acc; simpl; auto.
Qed.

Lemma Zsum_app (l1 l2 : list Z) : Zsum (l1 ++ l2) = (Zsum l1 + Zsum l2)%Z.
Proof.
  unfold Zsum. induction l1 as [|x l IH]; simpl; [reflexivity|].
  rewrite IH. lia.
Qed.

Lemma Zsum_repeat (x : Z) (n : nat) : Zsum (repeat x n) = (Z.of_nat n * x)%Z.
Proof.
  unfold Zsum. induction n as [|n IH]; [reflexivity|].
  cbn [repeat fold_right]. rewrite IH. lia.
Qed.

Lemma cumsum_from_app (acc : Z) (l1 l2 : list Z) :
  cumsum_from acc (l1 ++ l2) =
  cumsum_from acc l1 ++ cumsum_from (acc + Zsum l1)%Z l2.
Proof.
  revert acc; induction l1 as [|x l IH]; intros acc; simpl.
  - f_equal. unfold Zsum. simpl. lia.
  - rewrite IH. do 3 f_equal. unfold Zsum. simpl. lia.
Qed.

(** The last entry of a cumulative sum is the total. *)
Lemma nth_last_cumsum_from (acc : Z) (l : list Z) :
  l <> [] ->
  nth (length l - 1) (cumsum_from acc l) 0%Z = (acc + Zsum l)%Z.
Proof.
  revert acc; induction l as [|x l IH]; intros acc Hne; [congruence|].
  destruct l as [|y l].
  - unfold Zsum. simpl. lia.
  - replace (length (x :: y :: l) - 1)%nat with (S (length (y :: l) - 1))
      by (simpl; lia).
    change (cumsum_from acc (x :: y :: l))
      with ((acc + x)%Z :: cumsum_from (acc + x) (y :: l)).
    cbn [nth].
    rewrite IH by discriminate. unfold Zsum. simpl. lia.
Qed.

Lemma nth_cumsum_prefix (acc : Z) (l1 l2 : list Z) :
  l1 <> [] ->
  nth (length l1 - 1) (cumsum_from acc (l1 ++ l2)) 0%Z = (acc + Zsum l1)%Z.
Proof.
  intros Hne. rewrite cumsum_from_app, app_nth1.
  - apply nth_last_cumsum_from. assumption.
  - rewrite length_cumsum_from. destruct l1; [congruence|simpl; lia].
Qed.

Lemma map_snd_grouped_pairs (tp fp fn tn : nat) :
  map snd (grouped_pairs tp fp fn tn) =
  repeat true (tp + fp) ++ repeat false (fn + tn).
Proof.
  unfold grouped_pairs. rewrite !map_app, !map_repeat, !repeat_app.
  cbn [snd]. rewrite <- !app_assoc. reflexivity.
Qed.

Lemma map_fst_grouped_pairs (tp fp fn tn : nat) :
  map bool_to_Z (map fst (grouped_pairs tp fp fn tn)) =
  (repeat 1%Z tp ++ repeat 0%Z fp) ++ (repeat 1%Z fn ++ repeat 0%Z tn).
Proof.
  unfold grouped_pairs. rewrite !map_app, !map_repeat.
  cbn [fst bool_to_Z]. rewrite <- !app_assoc. reflexivity.
Qed.

Lemma length_grouped_pairs (tp fp fn tn : nat) :
  length (grouped_pairs tp fp fn tn) = (tp + fp + fn + tn)%nat.
Proof.
  unfold grouped_pairs. rewrite !length_app, !repeat_length. lia.
Qed.

Lemma total_true_labels (tp fp fn tn : nat) :
  (0 < tp + fp + fn + tn)%nat ->
  nth (tp + fp + fn + tn - 1)
    (np_cumsum (map bool_to_Z (map fst (grouped_pairs tp fp fn tn)))) 0%Z =
  Z.of_nat (tp + fn).
Proof.
  intros Hn. rewrite map_fst_grouped_pairs.
  set (l := (repeat 1%Z tp ++ repeat 0%Z fp) ++
            (repeat 1%Z fn ++ repeat 0%Z tn)).
  assert (Hlen : length l = (tp + fp + fn + tn)%nat)
    by (unfold l; rewrite !length_app, !repeat_length; lia).
  rewrite <- Hlen. unfold np_cumsum.
  rewrite nth_last_cumsum_from
    by (intros E; rewrite E in Hlen; simpl in Hlen; lia).
  unfold l. rewrite !Zsum_app, !Zsum_repeat. lia.
Qed.

Lemma detected_true_labels (tp fp fn tn : nat) :
  (0 < tp + fp)%nat ->
  nth (0 + (tp + fp) - 1)
    (np_cumsum (map bool_to_Z (map fst (grouped_pairs tp fp fn tn)))) 0%Z =
  Z.of_nat tp.
Proof.
  intros Hn. rewrite map_fst_grouped_pairs.
  set (l1 := repeat 1%Z tp ++ repeat 0%Z fp).
  assert (Hlen : length l1 = (tp + fp)%nat)
    by (unfold l1; rewrite !length_app, !repeat_length; lia).
  replace (0 + (tp + fp) - 1)%nat with (length l1 - 1)%nat by lia.
  unfold np_cumsum.
  rewrite nth_cumsum_prefix
    by (intros E; rewrite E in Hlen; simpl in Hlen; lia).
  unfold l1. rewrite !Zsum_app, !Zsum_repeat. lia.
Qed.

(** Some samples detected and some missed: the counts at the last detected
    sample and at the end. *)
Lemma cumulative_counts_mixed (tp fp fn tn : nat) :
  (0 < tp + fp)%nat -> (0 < fn + tn)%nat ->
  cumulative_counts (grouped_pairs tp fp fn tn) =
  ([Z.of_nat fp; Z.of_nat (fp + tn)], [Z.of_nat tp; Z.of_nat (tp + fn)]).
Proof.
  intros HT HF. unfold cumulative_counts.
  rewrite map_snd_grouped_pairs, distinct_value_indices_step by assumption.
  rewrite length_map, length_grouped_pairs.
  cbn [app map map2].
  rewrite detected_true_labels by assumption.
  rewrite total_true_labels by lia.
  f_equal. f_equal; [lia | f_equal; lia].
Qed.

(** All samples detected, or all missed: the counts at the end only. *)
Lemma cumulative_counts_uniform (tp fp fn tn : nat) :
  (tp + fp = 0)%nat \/ (fn + tn = 0)%nat ->
  (0 < tp + fp + fn + tn)%nat ->
  cumulative_counts (grouped_pairs tp fp fn tn) =
  ([Z.of_nat (fp + tn)], [Z.of_nat (tp + fn)]).
Proof.
  intros H Hn. unfold cumulative_counts.
  assert (Hd : distinct_value_indices_from 0
                 (map snd (grouped_pairs tp fp fn tn)) = []).
  { rewrite map_snd_grouped_pairs.
    destruct H as [H|H]; rewrite H; cbn [repeat app];
      [|rewrite app_nil_r]; apply distinct_value_indices_const. }
  rewrite Hd, length_map, length_grouped_pairs.
  cbn [app map map2].
  rewrite total_true_labels by assumption.
  f_equal. f_equal. lia.
Qed.

Lemma binary_clf_curve_labelled (clutter target : list Q) :
  clutter ++ target <> [] ->
  binary_clf_curve
    (map (fun l => Qeq_bool l 1)
       (np_zeros_like clutter ++ np_ones_like target))
    (map (detected thr) (clutter ++ target)) =
  Ok (cumulative_counts
        (grouped_pairs
           (count (detected thr) target) (count (detected thr) clutter)
           (count (missed thr) target) (count (missed thr) clutter))).
Proof.
  intros Hne. unfold binary_clf_curve.
  assert (Hlen : length (map (fun l => Qeq_bool l 1)
                           (np_zeros_like clutter ++ np_ones_like target)) =
                 length (clutter ++ target)).
  { unfold np_zeros_like, np_ones_like.
    rewrite length_map, !length_app, !length_map. reflexivity. }
  rewrite Hlen, length_map, Nat.eqb_refl. cbn [negb].
  destruct (clutter ++ target) eqn:E; [congruence|].
  cbn [length Nat.eqb]. rewrite <- E.
  rewrite labelled_decisions, sort_desc_labelled. reflexivity.
Qed.

Lemma roc_curve_mixed (clutter target : list Q) :
  (0 < count (detected thr) target + count (detected thr) clutter)%nat ->
  (0 < count (missed thr) target + count (missed thr) clutter)%nat ->
  roc_curve (np_zeros_like clutter ++ np_ones_like target)
    (map (detected thr) (clutter ++ target)) =
  Ok (rate [0%Z; Z.of_nat (count (detected thr) clutter);
            Z.of_nat (length clutter)],
      rate [0%Z; Z.of_nat (count (detected thr) target);
            Z.of_nat (length target)]).
Proof.
  intros HT HF. unfold roc_curve.
  rewrite labels_binary. cbn [negb].
  rewrite binary_clf_curve_labelled.
  - rewrite cumulative_counts_mixed by assumption.
    cbn [bind_result length Nat.ltb Nat.leb].
    rewrite !count_detected_missed. reflexivity.
  - intros E. apply (f_equal (count (detected thr))) in E.
    rewrite count_app in E. cbn in E. lia.
Qed.

Lemma roc_curve_uniform (clutter target : list Q) :
  clutter ++ target <> [] ->
  (count (detected thr) target + count (detected thr) clutter = 0)%nat \/
  (count (missed thr) target + count (missed thr) clutter = 0)%nat ->
  roc_curve (np_zeros_like clutter ++ np_ones_like target)
    (map (detected thr) (clutter ++ target)) =
  Ok (rate [0%Z; Z.of_nat (length clutter)],
      rate [0%Z; Z.of_nat (length target)]).
Proof.
  intros Hne H. unfold roc_curve.
  rewrite labels_binary. cbn [negb].
  rewrite binary_clf_curve_labelled by assumption.
  rewrite cumulative_counts_uniform.
  - cbn [bind_result length Nat.ltb Nat.leb].
    rewrite !count_detected_missed. reflexivity.
  - assumption.
  - pose proof (count_detected_missed clutter).
    pose proof (count_detected_missed target).
    assert (0 < length (clutter ++ target))%nat
      by (destruct (clutter ++ target); [congruence | simpl; lia]).
    rewrite length_app in *. lia.
Qed.


Lemma np_div_finite (x y : Q) :
  ~ y == 0 -> np_div (Finite x) (Finite y) = Finite (x / y).
Proof.
  intros H. cbn [np_div]. rewrite Qeq_bool_false by assumption. reflexivity.
Qed.

Lemma inject_Z_pos (z : Z) : (0 < z)%Z -> 0 < inject_Z z.
Proof. intros H. change 0 with (inject_Z 0). rewrite <- Zlt_Qlt. exact H. Qed.

Lemma length_rate (counts : list Z) : length (rate counts) = length counts.
Proof.
  unfold rate. destruct (last counts 0 <=? 0)%Z; apply length_map.
Qed.

Lemma rate_pos (counts : list Z) :
  (0 < last counts 0)%Z ->
  rate counts =
  map (fun c => Finite (inject_Z c / inject_Z (last counts 0%Z))) counts.
Proof.
  intros H. unfold rate.
  destruct (last counts 0 <=? 0)%Z eqn:E; [apply Z.leb_le in E; lia|].
  apply map_ext. intros c. apply np_div_finite.
  pose proof (inject_Z_pos _ H). lra.
Qed.

Lemma rate_nonpos (counts : list Z) :
  (last counts 0 <= 0)%Z -> rate counts = map (fun _ => NaN) counts.
Proof.
  intros H. unfold rate.
  destruct (last counts 0 <=? 0)%Z eqn:E; [reflexivity|].
  apply Z.leb_gt in E. lia.
Qed.

(** Consecutive rates of non-decreasing counts do not decrease. *)
Lemma rate_step_nonneg (a a' b : Z) :
  (a <= a')%Z -> (0 < b)%Z ->
  Qlt_bool (inject_Z a' / inject_Z b + - (inject_Z a / inject_Z b)) 0 = false.
Proof.
  intros Ha Hb. apply Qlt_bool_false_iff.
  pose proof (inject_Z_pos b Hb) as Hb'.
  assert (Hq : inject_Z a <= inject_Z a') by (rewrite <- Zle_Qle; exact Ha).
  assert (E : inject_Z a' / inject_Z b + - (inject_Z a / inject_Z b) ==
              (inject_Z a' - inject_Z a) / inject_Z b) by (field; lra).
  rewrite E. apply Qle_shift_div_l; [assumption | lra].
Qed.

(** On the rates of a ROC curve [auc] takes the increasing branch: the area
    is the trapezoidal integral itself. *)
Lemma auc_rate3 (a b p q : Z) :
  (0 <= a <= b)%Z ->
  auc (rate [0%Z; a; b]) (rate [0%Z; p; q]) =
  Ok (np_trapz (rate [0%Z; p; q]) (rate [0%Z; a; b])).
Proof.
  intros H. unfold auc. rewrite !length_rate.
  cbn [length Nat.eqb negb Nat.ltb Nat.leb].
  assert (E : existsb (fun d => np_lt d (Finite 0))
                (np_diff (rate [0%Z; a; b])) = false).
  { destruct (Z.le_gt_cases b 0) as [Hb|Hb].
    - rewrite rate_nonpos by exact Hb. reflexivity.
    - rewrite rate_pos by exact Hb.
      cbn [map last np_diff np_sub np_neg np_add existsb np_lt].
      rewrite !rate_step_nonneg by lia. reflexivity. }
  rewrite E. reflexivity.
Qed.

Lemma auc_rate2 (b q : Z) :
  (0 <= b)%Z ->
  auc (rate [0%Z; b]) (rate [0%Z; q]) =
  Ok (np_trapz (rate [0%Z; q]) (rate [0%Z; b])).
Proof.
  intros H. unfold auc. rewrite !length_rate.
  cbn [length Nat.eqb negb Nat.ltb Nat.leb].
  assert (E : existsb (fun d => np_lt d (Finite 0))
                (np_diff (rate [0%Z; b])) = false).
  { destruct (Z.le_gt_cases b 0) as [Hb|Hb].
    - rewrite rate_nonpos by exact Hb. reflexivity.
    - rewrite rate_pos by exact Hb.
      cbn [map last np_diff np_sub np_neg np_add existsb np_lt].
      rewrite !rate_step_nonneg by lia. reflexivity. }
  rewrite E. reflexivity.
Qed.

(** The area under the three-point curve (0,0), (a/b, p/q), (1,1). *)
Lemma trapz_rate3 (a b p q : Z) :
  (0 < b)%Z -> (0 < q)%Z ->
  exists v,
    np_trapz (rate [0%Z; p; q]) (rate [0%Z; a; b]) = Finite v /\
    v == (1 + inject_Z p / inject_Z q - inject_Z a / inject_Z b) / 2.
Proof.
  intros Hb Hq. rewrite !rate_pos by assumption.
  cbn [map last np_trapz trapz_terms np_sum np_sub np_neg np_add np_mul].
  rewrite !np_div_finite by discriminate.
  cbn [np_add].
  eexists; split; [reflexivity|].
  pose proof (inject_Z_pos b Hb). pose proof (inject_Z_pos q Hq).
  change (inject_Z 0) with 0. field. split; lra.
Qed.

(** The area under the two-point curve (0,0), (1,1). *)
Lemma trapz_rate2 (b q : Z) :
  (0 < b)%Z -> (0 < q)%Z ->
  exists v,
    np_trapz (rate [0%Z; q]) (rate [0%Z; b]) = Finite v /\ v == 1 # 2.
Proof.
  intros Hb Hq. rewrite !rate_pos by assumption.
  cbn [map last np_trapz trapz_terms np_sum np_sub np_neg np_add np_mul].
  rewrite !np_div_finite by discriminate.
  cbn [np_add].
  eexists; split; [reflexivity|].
  pose proof (inject_Z_pos b Hb). pose proof (inject_Z_pos q Hq).
  change (inject_Z 0) with 0. field. split; lra.
Qed.


Lemma count_le_length (l : list Q) :
  (count (detected thr) l <= length l)%nat.
Proof. pose proof (count_detected_missed l). lia. Qed.

(** On at least one sample the evaluator returns: the curve is the one
    [roc_curve] computes from the labels and the decisions, and the area is
    its trapezoidal integral. *)
Lemma compute_roc_curve_total (clutter target : list Q) :
  clutter ++ target <> [] ->
  exists fpr tpr,
    roc_curve (np_zeros_like clutter ++ np_ones_like target)
      (map (detected thr) (clutter ++ target)) = Ok (fpr, tpr) /\
    compute_roc_curve clutter target thr = Ok (fpr, tpr, np_trapz tpr fpr).
Proof.
  intros Hne. unfold compute_roc_curve.
  pose proof (count_le_length clutter) as Hc.
  destruct (Nat.eq_dec
              (count (detected thr) target + count (detected thr) clutter) 0)
    as [HT|HT];
    [|destruct (Nat.eq_dec
                  (count (missed thr) target + count (missed thr) clutter) 0)
        as [HF|HF]].
  - rewrite roc_curve_uniform by auto.
    eexists; eexists; split; [reflexivity|].
    cbn [bind_result]. rewrite auc_rate2 by lia. reflexivity.
  - rewrite roc_curve_uniform by auto.
    eexists; eexists; split; [reflexivity|].
    cbn [bind_result]. rewrite auc_rate2 by lia. reflexivity.
  - rewrite roc_curve_mixed by lia.
    eexists; eexists; split; [reflexivity|].
    cbn [bind_result]. rewrite auc_rate3 by lia. reflexivity.
Qed.

(** With clutter and target samples both present, the area is
    (1 + TPR - FPR) / 2 for the rates of the single operating point. *)
Lemma compute_roc_curve_auc (clutter target : list Q) :
  clutter <> [] -> target <> [] ->
  exists fpr tpr a,
    compute_roc_curve clutter target thr = Ok (fpr, tpr, Finite a) /\
    a == (1
          + inject_Z (Z.of_nat (count (detected thr) target))
            / inject_Z (Z.of_nat (length target))
          - inject_Z (Z.of_nat (count (detected thr) clutter))
            / inject_Z (Z.of_nat (length clutter))) / 2.
Proof.
  intros Hc Ht. unfold compute_roc_curve.
  pose proof (count_le_length clutter) as Hcl.
  pose proof (count_detected_missed clutter) as Hc2.
  pose proof (count_detected_missed target) as Ht2.
  assert (Hn0 : (0 < Z.of_nat (length clutter))%Z)
    by (destruct clutter; [congruence | simpl length; lia]).
  assert (Hn1 : (0 < Z.of_nat (length target))%Z)
    by (destruct target; [congruence | simpl length; lia]).
  assert (Hne : clutter ++ target <> [])
    by (destruct clutter; [congruence | discriminate]).
  pose proof (inject_Z_pos _ Hn0) as Hq0.
  pose proof (inject_Z_pos _ Hn1) as Hq1.
  destruct (Nat.eq_dec
              (count (detected thr) target + count (detected thr) clutter) 0)
    as [HT|HT];
    [|destruct (Nat.eq_dec
                  (count (missed thr) target + count (missed thr) clutter) 0)
        as [HF|HF]].
  - rewrite roc_curve_uniform by auto.
    cbn [bind_result]. rewrite auc_rate2 by lia.
    destruct (trapz_rate2 _ _ Hn0 Hn1) as (v & Ev & Hv).
    rewrite Ev. eexists; eexists; eexists; split; [reflexivity|].
    rewrite Hv.
    replace (count (detected thr) target) with 0%nat by lia.
    replace (count (detected thr) clutter) with 0%nat by lia.
    change (inject_Z (Z.of_nat 0)) with 0. field. split; lra.
  - rewrite roc_curve_uniform by auto.
    cbn [bind_result]. rewrite auc_rate2 by lia.
    destruct (trapz_rate2 _ _ Hn0 Hn1) as (v & Ev & Hv).
    rewrite Ev. eexists; eexists; eexists; split; [reflexivity|].
    rewrite Hv.
    replace (count (detected thr) target) with (length target) by lia.
    replace (count (detected thr) clutter) with (length clutter) by lia.
    field. split; lra.
  - rewrite roc_curve_mixed by lia.
    cbn [bind_result]. rewrite auc_rate3 by lia.
    destruct (trapz_rate3 (Z.of_nat (count (detected thr) clutter)) _
                (Z.of_nat (count (detected thr) target)) _ Hn0 Hn1)
      as (v & Ev & Hv).
    rewrite Ev. eexists; eexists; eexists; split; [reflexivity|].
    exact Hv.
Qed.


End Roc.

Lemma count_detected_none (t : Q) (l : list Q) :
  Forall (fun x => x < t) l -> count (detected (Finite t)) l = 0%nat.
Proof.
  unfold count. intros H; induction H as [|x l Hx Hl IH]; [reflexivity|].
  cbn [filter]. unfold detected at 1. cbn [np_ge np_le].
  destruct (Qle_bool t x) eqn:E; [|exact IH].
  apply Qle_bool_iff in E. lra.
Qed.

Lemma count_detected_all (t : Q) (l : list Q) :
  Forall (fun x => t <= x) l -> count (detected (Finite t)) l = length l.
Proof.
  unfold count. intros H; induction H as [|x l Hx Hl IH]; [reflexivity|].
  cbn [filter]. unfold detected at 1. cbn [np_ge np_le].
  rewrite (proj2 (Qle_bool_iff t x) Hx). cbn [length]. rewrite IH.
  reflexivity.
Qed.

(** C6. The decision on a sample is [sample >= threshold]; the curve is
    [roc_curve] of the labels 0 (clutter) and 1 (target) and of these
    decisions, and the area is its trapezoidal integral.  With identical
    non-empty clutter and target arrays the area is 1/2, for every
    threshold.  With non-empty arrays, every target sample at or above the
    threshold and every clutter sample below it, the area is 1. *)
Theorem compute_roc_curve_spec :
  (forall (clutter target : list Q) (thr : np_float),
      clutter ++ target <> [] ->
      exists fpr tpr,
        roc_curve (map (fun _ => 0) clutter ++ map (fun _ => 1) target)
          (map (fun s => np_ge (Finite s) thr) (clutter ++ target)) =
          Ok (fpr, tpr) /\
        compute_roc_curve clutter target thr =
          Ok (fpr, tpr, np_trapz tpr fpr))
  /\
  (forall (data : list Q) (thr : np_float),
      data <> [] ->
      exists fpr tpr a,
        compute_roc_curve data data thr = Ok (fpr, tpr, Finite a) /\
        a == 1 # 2)
  /\
  (forall (clutter target : list Q) (t : Q),
      clutter <> [] -> target <> [] ->
      Forall (fun x => x < t) clutter ->
      Forall (fun x => t <= x) target ->
      exists fpr tpr a,
        compute_roc_curve clutter target (Finite t) =
          Ok (fpr, tpr, Finite a) /\
        a == 1).
Proof.
  split; [|split].
  - intros clutter target thr Hne.
    exact (compute_roc_curve_total thr clutter target Hne).
  - intros data thr Hne.
    destruct (compute_roc_curve_auc thr data data Hne Hne)
      as (fpr & tpr & a & E & Ha).
    exists fpr, tpr, a. split; [exact E|].
    rewrite Ha.
    assert (0 < inject_Z (Z.of_nat (length data))).
    { apply inject_Z_pos. destruct data; [congruence | simpl length; lia]. }
    field. lra.
  - intros clutter target t Hc Ht Hlow Hhigh.
    destruct (compute_roc_curve_auc (Finite t) clutter target Hc Ht)
      as (fpr & tpr & a & E & Ha).
    exists fpr, tpr, a. split; [exact E|].
    rewrite Ha.
    rewrite (count_detected_none t clutter Hlow).
    rewrite (count_detected_all t target Hhigh).
    assert (0 < inject_Z (Z.of_nat (length clutter))).
    { apply inject_Z_pos. destruct clutter; [congruence | simpl length; lia]. }
    assert (0 < inject_Z (Z.of_nat (length target))).
    { apply inject_Z_pos. destruct target; [congruence | simpl length; lia]. }
    change (inject_Z (Z.of_nat 0)) with 0. field. split; lra.
Qed.

(* ------------------------------------------------------------------ *)
(** ** The concrete random stream meets the assumptions *)

Lemma lcg_unit_draw_nonneg (s : Z) : 0 <= Lcg.unit_draw s.
Proof.
  unfold Lcg.unit_draw. apply Qle_shift_div_l; [reflexivity|].
  assert (H : (0 <= s mod 1000)%Z) by (apply Z.mod_pos_bound; lia).
  rewrite Zle_Qle in H. change (inject_Z 0) with 0 in H. lra.
Qed.

Lemma lcg_draws_spec (n : nat) (s : Z) :
  length (fst (Lcg.draws n s)) = n /\
  Forall (fun u => 0 <= u) (fst (Lcg.draws n s)).
Proof.
  revert s; induction n as [|n IH]; intros s; simpl.
  - split; constructor.
  - destruct (Lcg.draws n (Lcg.next s)) as [l s'] eqn:E.
    specialize (IH (Lcg.next s)). rewrite E in IH. simpl in *.
    destruct IH as [IHl IHp]. split; [congruence|].
    constructor; [apply lcg_unit_draw_nonneg | exact IHp].
Qed.

Lemma lcg_sample_spec (f : Q -> Q) (P : Q -> Prop) (n : Z) (st : Z) :
  (forall u, 0 <= u -> P (f u)) -> (0 <= n)%Z ->
  exists l st',
    Lcg.sample f n st = Ok (l, st') /\
    length l = Z.to_nat n /\ Forall P l.
Proof.
  intros Hf Hn. unfold Lcg.sample.
  destruct (n <? 0)%Z eqn:E; [apply Z.ltb_lt in E; lia|].
  destruct (lcg_draws_spec (Z.to_nat n) st) as [Hl Hp].
  destruct (Lcg.draws (Z.to_nat n) st) as [l st']. simpl in *.
  exists (map f l), st'. split; [reflexivity|].
  split; [rewrite length_map; exact Hl|].
  apply Forall_map. revert Hp. apply Forall_impl. exact Hf.
Qed.

Lemma lcg_gamma_rvs_spec (a scale : Q) (n : Z) (st : Z) :
  0 < a -> 0 < scale -> (0 <= n)%Z ->
  exists l st',
    Lcg.gamma_rvs a scale n st = Ok (l, st') /\
    length l = Z.to_nat n /\ Forall (fun x => 0 <= x) l.
Proof.
  intros Ha Hs Hn. apply lcg_sample_spec; [|exact Hn].
  intros u Hu. apply Qmult_le_0_compat; [lra|].
  apply Qmult_le_0_compat; lra.
Qed.

Lemma lcg_rayleigh_rvs_spec (loc scale : Q) (n : Z) (st : Z) :
  0 < scale -> (0 <= n)%Z ->
  exists l st',
    Lcg.rayleigh_rvs loc scale n st = Ok (l, st') /\
    length l = Z.to_nat n /\ Forall (fun x => loc <= x) l.
Proof.
  intros Hs Hn. apply lcg_sample_spec; [|exact Hn].
  intros u Hu.
  assert (0 <= scale * u) by (apply Qmult_le_0_compat; lra).
  lra.
Qed.

Lemma lcg_quantile_mono (p q : Q) :
  0 < p -> p <= q -> q < 1 -> Lcg.quantile p <= Lcg.quantile q.
Proof. intros _ H _. unfold Lcg.quantile. lra. Qed.


Lemma lcg_mean_pos : 0 < Lcg.mean.
Proof. reflexivity. Qed.

(* ------------------------------------------------------------------ *)
(** ** The theorems at concrete inputs *)





(** C3 at NESZ = -25 dB, from the seed 0. *)
Lemma generate_clutter_data_spec_witness :
  exists d st',
    generate_clutter_data Z Lcg.float_pow Lcg.gamma_rvs (-25) 0%Z =
      Ok (d, st') /\
    dict_keys d =
      [sea_state_1; sea_state_2; sea_state_3; sea_state_4; sea_state_5] /\
    NoDup (dict_keys d) /\
    length d = 5%nat /\
    forall k v, In (k, v) d ->
      length v = 1000%nat /\
      Forall (fun x => Lcg.float_pow 10 (-25 / 10) <= x) v.
Proof.
  exact (generate_clutter_data_spec Z Lcg.float_pow Lcg.gamma_rvs
           lcg_gamma_rvs_spec (-25) 0%Z).
Defined.

(** C4: a fishing vessel against a coaster, and a 7 m target. *)
Lemma estimate_pixels_spec_witness :
  (0 < 10 /\ 9.144 <= 42.672 /\
   exists n1 n2,
     estimate_pixels 9.144 10 = Ok n1 /\
     estimate_pixels 42.672 10 = Ok n2 /\
     (n1 <= n2)%Z)
  /\
  (7 <= 10 /\ estimate_pixels 7 10 = Ok 1%Z).
Proof.
  split.
  - split; [reflexivity|]. split; [discriminate|].
    apply (proj1 (proj2 estimate_pixels_spec) 9.144 42.672 10);
      [reflexivity | discriminate].
  - split; [discriminate|].
    apply (proj1 (proj2 (proj2 estimate_pixels_spec)) 7 10);
      [reflexivity | discriminate].
Defined.

(** C5 for the frigate: RCS 40 dBsm, SNR 10 dB, 1000 samples on 11 pixels,
    NESZ -25 dB. *)
Lemma generate_target_data_spec_witness :
  (0 <= 1000)%Z /\ (1 <= 11)%Z /\
  exists target_signal st1 g st2 out,
    Lcg.rayleigh_rvs
      (40 * Lcg.float_pow 10 (10 / 10) + Lcg.float_pow 10 (-25 / 10)) 1.5
      (1000 * 11) 0%Z = Ok (target_signal, st1) /\
    Lcg.gamma_rvs 2 2 (1000 * 11) st1 = Ok (g, st2) /\
    generate_target_data Z Lcg.float_pow Lcg.gamma_rvs Lcg.rayleigh_rvs
      (Some 40) 10 1000 11 (-25) 0%Z = Ok (out, st2) /\
    length out = (Z.to_nat 1000 * Z.to_nat 11)%nat /\
    forall i, (i < length out)%nat ->
      nth i out 0 =
      nth i target_signal 0 + (nth i g 0 + Lcg.float_pow 10 (-25 / 10)).
Proof.
  split; [discriminate|]. split; [discriminate|].
  apply (generate_target_data_spec Z Lcg.float_pow Lcg.gamma_rvs
           Lcg.rayleigh_rvs lcg_gamma_rvs_spec lcg_rayleigh_rvs_spec
           40 10 1000%Z 11%Z (-25) 0%Z); discriminate.
Defined.

(** C6: clutter below and targets above the threshold 3. *)
Lemma compute_roc_curve_spec_witness :
  [1; 2] <> [] /\ [5; 6] <> [] /\
  Forall (fun x => x < 3) [1; 2] /\ Forall (fun x => 3 <= x) [5; 6] /\
  exists fpr tpr a,
    compute_roc_curve [1; 2] [5; 6] (Finite 3) = Ok (fpr, tpr, Finite a) /\
    a == 1.
Proof.
  assert (H1 : [1; 2] <> [] :> list Q) by discriminate.
  assert (H2 : [5; 6] <> [] :> list Q) by discriminate.
  assert (H3 : Forall (fun x => x < 3) [1; 2])
    by (repeat constructor).
  assert (H4 : Forall (fun x => 3 <= x) [5; 6])
    by (repeat constructor; discriminate).
  repeat (split; [assumption|]).
  exact (proj2 (proj2 compute_roc_curve_spec) [1; 2] [5; 6] 3 H1 H2 H3 H4).
Defined.

(** C7 for the frigate's arguments with the RCS absent: the generator
    raises [TypeError]; the caller's branch for the target "None" draws
    nothing; and the frigate's catalogue entry carries an RCS. *)
Lemma generate_target_data_absent_rcs_witness :
  (generate_target_data Z Lcg.float_pow Lcg.gamma_rvs Lcg.rayleigh_rvs
     None 10 1000 11 (-25) 0%Z = Raise TypeError /\
   generate_target_data Z Lcg.float_pow Lcg.gamma_rvs Lcg.rayleigh_rvs
     None 10 1000 11 (-25) 0%Z <> Raise MissingTarget) /\
  plot_target_data Z Lcg.float_pow Lcg.gamma_rvs Lcg.rayleigh_rvs
    "None" 10 (-25) 0%Z = Ok (None, 0%Z) /\
  In ("Warship (Frigate) (RCS=40 dBsm, Length=340 feet)"%string,
      (Some 40, 103.632)) target_info /\
  exists r : Q, Some 40 = Some r.
Proof.
  assert (Hin : In ("Warship (Frigate) (RCS=40 dBsm, Length=340 feet)"%string,
                    (Some 40, 103.632)) target_info)
    by (right; right; right; left; reflexivity).
  pose proof (generate_target_data_absent_rcs Z Lcg.float_pow
                Lcg.gamma_rvs Lcg.rayleigh_rvs) as (Hraise & Hguard & Hcat).
  split; [exact (Hraise 10 1000%Z 11%Z (-25) 0%Z)|].
  split; [exact (Hguard 10 (-25) 0%Z)|].
  split; [exact Hin|].
  apply (Hcat _ _ _ Hin). discriminate.
Defined.

(** C7, as stated, fails for the frigate's arguments with the RCS absent:
    what the call raises is Python's [TypeError], not a [MissingTarget]
    error. *)
Lemma generate_target_data_type_error_counterexample :
  generate_target_data Z Lcg.float_pow Lcg.gamma_rvs Lcg.rayleigh_rvs
    None 10 1000 11 (-25) 0%Z = Raise TypeError /\
  generate_target_data Z Lcg.float_pow Lcg.gamma_rvs Lcg.rayleigh_rvs
    None 10 1000 11 (-25) 0%Z <> Raise MissingTarget.
Proof.
  assert (E : generate_target_data Z Lcg.float_pow Lcg.gamma_rvs
                Lcg.rayleigh_rvs None 10 1000 11 (-25) 0%Z = Raise TypeError)
    by reflexivity.
  split; [exact E|]. rewrite E. discriminate.
Qed.



(** C9 at a negative length. *)
Lemma estimate_pixels_total_witness :
  0 < 10 /\ -5 <= 0 /\ estimate_pixels (-5) 10 = Ok 1%Z.
Proof.
  split; [reflexivity|]. split; [discriminate|].
  apply (proj1 (proj2 estimate_pixels_total) (-5) 10);
    [reflexivity | discriminate].
Defined.

(** C10 for the frigate. *)
Lemma generate_target_data_lower_bound_witness :
  (0 <= 1000 * 11)%Z /\
  exists out st',
    generate_target_data Z Lcg.float_pow Lcg.gamma_rvs Lcg.rayleigh_rvs
      (Some 40) 10 1000 11 (-25) 0%Z = Ok (out, st') /\
    Forall
      (fun x =>
         40 * Lcg.float_pow 10 (10 / 10) + 2 * Lcg.float_pow 10 (-25 / 10)
         <= x)
      out.
Proof.
  split; [discriminate|].
  apply (generate_target_data_lower_bound Z Lcg.float_pow Lcg.gamma_rvs
           Lcg.rayleigh_rvs lcg_gamma_rvs_spec lcg_rayleigh_rvs_spec
           40 10 1000%Z 11%Z (-25) 0%Z).
  discriminate.
Defined.

(* ------------------------------------------------------------------ *)
(** ** Runs of the model *)

(** The frigate of the catalogue covers 11 pixels. *)
Example estimate_pixels_frigate :
  estimate_pixels 103.632 ground_resolution = Ok 11%Z.
Proof. reflexivity. Qed.

(** Two samples on two pixels give four values. *)
Example generate_target_data_run :
  exists out st',
    generate_target_data Z Lcg.float_pow Lcg.gamma_rvs Lcg.rayleigh_rvs
      (Some 8) 0 2 2 (-25) 0%Z = Ok (out, st') /\
    length out = 4%nat.
Proof. vm_compute. eexists; eexists; split; reflexivity. Qed.

(** A negative sample count is refused by the sampler. *)
Example generate_target_data_negative_size :
  generate_target_data Z Lcg.float_pow Lcg.gamma_rvs Lcg.rayleigh_rvs
    (Some 8) 0 2 (-2) (-25) 0%Z = Raise ValueError.
Proof. reflexivity. Qed.

(** Overlapping classes: FPR = 1/4 and TPR = 3/4 give the area 3/4. *)
Example compute_roc_curve_overlap :
  exists fpr tpr a,
    compute_roc_curve [1; 2; 3; 4] [3; 4; 5; 6] (Finite 3.5) =
      Ok (fpr, tpr, Finite a) /\
    a == 3 # 4.
Proof. vm_compute. do 3 eexists; split; reflexivity. Qed.

(** Without clutter samples the false positive rate, and the area, are
    NaN; nothing is raised. *)
Example compute_roc_curve_no_clutter :
  compute_roc_curve [] [1; 2] (Finite 1) =
  Ok ([NaN; NaN], [Finite (0 # 2); Finite (2 # 2)], NaN).
Proof. reflexivity. Qed.

(* ------------------------------------------------------------------ *)
(** ** More on the pixel estimate *)

(** X6. For a positive resolution the pixel count is the least number of
    pixels, at least one, that covers the target: [n] pixels are as long
    as the target, and when [n > 1], [n - 1] pixels are shorter.  A target
    that is exactly [k >= 1] pixels long gets [k] pixels.  A zero
    resolution raises [ZeroDivisionError] for every length. *)
Theorem estimate_pixels_covers :
  (forall target_length resolution : Q,
      0 < resolution ->
      exists n,
        estimate_pixels target_length resolution = Ok n /\
        target_length <= inject_Z n * resolution /\
        ((1 < n)%Z -> inject_Z (n - 1) * resolution < target_length))
  /\
  (forall (k : Z) (resolution : Q),
      0 < resolution -> (1 <= k)%Z ->
      estimate_pixels (inject_Z k * resolution) resolution = Ok k)
  /\
  (forall target_length resolution : Q,
      resolution == 0 ->
      estimate_pixels target_length resolution = Raise ZeroDivisionError).
Proof.
  split; [|split].
  - intros l r Hr.
    exists (pixel_count_spec l r).
    rewrite estimate_pixels_nonzero by lra.
    split; [reflexivity|]. unfold pixel_count_spec.
    pose proof (Qle_ceiling (l / r)) as Hup.
    pose proof (Qceiling_lt (l / r)) as Hlow.
    assert (Hlr : l == l / r * r) by (field; lra).
    split.
    + assert (Hc : inject_Z (Qceiling (l / r))
                   <= inject_Z (Z.max 1 (Qceiling (l / r))))
        by (rewrite <- Zle_Qle; lia).
      assert (Hle : l / r * r
                    <= inject_Z (Z.max 1 (Qceiling (l / r))) * r)
        by (apply Qmult_le_compat_r; lra).
      lra.
    + intros Hn.
      replace (Z.max 1 (Qceiling (l / r))) with (Qceiling (l / r)) by lia.
      assert (Hlt : inject_Z (Qceiling (l / r) - 1) * r < l / r * r)
        by (apply Qmult_lt_compat_r; assumption).
      lra.
  - intros k r Hr Hk.
    rewrite estimate_pixels_nonzero by lra.
    unfold pixel_count_spec. f_equal.
    assert (E : inject_Z k * r / r == inject_Z k) by (field; lra).
    rewrite (Qceiling_comp _ _ E), Qceiling_Z. lia.
  - intros l r Hr. unfold estimate_pixels, py_truediv.
    rewrite (proj2 (Qeq_bool_iff r 0) Hr). reflexivity.
Qed.

(* ------------------------------------------------------------------ *)
(** ** More on the ROC evaluator *)

(** The result when some samples are detected and some are missed. *)
Lemma compute_roc_curve_mixed_result
    (thr : np_float) (clutter target : list Q) :
  (0 < count (detected thr) target + count (detected thr) clutter)%nat ->
  (0 < count (missed thr) target + count (missed thr) clutter)%nat ->
  compute_roc_curve clutter target thr =
  Ok (rate [0%Z; Z.of_nat (count (detected thr) clutter);
            Z.of_nat (length clutter)],
      rate [0%Z; Z.of_nat (count (detected thr) target);
            Z.of_nat (length target)],
      np_trapz
        (rate [0%Z; Z.of_nat (count (detected thr) target);
               Z.of_nat (length target)])
        (rate [0%Z; Z.of_nat (count (detected thr) clutter);
               Z.of_nat (length clutter)])).
Proof.
  intros HT HF. unfold compute_roc_curve.
  rewrite roc_curve_mixed by assumption.
  cbn [bind_result]. pose proof (count_le_length thr clutter).
  rewrite auc_rate3 by lia. reflexivity.
Qed.

(** The result when all samples are detected, or all are missed. *)
Lemma compute_roc_curve_uniform_result
    (thr : np_float) (clutter target : list Q) :
  clutter ++ target <> [] ->
  (count (detected thr) target + count (detected thr) clutter = 0)%nat \/
  (count (missed thr) target + count (missed thr) clutter = 0)%nat ->
  compute_roc_curve clutter target thr =
  Ok (rate [0%Z; Z.of_nat (length clutter)],
      rate [0%Z; Z.of_nat (length target)],
      np_trapz (rate [0%Z; Z.of_nat (length target)])
               (rate [0%Z; Z.of_nat (length clutter)])).
Proof.
  intros Hne H. unfold compute_roc_curve.
  rewrite roc_curve_uniform by assumption.
  cbn [bind_result]. rewrite auc_rate2 by lia. reflexivity.
Qed.

Lemma mixed_or_uniform (thr : np_float) (clutter target : list Q) :
  ((0 < count (detected thr) target + count (detected thr) clutter)%nat /\
   (0 < count (missed thr) target + count (missed thr) clutter)%nat) \/
  ((count (detected thr) target + count (detected thr) clutter = 0)%nat \/
   (count (missed thr) target + count (missed thr) clutter = 0)%nat).
Proof. lia. Qed.

Lemma length_pos_Z {A : Type} (l : list A) :
  l <> [] -> (0 < Z.of_nat (length l))%Z.
Proof. destruct l; [congruence | simpl length; lia]. Qed.

Lemma ratio_unit (a b : Z) :
  (0 <= a <= b)%Z -> (0 < b)%Z ->
  0 <= inject_Z a / inject_Z b /\ inject_Z a / inject_Z b <= 1.
Proof.
  intros Ha Hb. pose proof (inject_Z_pos b Hb) as Hq.
  assert (H0 : 0 <= inject_Z a)
    by (change 0 with (inject_Z 0); rewrite <- Zle_Qle; lia).
  assert (H1 : inject_Z a <= inject_Z b) by (rewrite <- Zle_Qle; lia).
  split.
  - apply Qle_shift_div_l; [exact Hq | lra].
  - apply Qle_shift_div_r; [exact Hq | lra].
Qed.

(** X7. With clutter and target samples both present the ROC curve has two
    or three points, all finite: it starts at (0,0) and ends at (1,1), and
    a third point, when there is one, is the single operating point
    (FPR, TPR) = (detected clutter / clutter, detected targets / targets)
    of the threshold. *)
Theorem compute_roc_curve_points
    (clutter target : list Q) (thr : np_float) :
  clutter <> [] -> target <> [] ->
  exists fpr tpr a,
    compute_roc_curve clutter target thr = Ok (fpr, tpr, a) /\
    ((exists f0 f1 t0 t1,
         fpr = [Finite f0; Finite f1] /\ tpr = [Finite t0; Finite t1] /\
         f0 == 0 /\ t0 == 0 /\ f1 == 1 /\ t1 == 1)
     \/
     (exists f0 f1 f2 t0 t1 t2,
         fpr = [Finite f0; Finite f1; Finite f2] /\
         tpr = [Finite t0; Finite t1; Finite t2] /\
         f0 == 0 /\ t0 == 0 /\ f2 == 1 /\ t2 == 1 /\
         f1 == inject_Z (Z.of_nat (count (detected thr) clutter))
               / inject_Z (Z.of_nat (length clutter)) /\
         t1 == inject_Z (Z.of_nat (count (detected thr) target))
               / inject_Z (Z.of_nat (length target)) /\
         0 <= f1 /\ f1 <= 1 /\ 0 <= t1 /\ t1 <= 1)).
Proof.
  intros Hc Ht.
  pose proof (length_pos_Z clutter Hc) as Hn0.
  pose proof (length_pos_Z target Ht) as Hn1.
  pose proof (inject_Z_pos _ Hn0) as Hq0.
  pose proof (inject_Z_pos _ Hn1) as Hq1.
  assert (Hne : clutter ++ target <> [])
    by (destruct clutter; [congruence | discriminate]).
  destruct (mixed_or_uniform thr clutter target) as [[HT HF]|H].
  - rewrite (compute_roc_curve_mixed_result thr clutter target HT HF).
    do 3 eexists. split; [reflexivity|]. right.
    rewrite !rate_pos by exact Hn0 || exact Hn1.
    cbn [map last].
    do 6 eexists. split; [reflexivity|]. split; [reflexivity|].
    pose proof (count_le_length thr clutter).
    pose proof (count_le_length thr target).
    destruct (ratio_unit (Z.of_nat (count (detected thr) clutter))
                (Z.of_nat (length clutter))) as [? ?]; [lia | lia |].
    destruct (ratio_unit (Z.of_nat (count (detected thr) target))
                (Z.of_nat (length target))) as [? ?]; [lia | lia |].
    change (inject_Z 0) with 0.
    repeat split; try assumption; try reflexivity; field; lra.
  - rewrite (compute_roc_curve_uniform_result thr clutter target Hne H).
    do 3 eexists. split; [reflexivity|]. left.
    rewrite !rate_pos by exact Hn0 || exact Hn1.
    cbn [map last].
    do 4 eexists. split; [reflexivity|]. split; [reflexivity|].
    change (inject_Z 0) with 0.
    repeat split; field; lra.
Qed.

(** The area and the two detection rates it is computed from. *)
Lemma compute_roc_curve_rates
    (clutter target : list Q) (thr : np_float) :
  clutter <> [] -> target <> [] ->
  exists fpr tpr a,
    compute_roc_curve clutter target thr = Ok (fpr, tpr, Finite a) /\
    a * 2 ==
      1
      + inject_Z (Z.of_nat (count (detected thr) target))
        / inject_Z (Z.of_nat (length target))
      - inject_Z (Z.of_nat (count (detected thr) clutter))
        / inject_Z (Z.of_nat (length clutter)) /\
    (0 <= inject_Z (Z.of_nat (count (detected thr) clutter))
          / inject_Z (Z.of_nat (length clutter)) <= 1) /\
    (0 <= inject_Z (Z.of_nat (count (detected thr) target))
          / inject_Z (Z.of_nat (length target)) <= 1).
Proof.
  intros Hc Ht.
  destruct (compute_roc_curve_auc thr clutter target Hc Ht)
    as (fpr & tpr & a & E & Ha).
  exists fpr, tpr, a. split; [exact E|].
  pose proof (count_le_length thr clutter).
  pose proof (count_le_length thr target).
  pose proof (inject_Z_pos _ (length_pos_Z clutter Hc)) as Hq0.
  pose proof (inject_Z_pos _ (length_pos_Z target Ht)) as Hq1.
  split; [rewrite Ha; field; split; lra|].
  split; apply ratio_unit; try lia; apply length_pos_Z; assumption.
Qed.

(** X8. With clutter and target samples both present the area is finite,
    equal to (1 + TPR - FPR) / 2 for the detection rates of the two
    classes, and so between 0 and 1; it is at least 1/2 exactly when the
    targets are detected at least as often as the clutter. *)
Theorem compute_roc_curve_area
    (clutter target : list Q) (thr : np_float) :
  clutter <> [] -> target <> [] ->
  exists fpr tpr a,
    compute_roc_curve clutter target thr = Ok (fpr, tpr, Finite a) /\
    a == (1
          + inject_Z (Z.of_nat (count (detected thr) target))
            / inject_Z (Z.of_nat (length target))
          - inject_Z (Z.of_nat (count (detected thr) clutter))
            / inject_Z (Z.of_nat (length clutter))) / 2 /\
    0 <= a /\ a <= 1 /\
    (1 # 2 <= a <->
     inject_Z (Z.of_nat (count (detected thr) clutter))
       / inject_Z (Z.of_nat (length clutter))
     <= inject_Z (Z.of_nat (count (detected thr) target))
        / inject_Z (Z.of_nat (length target))).
Proof.
  intros Hc Ht.
  destruct (compute_roc_curve_rates clutter target thr Hc Ht)
    as (fpr & tpr & a & E & Ha & [HF0 HF1] & [HT0 HT1]).
  exists fpr, tpr, a. split; [exact E|].
  set (F := inject_Z (Z.of_nat (count (detected thr) clutter))
            / inject_Z (Z.of_nat (length clutter))) in *.
  set (T := inject_Z (Z.of_nat (count (detected thr) target))
            / inject_Z (Z.of_nat (length target))) in *.
  split.
  - assert (E2 : a == a * 2 / 2) by field. rewrite E2, Ha. reflexivity.
  - split; [lra|]. split; [lra|]. split; intros H; lra.
Qed.

(** X9. With samples of one class only the evaluator does not raise: with
    clutter and no target the true positive rates and the area are NaN,
    with targets and no clutter the false positive rates and the area are
    NaN. *)
Theorem compute_roc_curve_one_class (samples : list Q) (thr : np_float) :
  samples <> [] ->
  (exists fpr tpr,
      compute_roc_curve samples [] thr = Ok (fpr, tpr, NaN) /\
      Forall (fun x => x = NaN) tpr)
  /\
  (exists fpr tpr,
      compute_roc_curve [] samples thr = Ok (fpr, tpr, NaN) /\
      Forall (fun x => x = NaN) fpr).
Proof.
  intros Hne.
  pose proof (length_pos_Z samples Hne) as Hn.
  pose proof (count_le_length thr samples) as Hle.
  split.
  - assert (Hne' : samples ++ [] <> [])
      by (rewrite app_nil_r; exact Hne).
    destruct (mixed_or_uniform thr samples []) as [[HT HF]|H].
    + rewrite (compute_roc_curve_mixed_result thr samples [] HT HF).
      cbn [count filter length Z.of_nat].
      rewrite (rate_nonpos [0; 0; 0]%Z) by (cbn; lia).
      rewrite rate_pos by exact Hn.
      do 2 eexists. split; [reflexivity | repeat constructor].
    + rewrite (compute_roc_curve_uniform_result thr samples [] Hne' H).
      cbn [count filter length Z.of_nat].
      rewrite (rate_nonpos [0; 0]%Z) by (cbn; lia).
      rewrite rate_pos by exact Hn.
      do 2 eexists. split; [reflexivity | repeat constructor].
  - assert (Hne' : [] ++ samples <> []) by exact Hne.
    destruct (mixed_or_uniform thr [] samples) as [[HT HF]|H].
    + rewrite (compute_roc_curve_mixed_result thr [] samples HT HF).
      cbn [count filter length Z.of_nat].
      rewrite (rate_nonpos [0; 0; 0]%Z) by (cbn; lia).
      rewrite rate_pos by exact Hn.
      do 2 eexists. split; [reflexivity | repeat constructor].
    + rewrite (compute_roc_curve_uniform_result thr [] samples Hne' H).
      cbn [count filter length Z.of_nat].
      rewrite (rate_nonpos [0; 0]%Z) by (cbn; lia).
      rewrite rate_pos by exact Hn.
      do 2 eexists. split; [reflexivity | repeat constructor].
Qed.

Lemma count_none {A : Type} (f : A -> bool) (l : list A) :
  (forall x, f x = false) -> count f l = 0%nat.
Proof.
  intros H. unfold count. induction l as [|x l IH]; [reflexivity|].
  cbn [filter]. rewrite H. exact IH.
Qed.

Lemma count_all {A : Type} (f : A -> bool) (l : list A) :
  (forall x, f x = true) -> count f l = length l.
Proof.
  intros H. unfold count. induction l as [|x l IH]; [reflexivity|].
  cbn [filter]. rewrite H. cbn [length]. rewrite IH. reflexivity.
Qed.

(** When every sample is detected, or none is, the area is 1/2. *)
Lemma compute_roc_curve_all_or_none
    (clutter target : list Q) (thr : np_float) :
  clutter <> [] -> target <> [] ->
  (count (detected thr) target + count (detected thr) clutter = 0)%nat \/
  (count (missed thr) target + count (missed thr) clutter = 0)%nat ->
  exists fpr tpr a,
    compute_roc_curve clutter target thr = Ok (fpr, tpr, Finite a) /\
    length fpr = 2%nat /\ length tpr = 2%nat /\ a == 1 # 2.
Proof.
  intros Hc Ht Hu.
  pose proof (inject_Z_pos _ (length_pos_Z clutter Hc)) as Hq0.
  pose proof (inject_Z_pos _ (length_pos_Z target Ht)) as Hq1.
  pose proof (count_detected_missed thr clutter) as Hcm.
  pose proof (count_detected_missed thr target) as Htm.
  assert (Hne : clutter ++ target <> [])
    by (destruct clutter; [congruence | discriminate]).
  destruct (compute_roc_curve_auc thr clutter target Hc Ht)
    as (fpr & tpr & a & E & Ha).
  exists fpr, tpr, a. split; [exact E|].
  rewrite (compute_roc_curve_uniform_result thr clutter target Hne Hu) in E.
  inversion E as [[Ef Et Ea]].
  rewrite !length_rate. split; [reflexivity|]. split; [reflexivity|].
  rewrite Ha. destruct Hu as [H|H].
  - replace (count (detected thr) target) with 0%nat by lia.
    replace (count (detected thr) clutter) with 0%nat by lia.
    change (inject_Z (Z.of_nat 0)) with 0. field. split; lra.
  - replace (count (detected thr) target) with (length target) by lia.
    replace (count (detected thr) clutter) with (length clutter) by lia.
    field. split; lra.
Qed.

(** X10. A threshold that is not a finite number separates nothing: NaN and
    +infinity detect no sample, -infinity detects every sample, and with
    clutter and target samples both present the curve is the diagonal from
    (0,0) to (1,1) with area 1/2. *)
Theorem compute_roc_curve_nonfinite_threshold (thr : np_float) :
  thr = NaN \/ thr = PosInf \/ thr = NegInf ->
  ((thr = NaN \/ thr = PosInf) -> forall s, detected thr s = false)
  /\
  (thr = NegInf -> forall s, detected thr s = true)
  /\
  (forall clutter target : list Q,
      clutter <> [] -> target <> [] ->
      exists fpr tpr a,
        compute_roc_curve clutter target thr = Ok (fpr, tpr, Finite a) /\
        length fpr = 2%nat /\ length tpr = 2%nat /\ a == 1 # 2).
Proof.
  intros H.
  assert (H1 : (thr = NaN \/ thr = PosInf) ->
               forall s, detected thr s = false)
    by (intros [-> | ->] s; reflexivity).
  assert (H2 : thr = NegInf -> forall s, detected thr s = true)
    by (intros -> s; reflexivity).
  split; [exact H1|]. split; [exact H2|].
  intros clutter target Hc Ht.
  apply compute_roc_curve_all_or_none; try assumption.
  destruct H as [H|[H|H]].
  - left. rewrite !count_none by (apply H1; left; exact H). reflexivity.
  - left. rewrite !count_none by (apply H1; right; exact H). reflexivity.
  - right. rewrite !count_none; [reflexivity| |];
      intros s; unfold missed; rewrite (H2 H); reflexivity.
Qed.

Lemma detected_le (t1 t2 s : Q) :
  t1 <= t2 -> detected (Finite t2) s = true -> detected (Finite t1) s = true.
Proof.
  intros H12. unfold detected. cbn [np_ge np_le].
  rewrite !Qle_bool_iff. intros H. lra.
Qed.

Lemma count_mono {A : Type} (f g : A -> bool) (l : list A) :
  (forall x, f x = true -> g x = true) -> (count f l <= count g l)%nat.
Proof.
  intros H. unfold count. induction l as [|x l IH]; [apply Nat.le_refl|].
  cbn [filter]. destruct (f x) eqn:E.
  - rewrite (H x E). cbn [length]. lia.
  - destruct (g x); cbn [length]; lia.
Qed.

(** X11. Raising the threshold never adds a detection: a sample detected
    at the higher of two finite thresholds is detected at the lower one,
    so the number of detected samples of any array does not grow. *)
Theorem detected_antitone (t1 t2 : Q) :
  t1 <= t2 ->
  (forall s, detected (Finite t2) s = true -> detected (Finite t1) s = true)
  /\
  (forall l : list Q,
      (count (detected (Finite t2)) l <= count (detected (Finite t1)) l)%nat).
Proof.
  intros H12. split.
  - intros s. apply detected_le. exact H12.
  - intros l. apply count_mono. intros s. apply detected_le. exact H12.
Qed.

Lemma count_permutation {A : Type} (f : A -> bool) (l l' : list A) :
  Permutation l l' -> count f l = count f l'.
Proof.
  unfold count.
  intros H; induction H as [|x l l' H IH|x y l|l l' l'' H1 IH1 H2 IH2].
  - reflexivity.
  - cbn [filter]. destruct (f x); cbn [length]; rewrite IH; reflexivity.
  - cbn [filter]. destruct (f x), (f y); reflexivity.
  - rewrite IH1. exact IH2.
Qed.

(** X12. The ROC result depends on the two arrays only through how many
    samples of each are detected: rearranging the clutter array and the
    target array changes nothing. *)
Theorem compute_roc_curve_permutation
    (clutter clutter' target target' : list Q) (thr : np_float) :
  Permutation clutter clutter' -> Permutation target target' ->
  clutter ++ target <> [] ->
  compute_roc_curve clutter target thr =
  compute_roc_curve clutter' target' thr.
Proof.
  intros Pc Pt Hne.
  assert (Hne' : clutter' ++ target' <> []).
  { intros E. apply Hne.
    apply Permutation_nil, Permutation_sym.
    rewrite <- E. apply Permutation_app; assumption. }
  pose proof (count_permutation (detected thr) _ _ Pc) as Dc.
  pose proof (count_permutation (detected thr) _ _ Pt) as Dt.
  pose proof (count_permutation (missed thr) _ _ Pc) as Mc.
  pose proof (count_permutation (missed thr) _ _ Pt) as Mt.
  pose proof (Permutation_length Pc) as Lc.
  pose proof (Permutation_length Pt) as Lt.
  destruct (mixed_or_uniform thr clutter target) as [[HT HF]|H].
  - rewrite (compute_roc_curve_mixed_result thr clutter target HT HF).
    rewrite (compute_roc_curve_mixed_result thr clutter' target')
      by (rewrite <- ?Dc, <- ?Dt, <- ?Mc, <- ?Mt; assumption).
    rewrite Dc, Dt, Lc, Lt. reflexivity.
  - rewrite (compute_roc_curve_uniform_result thr clutter target Hne H).
    rewrite (compute_roc_curve_uniform_result thr clutter' target' Hne')
      by (rewrite <- Dc, <- Dt, <- Mc, <- Mt; assumption).
    rewrite Lc, Lt. reflexivity.
Qed.

(** The ROC result depends on the samples and on the threshold through the
    decisions only. *)
Lemma compute_roc_curve_decisions
    (f : Q -> Q) (thr thr' : np_float) (clutter target : list Q) :
  (forall s, detected thr' (f s) = detected thr s) ->
  compute_roc_curve (map f clutter) (map f target) thr' =
  compute_roc_curve clutter target thr.
Proof.
  intros Hd. unfold compute_roc_curve.
  assert (Hdet : map (detected thr') (map f clutter ++ map f target) =
                 map (detected thr) (clutter ++ target)).
  { rewrite <- map_app, map_map. apply map_ext. exact Hd. }
  rewrite Hdet. unfold np_zeros_like, np_ones_like.
  rewrite !map_map. reflexivity.
Qed.

(** Scaling the samples and a finite threshold by the same positive factor
    leaves every decision, and so the ROC result, unchanged. *)
Lemma compute_roc_curve_scale
    (c t tc : Q) (clutter target : list Q) :
  0 < c -> tc == c * t ->
  compute_roc_curve (map (Qmult c) clutter) (map (Qmult c) target)
    (Finite tc) =
  compute_roc_curve clutter target (Finite t).
Proof.
  intros Hc Htc. apply compute_roc_curve_decisions.
  intros s. unfold detected. cbn [np_ge np_le].
  destruct (Qle_bool t s) eqn:E.
  - apply Qle_bool_iff. apply Qle_bool_iff in E. rewrite Htc.
    apply Qmult_le_l; assumption.
  - destruct (Qle_bool tc (c * s)) eqn:E'; [|reflexivity].
    apply Qle_bool_iff in E'. rewrite Htc in E'.
    apply Qmult_le_l in E'; [|assumption].
    apply Qle_bool_iff in E'. congruence.
Qed.

(** An infinite or NaN threshold decides without looking at the sample. *)
Lemma compute_roc_curve_scale_inf
    (c r : Q) (clutter target : list Q) :
  compute_roc_curve (map (Qmult c) clutter) (map (Qmult c) target)
    (inf_of_sign r) =
  compute_roc_curve clutter target (inf_of_sign r).
Proof.
  apply compute_roc_curve_decisions.
  intros s. unfold inf_of_sign. destruct (r ?= 0); reflexivity.
Qed.

(* ------------------------------------------------------------------ *)
(** ** The observer of the selections *)

(** X13. [on_selection_change] writes the two [disabled] flags and the ROC
    checkbox and nothing else: the PFA slider is disabled exactly for the
    sea state "All", the ROC checkbox exactly for the sea state "All" or
    the target "None", and the checkbox stays ticked only if it was ticked
    and is left enabled.  Running the observer twice is the same as running
    it once, and the controls as first shown are a state it leaves
    unchanged. *)
Theorem on_selection_change_spec :
  (forall w : widgets,
      let w' := on_selection_change w in
      (sea_state_value w' = sea_state_value w /\
       pfa_value w' = pfa_value w /\
       target_value w' = target_value w /\
       snr_value w' = snr_value w /\
       nesz_value w' = nesz_value w /\
       hist_value w' = hist_value w) /\
      (pfa_disabled w' = true <-> sea_state_value w = "All"%string) /\
      (roc_disabled w' = true <->
       sea_state_value w = "All"%string \/ target_value w = "None"%string) /\
      (roc_value w' = true <->
       roc_value w = true /\ roc_disabled w' = false) /\
      on_selection_change w' = w')
  /\
  on_selection_change initial_widgets = initial_widgets.
Proof.
  split; [|reflexivity].
  intros w. unfold on_selection_change.
  destruct (String.eqb_spec (sea_state_value w) "All") as [Es|Es];
    [|destruct (String.eqb_spec (target_value w) "None") as [Et|Et]];
    cbn -[String.eqb].
  - rewrite (proj2 (String.eqb_eq _ _) Es).
    repeat split; auto; try discriminate; intros [? ?]; discriminate.
  - rewrite (proj2 (String.eqb_neq _ _) Es), (proj2 (String.eqb_eq _ _) Et).
    repeat split; auto; try discriminate; try congruence;
      intros [? ?]; discriminate.
  - rewrite (proj2 (String.eqb_neq _ _) Es), (proj2 (String.eqb_neq _ _) Et).
    repeat split; auto; try discriminate; try congruence;
      try (intros [? | ?]; congruence); intros [? ?]; assumption.
Qed.

(* ------------------------------------------------------------------ *)
(** ** The estimator and the evaluator together *)

Section Pipeline.

Variable rng_state : Type.
Variable float_pow : Q -> Q -> Q.
Variable gamma_rvs : Q -> Q -> Z -> rng_state -> result (list Q * rng_state).
Variable rayleigh_rvs :
  Q -> Q -> Z -> rng_state -> result (list Q * rng_state).
Variable kolmogorov_ppf : Q -> Q.
Variable kolmogorov_mean : Q.

Hypothesis gamma_rvs_spec :
  forall (a scale : Q) (n : Z) (st : rng_state),
    0 < a -> 0 < scale -> (0 <= n)%Z ->
    exists l st',
      gamma_rvs a scale n st = Ok (l, st') /\
      length l = Z.to_nat n /\
      Forall (fun x => 0 <= x) l.

Hypothesis rayleigh_rvs_spec :
  forall (loc scale : Q) (n : Z) (st : rng_state),
    0 < scale -> (0 <= n)%Z ->
    exists l st',
      rayleigh_rvs loc scale n st = Ok (l, st') /\
      length l = Z.to_nat n /\
      Forall (fun x => loc <= x) l.

Hypothesis kolmogorov_ppf_mono :
  forall p q : Q, 0 < p -> p <= q -> q < 1 ->
    kolmogorov_ppf p <= kolmogorov_ppf q.

Hypothesis kolmogorov_mean_pos : 0 < kolmogorov_mean.

Local Abbreviation threshold_of :=
  (compute_cfar_threshold kolmogorov_ppf kolmogorov_mean).

Lemma threshold_inside (data : list Q) (pfa : Q) :
  2 ^ (-54) < pfa -> pfa < 1 -> data <> [] ->
  threshold_of data pfa =
  Finite (kolmogorov_ppf (float_sub 1 pfa)
          * (sample_mean data / kolmogorov_mean)).
Proof.
  apply compute_cfar_threshold_inside. exact kolmogorov_mean_pos.
Qed.

Lemma threshold_saturated (data : list Q) (pfa : Q) :
  - 2 ^ (-53) <= pfa -> pfa <= 2 ^ (-54) -> data <> [] ->
  threshold_of data pfa = inf_of_sign (sample_mean data / kolmogorov_mean).
Proof.
  apply compute_cfar_threshold_saturated. exact kolmogorov_mean_pos.
Qed.

Lemma threshold_outside (data : list Q) (pfa : Q) :
  pfa < - 2 ^ (-53) \/ 1 < pfa -> threshold_of data pfa = NaN.
Proof. apply compute_cfar_threshold_outside. Qed.

Lemma threshold_at_one (data : list Q) (pfa : Q) :
  pfa == 1 -> data <> [] ->
  exists t, threshold_of data pfa = Finite t /\ t == 0.
Proof.
  apply compute_cfar_threshold_at_one. exact kolmogorov_mean_pos.
Qed.

(** X14. Lowering the PFA never adds a detection.  For a non-empty clutter
    array of magnitudes and two PFA values in (0,1), a sample detected at
    the threshold of the smaller PFA is detected at the threshold of the
    larger one, so the number of false alarms in any array does not grow
    when the PFA is lowered. *)
Theorem lower_pfa_fewer_detections
    (clutter : list Q) (pfa1 pfa2 : Q) :
  clutter <> [] -> Forall (fun x => 0 <= x) clutter ->
  0 < pfa1 -> pfa1 <= pfa2 -> pfa2 < 1 ->
  (forall s,
      detected (threshold_of clutter pfa1) s = true ->
      detected (threshold_of clutter pfa2) s = true)
  /\
  (forall l : list Q,
      (count (detected (threshold_of clutter pfa1)) l
       <= count (detected (threshold_of clutter pfa2)) l)%nat).
Proof.
  intros Hne Hpos H0 H12 H1.
  assert (Hr : 0 <= sample_mean clutter / kolmogorov_mean).
  { apply Qle_shift_div_l; [exact kolmogorov_mean_pos|].
    pose proof (sample_mean_nonneg clutter Hne Hpos). lra. }
  assert (Himp : forall s,
             detected (threshold_of clutter pfa1) s = true ->
             detected (threshold_of clutter pfa2) s = true).
  { destruct (Qlt_le_dec (2 ^ (-54)) pfa1) as [Hin|Hsat].
    - assert (Hin2 : 2 ^ (-54) < pfa2) by lra.
      rewrite !threshold_inside by (lra || assumption).
      destruct (float_sub_one_inside pfa1 Hin) as [P1 Q1]; [lra|].
      destruct (float_sub_one_inside pfa2 Hin2 H1) as [P2 Q2].
      intros s. apply detected_le.
      apply Qmult_le_compat_r; [|exact Hr].
      apply kolmogorov_ppf_mono;
        [assumption | apply float_sub_one_mono; assumption | assumption].
    - rewrite (threshold_saturated clutter pfa1)
        by (try assumption; literal_bounds; lra).
      intros s. unfold inf_of_sign.
      destruct (sample_mean clutter / kolmogorov_mean ?= 0) eqn:C.
      + intros H. discriminate H.
      + apply Qlt_alt in C. lra.
      + intros H. discriminate H. }
  split; [exact Himp|].
  intros l. apply count_mono. exact Himp.
Qed.

(** X15. The detector is invariant under a change of scale.  Multiplying
    every clutter and target sample by the same positive constant, and
    estimating the threshold from the scaled clutter, gives the same ROC
    curve and area as before, for every PFA in (0,1). *)
Theorem scale_invariant_detection
    (c pfa : Q) (clutter target : list Q) :
  0 < c -> 0 < pfa -> pfa < 1 -> clutter <> [] ->
  compute_roc_curve (map (Qmult c) clutter) (map (Qmult c) target)
    (threshold_of (map (Qmult c) clutter) pfa) =
  compute_roc_curve clutter target (threshold_of clutter pfa).
Proof.
  intros Hc H0 H1 Hne.
  assert (Hne' : map (Qmult c) clutter <> [])
    by (destruct clutter; [congruence | discriminate]).
  assert (Hm : sample_mean (map (Qmult c) clutter) / kolmogorov_mean ==
               c * (sample_mean clutter / kolmogorov_mean)).
  { rewrite sample_mean_scale by assumption.
    pose proof kolmogorov_mean_pos. field. lra. }
  destruct (Qlt_le_dec (2 ^ (-54)) pfa) as [Hin|Hsat].
  - rewrite !threshold_inside by assumption.
    apply compute_roc_curve_scale; [exact Hc|].
    rewrite Hm. ring.
  - rewrite !threshold_saturated by (try assumption; literal_bounds; lra).
    rewrite (inf_of_sign_scale c _ _ Hc Hm).
    apply compute_roc_curve_scale_inf.
Qed.

Lemma count_missed_none (t : Q) (l : list Q) :
  Forall (fun x => t <= x) l -> count (missed (Finite t)) l = 0%nat.
Proof.
  unfold count. intros H; induction H as [|x l Hx Hl IH]; [reflexivity|].
  cbn [filter]. unfold missed at 1, detected. cbn [np_ge np_le].
  rewrite (proj2 (Qle_bool_iff t x) Hx). exact IH.
Qed.

(** X16. Outside (0,1) the PFA gives a threshold that separates nothing.
    For non-empty arrays of magnitudes and a clutter array with a positive
    mean, every PFA that is at most 0 or at least 1 gives the area 1/2:
    the threshold is NaN or +infinity and detects nothing, or it is 0 (at
    PFA = 1) and detects everything. *)
Theorem pfa_outside_unit_interval_area
    (pfa : Q) (clutter target : list Q) :
  pfa <= 0 \/ 1 <= pfa ->
  clutter <> [] -> target <> [] ->
  Forall (fun x => 0 <= x) clutter -> Forall (fun x => 0 <= x) target ->
  0 < sample_mean clutter ->
  exists fpr tpr a,
    compute_roc_curve clutter target (threshold_of clutter pfa) =
      Ok (fpr, tpr, Finite a) /\
    length fpr = 2%nat /\ length tpr = 2%nat /\ a == 1 # 2.
Proof.
  intros Hpfa Hc Ht Pc Pt Hm.
  apply compute_roc_curve_all_or_none; try assumption.
  assert (Hcases : (pfa < - 2 ^ (-53) \/ 1 < pfa) \/
                   (- 2 ^ (-53) <= pfa /\ pfa <= 2 ^ (-54)) \/ pfa == 1).
  { literal_bounds. destruct Hpfa as [H|H].
    - destruct (Qlt_le_dec pfa (- (1 # 9007199254740992)));
        [left; left; assumption|].
      right; left. split; lra.
    - destruct (Qlt_le_dec 1 pfa); [left; right; assumption|].
      right; right. lra. }
  destruct Hcases as [H|[[Hl Hu]|H]].
  - rewrite threshold_outside by exact H.
    left. rewrite !count_none by reflexivity. reflexivity.
  - rewrite threshold_saturated by assumption.
    rewrite inf_of_sign_pos
      by (apply Qlt_shift_div_l; [exact kolmogorov_mean_pos | lra]).
    left. rewrite !count_none by reflexivity. reflexivity.
  - destruct (threshold_at_one clutter pfa H Hc) as (t & Et & Ht0).
    rewrite Et. right.
    rewrite !count_missed_none; [reflexivity| |].
    + revert Pc. apply Forall_impl. intros x Hx. lra.
    + revert Pt. apply Forall_impl. intros x Hx. lra.
Qed.

Local Abbreviation clutter_of :=
  (generate_clutter_data rng_state float_pow gamma_rvs).
Local Abbreviation target_of :=
  (plot_target_data rng_state float_pow gamma_rvs rayleigh_rvs).
Local Abbreviation plot_of :=
  (plot_sea_state rng_state float_pow gamma_rvs rayleigh_rvs
     kolmogorov_ppf kolmogorov_mean).
Local Abbreviation output_of :=
  (interactive_output rng_state float_pow gamma_rvs rayleigh_rvs
     kolmogorov_ppf kolmogorov_mean).

(** The choice of the ROC branch, as a boolean. *)
Local Abbreviation roc_asked sea_state target include_roc :=
  (include_roc && negb (String.eqb sea_state "All")
   && negb (String.eqb target "None")).

(** [plot_sea_state] once its three array computations have returned. *)
Lemma plot_sea_state_steps
    (sea_state : string) (pfa : Q) (target : string) (snr_db nesz : Q)
    (include_histogram include_roc : bool) (st st1 st2 : rng_state)
    (d : list (string * list Q)) (clutter_data : list Q)
    (target_data : option (list Q)) :
  clutter_of nesz st = Ok (d, st1) ->
  plot_clutter_data sea_state d = Ok clutter_data ->
  target_of target snr_db nesz st1 = Ok (target_data, st2) ->
  (target_data = None <-> target = "None"%string) ->
  plot_of sea_state pfa target snr_db nesz include_histogram include_roc st =
  match
    (if roc_asked sea_state target include_roc
     then match target_data with
          | Some t =>
              bind_result
                (compute_roc_curve clutter_data t
                   (threshold_of clutter_data pfa))
                (fun r => Ok (Some r))
          | None => Ok None
          end
     else Ok None)
  with
  | Ok roc =>
      Ok ({| shown_clutter := clutter_data;
             shown_target := target_data;
             shown_combined :=
               option_map (fun t => clutter_data ++ t) target_data;
             shown_threshold :=
               if String.eqb sea_state "All" then None
               else Some (threshold_of clutter_data pfa);
             shown_roc := roc |}, st2)
  | Raise e => Raise e
  end.
Proof.
  intros Eg Ec Et Hnone.
  unfold plot_sea_state, bind, lift, ret.
  rewrite Eg, Ec, Et.
  destruct (String.eqb_spec target "None") as [Etg|Etg].
  - rewrite (proj2 Hnone Etg). rewrite !andb_false_r.
    destruct include_roc, (String.eqb sea_state "All"); reflexivity.
  - destruct target_data as [t|];
      [|exfalso; apply Etg; apply Hnone; reflexivity].
    destruct include_roc, (String.eqb sea_state "All"); cbn [negb andb];
      try reflexivity.
    destruct (compute_roc_curve clutter_data t
                (threshold_of clutter_data pfa)); reflexivity.
Qed.

Lemma catalogue_entry (target : string) :
  In target target_options -> target <> "None"%string ->
  exists rcs len, In (target, (Some rcs, len)) target_info.
Proof.
  intros Hin Hne. cbn in Hin.
  destruct Hin as [Hin|Hin]; [congruence|].
  repeat (destruct Hin as [Hin|Hin];
          [subst target; do 2 eexists; cbn [target_info In];
           auto 10 | ]).
  contradiction.
Qed.

(** The target branch on a name of the catalogue. *)
Lemma target_of_option
    (target : string) (snr_db nesz : Q) (st1 : rng_state) :
  In target target_options ->
  exists target_data st2,
    target_of target snr_db nesz st1 = Ok (target_data, st2) /\
    (target_data = None <-> target = "None"%string) /\
    (forall t, target_data = Some t -> (1000 <= length t)%nat).
Proof.
  intros Hin.
  destruct (string_dec target "None") as [E|E].
  - exists None, st1. subst target. split; [reflexivity|].
    split; [split; auto | discriminate].
  - destruct (catalogue_entry target Hin E) as (rcs & len & Hent).
    pose proof (dict_get_found _ _ _ target_info_keys_NoDup Hent) as Hget.
    assert (Hpix : estimate_pixels len ground_resolution =
                   Ok (pixel_count_spec len ground_resolution))
      by (apply estimate_pixels_nonzero; discriminate).
    assert (Hp : (1 <= pixel_count_spec len ground_resolution)%Z)
      by (unfold pixel_count_spec; lia).
    destruct (plot_target_data_selected rng_state float_pow gamma_rvs
                rayleigh_rvs gamma_rvs_spec rayleigh_rvs_spec
                target rcs len _ snr_db nesz st1 E Hget Hpix Hp)
      as (out & st2 & Et & L & _).
    exists (Some out), st2. split; [exact Et|].
    split; [split; [discriminate | contradiction]|].
    intros t Ht. inversion Ht; subst. rewrite L. lia.
Qed.

(** The clutter selection on an option of the sea-state control. *)
Lemma clutter_of_option (sea_state : string) (nesz : Q) (st : rng_state) :
  sea_state = "All"%string \/
  In sea_state [sea_state_1; sea_state_2; sea_state_3; sea_state_4;
                sea_state_5] ->
  exists d st1 clutter_data,
    clutter_of nesz st = Ok (d, st1) /\
    plot_clutter_data sea_state d = Ok clutter_data /\
    length clutter_data =
      (if String.eqb sea_state "All" then 5000 else 1000)%nat.
Proof.
  intros Hs.
  destruct (generate_clutter_data_entries rng_state float_pow gamma_rvs
              gamma_rvs_spec nesz st)
    as (a1 & a2 & a3 & a4 & a5 & st1 & Eg & H).
  inversion H as [|? ? [L1 _] H2]; subst.
  inversion H2 as [|? ? [L2 _] H3]; subst.
  inversion H3 as [|? ? [L3 _] H4]; subst.
  inversion H4 as [|? ? [L4 _] H5]; subst.
  inversion H5 as [|? ? [L5 _] _]; subst.
  eexists; exists st1.
  destruct Hs as [Hs|Hs].
  - subst sea_state. eexists. split; [exact Eg|].
    split; [reflexivity|].
    cbn [map snd concat]. rewrite !length_app, L1, L2, L3, L4, L5.
    reflexivity.
  - cbn [In] in Hs.
    repeat (destruct Hs as [Hs|Hs];
            [subst sea_state; eexists; split; [exact Eg|];
             split; [reflexivity | assumption] | ]).
    contradiction.
Qed.

(** The run of [plot_sea_state] on options of the two selection controls. *)
Lemma plot_sea_state_run
    (sea_state : string) (pfa : Q) (target : string) (snr_db nesz : Q)
    (include_histogram include_roc : bool) (st : rng_state) :
  sea_state = "All"%string \/
  In sea_state [sea_state_1; sea_state_2; sea_state_3; sea_state_4;
                sea_state_5] ->
  In target target_options ->
  exists d st1 r st',
    clutter_of nesz st = Ok (d, st1) /\
    plot_of sea_state pfa target snr_db nesz include_histogram include_roc
      st = Ok (r, st') /\
    plot_clutter_data sea_state d = Ok (shown_clutter r) /\
    target_of target snr_db nesz st1 = Ok (shown_target r, st') /\
    shown_combined r =
      option_map (fun t => shown_clutter r ++ t) (shown_target r) /\
    shown_threshold r =
      (if String.eqb sea_state "All" then None
       else Some (threshold_of (shown_clutter r) pfa)) /\
    (shown_target r = None <-> target = "None"%string) /\
    (roc_asked sea_state target include_roc = false ->
     shown_roc r = None) /\
    (roc_asked sea_state target include_roc = true ->
     exists t fpr tpr a,
       shown_target r = Some t /\
       compute_roc_curve (shown_clutter r) t
         (threshold_of (shown_clutter r) pfa) = Ok (fpr, tpr, Finite a) /\
       shown_roc r = Some (fpr, tpr, Finite a) /\
       0 <= a /\ a <= 1).
Proof.
  intros Hs Ht.
  destruct (clutter_of_option sea_state nesz st Hs)
    as (d & st1 & cd & Eg & Ec & Lc).
  destruct (target_of_option target snr_db nesz st1 Ht)
    as (td & st2 & Et & Hnone & Hlen).
  pose proof (plot_sea_state_steps sea_state pfa target snr_db nesz
                include_histogram include_roc st st1 st2 d cd td
                Eg Ec Et Hnone) as Erun.
  assert (Hcd : cd <> []).
  { intros E. rewrite E in Lc. cbn [length] in Lc.
    destruct (String.eqb sea_state "All"); discriminate. }
  destruct (roc_asked sea_state target include_roc) eqn:Easked.
  - destruct td as [t|].
    + assert (Htne : t <> []).
      { intros E. specialize (Hlen t eq_refl). rewrite E in Hlen.
        cbn [length] in Hlen. lia. }
      destruct (compute_roc_curve_rates cd t (threshold_of cd pfa)
                  Hcd Htne) as (fpr & tpr & a & Eroc & Ha & HF & HT).
      assert (Ha0 : 0 <= a) by lra.
      assert (Ha1 : a <= 1) by lra.
      rewrite Eroc in Erun. cbn [bind_result] in Erun.
      do 4 eexists. split; [exact Eg|]. split; [exact Erun|].
      cbn [shown_clutter shown_target shown_combined shown_threshold
           shown_roc].
      split; [exact Ec|]. split; [exact Et|]. split; [reflexivity|].
      split; [reflexivity|]. split; [exact Hnone|].
      split; [discriminate|].
      intros _. exists t, fpr, tpr, a.
      split; [reflexivity|]. split; [exact Eroc|]. split; [reflexivity|].
      split; assumption.
    + exfalso.
      rewrite (proj1 Hnone eq_refl) in Easked. cbn in Easked.
      rewrite andb_false_r in Easked. discriminate.
  - do 4 eexists. split; [exact Eg|]. split; [exact Erun|].
    cbn [shown_clutter shown_target shown_combined shown_threshold
         shown_roc].
    split; [exact Ec|]. split; [exact Et|]. split; [reflexivity|].
    split; [reflexivity|]. split; [exact Hnone|].
    split; [reflexivity | discriminate].
Qed.


Lemma roc_asked_true (sea_state target : string) (include_roc : bool) :
  roc_asked sea_state target include_roc = true <->
  include_roc = true /\ sea_state <> "All"%string /\
  target <> "None"%string.
Proof.
  rewrite !andb_true_iff, !negb_true_iff.
  split.
  - intros [[H1 H2] H3]. repeat split; [exact H1| |];
      apply String.eqb_neq; assumption.
  - intros (H1 & H2 & H3). repeat split; [exact H1| |];
      apply String.eqb_neq; assumption.
Qed.

(** X17. On options of the two selection controls [plot_sea_state] does not
    raise.  It draws the clutter first and the target after it from the
    same random stream; the clutter shown is the caller's selection from
    the generated dictionary; the threshold is computed from that clutter
    exactly when the sea state is not "All"; target samples exist exactly
    when the target is not "None", and the array shown as the target
    distribution is the clutter followed by them; the ROC result exists
    exactly when it is asked for, the sea state is not "All" and the
    target is not "None". *)
Theorem plot_sea_state_outputs
    (sea_state : string) (pfa : Q) (target : string) (snr_db nesz : Q)
    (include_histogram include_roc : bool) (st : rng_state) :
  sea_state = "All"%string \/
  In sea_state [sea_state_1; sea_state_2; sea_state_3; sea_state_4;
                sea_state_5] ->
  In target target_options ->
  exists d st1 r st',
    clutter_of nesz st = Ok (d, st1) /\
    plot_of sea_state pfa target snr_db nesz include_histogram include_roc
      st = Ok (r, st') /\
    plot_clutter_data sea_state d = Ok (shown_clutter r) /\
    target_of target snr_db nesz st1 = Ok (shown_target r, st') /\
    shown_combined r =
      option_map (fun t => shown_clutter r ++ t) (shown_target r) /\
    (shown_threshold r = None <-> sea_state = "All"%string) /\
    (forall thr,
        shown_threshold r = Some thr ->
        thr = threshold_of (shown_clutter r) pfa) /\
    (shown_target r = None <-> target = "None"%string) /\
    (shown_roc r <> None <->
     include_roc = true /\ sea_state <> "All"%string /\
     target <> "None"%string).
Proof.
  intros Hs Ht.
  destruct (plot_sea_state_run sea_state pfa target snr_db nesz
              include_histogram include_roc st Hs Ht)
    as (d & st1 & r & st' & Eg & Ep & Ec & Et & Ecomb & Ethr & Hnone
        & Hno & Hyes).
  exists d, st1, r, st'.
  repeat (split; [assumption|]).
  split; [|split; [|split; [exact Hnone|]]].
  - rewrite Ethr.
    destruct (String.eqb_spec sea_state "All") as [E|E].
    + split; auto.
    + split; [discriminate | contradiction].
  - intros thr Hthr. rewrite Ethr in Hthr.
    destruct (String.eqb sea_state "All"); [discriminate|].
    inversion Hthr. reflexivity.
  - rewrite <- roc_asked_true.
    destruct (roc_asked sea_state target include_roc) eqn:E.
    + destruct (Hyes eq_refl) as (t & fpr & tpr & a & _ & _ & Er & _).
      rewrite Er. split; [reflexivity | discriminate].
    + rewrite (Hno eq_refl). split; [congruence | discriminate].
Qed.

(** X18. Whenever [plot_sea_state] computes the ROC result, on options of
    the controls, the area is a finite number between 0 and 1, for every
    value of the PFA, also outside (0,1): the clutter array holds 1000
    samples and the target array at least 1000. *)
Theorem plot_sea_state_roc_area
    (sea_state : string) (pfa : Q) (target : string) (snr_db nesz : Q)
    (include_histogram : bool) (st : rng_state) :
  In sea_state [sea_state_1; sea_state_2; sea_state_3; sea_state_4;
                sea_state_5] ->
  In target target_options -> target <> "None"%string ->
  exists r st' t fpr tpr a,
    plot_of sea_state pfa target snr_db nesz include_histogram true st =
      Ok (r, st') /\
    length (shown_clutter r) = 1000%nat /\
    shown_target r = Some t /\ (1000 <= length t)%nat /\
    shown_roc r = Some (fpr, tpr, Finite a) /\
    0 <= a /\ a <= 1.
Proof.
  intros Hs Ht Hne.
  assert (Hall : sea_state <> "All"%string).
  { intros E. subst sea_state. cbn [In] in Hs.
    repeat (destruct Hs as [Hs|Hs]; [discriminate Hs|]). exact Hs. }
  destruct (plot_sea_state_run sea_state pfa target snr_db nesz
              include_histogram true st (or_intror Hs) Ht)
    as (d & st1 & r & st' & Eg & Ep & Ec & Et & _ & _ & _ & _ & Hyes).
  destruct (Hyes (proj2 (roc_asked_true sea_state target true)
                    (conj eq_refl (conj Hall Hne))))
    as (t & fpr & tpr & a & Etd & _ & Er & Ha0 & Ha1).
  exists r, st', t, fpr, tpr, a.
  split; [exact Ep|].
  destruct (clutter_of_option sea_state nesz st (or_intror Hs))
    as (d' & st1' & cd & Eg' & Ec' & Lc).
  rewrite Eg in Eg'. inversion Eg'; subst d' st1'.
  rewrite Ec in Ec'. inversion Ec' as [Ecd].
  rewrite (proj2 (String.eqb_neq sea_state "All") Hall) in Lc.
  split; [rewrite Ecd; exact Lc|].
  destruct (target_of_option target snr_db nesz st1 Ht)
    as (td & st2 & Et' & _ & Hlen).
  rewrite Et in Et'. inversion Et' as [[Etd' Est]].
  split; [exact Etd|].
  split; [apply Hlen; rewrite <- Etd'; exact Etd|].
  repeat split; assumption.
Qed.

(** X19. A sea state that is neither "All" nor one of the five keys makes
    [plot_sea_state] raise [KeyError], whatever the target; on an option
    of the sea-state control, a target that is not in the catalogue makes
    it raise [KeyError]. *)
Theorem plot_sea_state_key_errors
    (sea_state : string) (pfa : Q) (target : string) (snr_db nesz : Q)
    (include_histogram include_roc : bool) (st : rng_state) :
  (sea_state <> "All"%string ->
   ~ In sea_state [sea_state_1; sea_state_2; sea_state_3; sea_state_4;
                   sea_state_5] ->
   plot_of sea_state pfa target snr_db nesz include_histogram include_roc
     st = Raise KeyError)
  /\
  (sea_state = "All"%string \/
   In sea_state [sea_state_1; sea_state_2; sea_state_3; sea_state_4;
                 sea_state_5] ->
   ~ In target target_options ->
   plot_of sea_state pfa target snr_db nesz include_histogram include_roc
     st = Raise KeyError).
Proof.
  split.
  - intros Hall Hnot.
    destruct (generate_clutter_data_entries rng_state float_pow gamma_rvs
                gamma_rvs_spec nesz st)
      as (a1 & a2 & a3 & a4 & a5 & st1 & Eg & _).
    unfold plot_sea_state, bind, lift. rewrite Eg.
    unfold plot_clutter_data.
    rewrite (proj2 (String.eqb_neq sea_state "All") Hall).
    rewrite dict_get_missing by exact Hnot. reflexivity.
  - intros Hs Hnot.
    destruct (clutter_of_option sea_state nesz st Hs)
      as (d & st1 & cd & Eg & Ec & _).
    assert (Hne : target <> "None"%string).
    { intros ->. apply Hnot. left. reflexivity. }
    unfold plot_sea_state, bind, lift.
    rewrite Eg, Ec. unfold plot_target_data.
    rewrite (proj2 (String.eqb_neq target "None") Hne). cbn [negb].
    unfold bind at 1. unfold lift at 1.
    rewrite (dict_get_missing target target_info Hnot). reflexivity.
Qed.

(** X20. The clutter shown and the threshold do not depend on the target:
    from the same state of the random stream, two runs of [plot_sea_state]
    with the same sea state, PFA and NESZ show the same clutter array and
    the same threshold, whatever the targets, the SNR values and the two
    check boxes. *)
Theorem plot_sea_state_target_independence
    (sea_state : string) (pfa nesz : Q) (st : rng_state)
    (target1 target2 : string) (snr1 snr2 : Q)
    (hist1 hist2 roc1 roc2 : bool) :
  sea_state = "All"%string \/
  In sea_state [sea_state_1; sea_state_2; sea_state_3; sea_state_4;
                sea_state_5] ->
  In target1 target_options -> In target2 target_options ->
  exists r1 st1 r2 st2,
    plot_of sea_state pfa target1 snr1 nesz hist1 roc1 st = Ok (r1, st1) /\
    plot_of sea_state pfa target2 snr2 nesz hist2 roc2 st = Ok (r2, st2) /\
    shown_clutter r1 = shown_clutter r2 /\
    shown_threshold r1 = shown_threshold r2.
Proof.
  intros Hs Ht1 Ht2.
  destruct (plot_sea_state_run sea_state pfa target1 snr1 nesz hist1 roc1
              st Hs Ht1)
    as (d1 & s1 & r1 & st1 & Eg1 & Ep1 & Ec1 & _ & _ & Eth1 & _).
  destruct (plot_sea_state_run sea_state pfa target2 snr2 nesz hist2 roc2
              st Hs Ht2)
    as (d2 & s2 & r2 & st2 & Eg2 & Ep2 & Ec2 & _ & _ & Eth2 & _).
  exists r1, st1, r2, st2.
  split; [exact Ep1|]. split; [exact Ep2|].
  rewrite Eg1 in Eg2. inversion Eg2; subst d2 s2.
  rewrite Ec1 in Ec2. inversion Ec2 as [Ec].
  split; [reflexivity|].
  rewrite Eth1, Eth2, Ec. reflexivity.
Qed.

(** X21. After the observer has run on options of the two selection
    controls, what [interactive_output] draws agrees with the controls: a
    threshold is shown exactly when the PFA slider is enabled, and the ROC
    curve exactly when the ROC checkbox is ticked; with the checkbox
    disabled no ROC curve is computed. *)
Theorem interactive_output_after_selection (w : widgets) (st : rng_state) :
  sea_state_value w = "All"%string \/
  In (sea_state_value w)
     [sea_state_1; sea_state_2; sea_state_3; sea_state_4; sea_state_5] ->
  In (target_value w) target_options ->
  exists r st',
    output_of (on_selection_change w) st = Ok (r, st') /\
    (shown_threshold r <> None <->
     pfa_disabled (on_selection_change w) = false) /\
    (shown_roc r <> None <-> roc_value (on_selection_change w) = true) /\
    (roc_disabled (on_selection_change w) = true -> shown_roc r = None).
Proof.
  intros Hs Ht.
  assert (Hsv : sea_state_value (on_selection_change w) = sea_state_value w)
    by (unfold on_selection_change;
        destruct (String.eqb (sea_state_value w) "All"),
                 (String.eqb (target_value w) "None"); reflexivity).
  assert (Htv : target_value (on_selection_change w) = target_value w)
    by (unfold on_selection_change;
        destruct (String.eqb (sea_state_value w) "All"),
                 (String.eqb (target_value w) "None"); reflexivity).
  unfold interactive_output. rewrite Hsv, Htv.
  destruct (plot_sea_state_run (sea_state_value w)
              (pfa_value (on_selection_change w)) (target_value w)
              (snr_value (on_selection_change w))
              (nesz_value (on_selection_change w))
              (hist_value (on_selection_change w))
              (roc_value (on_selection_change w)) st Hs Ht)
    as (d & st1 & r & st' & _ & Ep & _ & _ & _ & Ethr & _ & Hno & Hyes).
  exists r, st'. split; [exact Ep|].
  revert Ethr Hno Hyes. unfold on_selection_change.
  destruct (String.eqb_spec (sea_state_value w) "All") as [Es|Es];
    [|destruct (String.eqb_spec (target_value w) "None") as [Etg|Etg]];
    cbn [roc_value pfa_disabled roc_disabled andb negb];
    intros Ethr Hno Hyes.
  - rewrite Ethr, (Hno eq_refl).
    repeat split; try congruence; discriminate.
  - rewrite Ethr, (Hno eq_refl).
    repeat split; try congruence; discriminate.
  - rewrite Ethr. destruct (roc_value w).
    + destruct (Hyes eq_refl) as (t & fpr & tpr & a & _ & _ & Er & _).
      rewrite Er. repeat split; try congruence; discriminate.
    + rewrite (Hno eq_refl).
      repeat split; try congruence; discriminate.
Qed.


(** X22. A strong target is always detected.  When a finite threshold is at
    most [rcs * 10 ** (snr_db / 10) + 2 * 10 ** (nesz / 10)], every sample
    that [generate_target_data] returns is detected, so against any
    non-empty clutter array the true positive rate is 1 and the area is at
    least 1/2. *)
Theorem strong_target_detected
    (rcs snr_db : Q) (size pixels : Z) (nesz t : Q) (st : rng_state) :
  (0 <= size * pixels)%Z ->
  t <= rcs * float_pow 10 (snr_db / 10) + 2 * float_pow 10 (nesz / 10) ->
  exists out st',
    generate_target_data rng_state float_pow gamma_rvs rayleigh_rvs
      (Some rcs) snr_db size pixels nesz st = Ok (out, st') /\
    count (detected (Finite t)) out = length out /\
    (forall clutter : list Q,
        clutter <> [] -> out <> [] ->
        exists fpr tpr a,
          compute_roc_curve clutter out (Finite t) =
            Ok (fpr, tpr, Finite a) /\
          1 # 2 <= a).
Proof.
  intros Hn Ht.
  destruct (generate_target_data_draws rng_state float_pow gamma_rvs
              rayleigh_rvs gamma_rvs_spec rayleigh_rvs_spec
              rcs snr_db size pixels nesz st Hn)
    as (ts & st1 & g & st2 & _ & _ & _ & _ & Pt & Pg & E).
  eexists; eexists. split; [exact E|].
  set (out := zip_add ts (np_add_scalar g (float_pow 10 (nesz / 10)))).
  assert (Hall : Forall (fun x => t <= x) out).
  { apply Forall_zip_add
      with (P := fun x =>
                   rcs * float_pow 10 (snr_db / 10)
                   + float_pow 10 (nesz / 10) <= x)
           (Q' := fun y => float_pow 10 (nesz / 10) <= y).
    - intros x y Hx Hy. lra.
    - exact Pt.
    - apply Forall_np_add_scalar. exact Pg. }
  pose proof (count_detected_all t out Hall) as Hcount.
  split; [exact Hcount|].
  intros clutter Hc Ho.
  destruct (compute_roc_curve_rates clutter out (Finite t) Hc Ho)
    as (fpr & tpr & a & Er & Ha & HF & _).
  exists fpr, tpr, a. split; [exact Er|].
  rewrite Hcount in Ha.
  pose proof (inject_Z_pos _ (length_pos_Z out Ho)) as Hq1.
  assert (E1 : inject_Z (Z.of_nat (length out))
               / inject_Z (Z.of_nat (length out)) == 1) by (field; lra).
  rewrite E1 in Ha. lra.
Qed.


End Pipeline.

(* ------------------------------------------------------------------ *)
(** ** The further theorems at concrete inputs *)

Lemma sea_state_3_option :
  In sea_state_3
     [sea_state_1; sea_state_2; sea_state_3; sea_state_4; sea_state_5].
Proof. right; right; left; reflexivity. Defined.

Lemma frigate_option :
  In "Warship (Frigate) (RCS=40 dBsm, Length=340 feet)"%string
     target_options.
Proof. right; right; right; left; reflexivity. Defined.

Lemma none_option : In "None"%string target_options.
Proof. left; reflexivity. Defined.

(** X1 at NESZ = -25 dB: sea state 3 is found, "Sea State 9" is not. *)
Lemma generate_clutter_data_lookup_witness :
  exists d st',
    generate_clutter_data Z Lcg.float_pow Lcg.gamma_rvs (-25) 0%Z =
      Ok (d, st') /\
    (exists v,
        plot_clutter_data sea_state_3 d = Ok v /\ length v = 1000%nat) /\
    plot_clutter_data "Sea State 9" d = Raise KeyError.
Proof.
  destruct (generate_clutter_data_lookup Z Lcg.float_pow Lcg.gamma_rvs
              lcg_gamma_rvs_spec (-25) 0%Z)
    as (d & st' & E & Hk & Hopt & Hm & _).
  exists d, st'. split; [exact E|]. split.
  - destruct (Hk sea_state_3 sea_state_3_option) as (v & Ev & Lv & _).
    exists v. split; assumption.
  - apply Hm. rewrite Hopt. cbn [In]. intros H.
    repeat (destruct H as [H|H]; [discriminate H|]). exact H.
Defined.

(** X2 for the frigate at SNR 10 dB and NESZ -25 dB. *)
Lemma plot_target_data_catalogue_witness :
  exists pixels out st',
    estimate_pixels 103.632 ground_resolution = Ok pixels /\
    plot_target_data Z Lcg.float_pow Lcg.gamma_rvs Lcg.rayleigh_rvs
      "Warship (Frigate) (RCS=40 dBsm, Length=340 feet)" 10 (-25) 0%Z =
      Ok (Some out, st') /\
    length out = (1000 * Z.to_nat pixels)%nat.
Proof.
  destruct (proj1 (proj2 (plot_target_data_catalogue Z Lcg.float_pow
                            Lcg.gamma_rvs Lcg.rayleigh_rvs
                            lcg_gamma_rvs_spec lcg_rayleigh_rvs_spec
                            "Warship (Frigate) (RCS=40 dBsm, Length=340 feet)"
                            10 (-25) 0%Z))
              40 103.632 ltac:(discriminate)
              ltac:(right; right; right; left; reflexivity))
    as (pixels & out & st' & Ep & E & L & _).
  exists pixels, out, st'.
  split; [exact Ep|]. split; [exact E | exact L].
Defined.

(** X3 at PFA = 0 on an array with a positive mean. *)
Lemma compute_cfar_threshold_edges_witness :
  [1; 2; 3] <> [] /\ 0 == 0 /\ 0 < sample_mean [1; 2; 3] /\
  compute_cfar_threshold Lcg.quantile Lcg.mean [1; 2; 3] 0 = PosInf.
Proof.
  assert (H1 : [1; 2; 3] <> [] :> list Q) by discriminate.
  assert (H2 : 0 == 0) by reflexivity.
  assert (H3 : 0 < sample_mean [1; 2; 3]) by reflexivity.
  repeat (split; [assumption|]).
  exact (proj1 (proj2 (compute_cfar_threshold_edges Lcg.quantile Lcg.mean
                         lcg_mean_pos) [1; 2; 3] 0 H1 H2) H3).
Defined.

(** X4 on an array and a rearrangement of it, at PFA = 1/10. *)
Lemma compute_cfar_threshold_mean_only_witness :
  Permutation [1; 2; 3] [2; 1; 3] /\
  same_float
    (compute_cfar_threshold Lcg.quantile Lcg.mean [1; 2; 3] (1 # 10))
    (compute_cfar_threshold Lcg.quantile Lcg.mean [2; 1; 3] (1 # 10)).
Proof.
  assert (Hp : Permutation [1; 2; 3] [2; 1; 3]) by apply perm_swap.
  split; [exact Hp|].
  exact (proj2 (compute_cfar_threshold_mean_only Lcg.quantile Lcg.mean
                  lcg_mean_pos (1 # 10))
           [1; 2; 3] [2; 1; 3] Hp).
Defined.

(** X5 on an array with a negative mean: the threshold at PFA = 1/10 is at
    most the one at PFA = 1/2, and at PFA = 1e-20 it is -infinity. *)
Lemma compute_cfar_threshold_sign_witness :
  [-1; -2] <> [] /\ sample_mean [-1; -2] < 0 /\
  np_le (compute_cfar_threshold Lcg.quantile Lcg.mean [-1; -2] (1 # 10))
        (compute_cfar_threshold Lcg.quantile Lcg.mean [-1; -2] (1 # 2))
    = true /\
  compute_cfar_threshold Lcg.quantile Lcg.mean [-1; -2]
    (1 # 100000000000000000000) = NegInf.
Proof.
  assert (H1 : [-1; -2] <> [] :> list Q) by discriminate.
  assert (H2 : sample_mean [-1; -2] < 0) by reflexivity.
  assert (H3 : 1 # 10 <= 1 # 2) by discriminate.
  assert (H4 : 0 <= 1 # 100000000000000000000) by discriminate.
  assert (H5 : 1 # 100000000000000000000 <= 2 ^ (-54)) by discriminate.
  split; [exact H1|]. split; [exact H2|].
  pose proof (compute_cfar_threshold_sign Lcg.quantile Lcg.mean
                lcg_quantile_mono lcg_mean_pos [-1; -2] H1)
    as (_ & Hsat & Hrev).
  split.
  - exact (Hrev H2 (1 # 10) (1 # 2) eq_refl H3 eq_refl).
  - exact (proj1 (proj2 (Hsat (1 # 100000000000000000000) H4 H5)) H2).
Defined.

(** X6 for the frigate: 11 pixels cover 103.632 m and 10 do not. *)
Lemma estimate_pixels_covers_witness :
  0 < 10 /\
  exists n,
    estimate_pixels 103.632 10 = Ok n /\
    103.632 <= inject_Z n * 10 /\
    ((1 < n)%Z -> inject_Z (n - 1) * 10 < 103.632).
Proof.
  split; [reflexivity|].
  apply (proj1 estimate_pixels_covers 103.632 10). reflexivity.
Defined.

(** X7 on overlapping classes. *)
Lemma compute_roc_curve_points_witness :
  [1; 2; 3; 4] <> [] /\ [3; 4; 5; 6] <> [] /\
  exists fpr tpr a,
    compute_roc_curve [1; 2; 3; 4] [3; 4; 5; 6] (Finite 3.5) =
      Ok (fpr, tpr, a) /\
    (2 <= length fpr <= 3)%nat.
Proof.
  assert (H1 : [1; 2; 3; 4] <> [] :> list Q) by discriminate.
  assert (H2 : [3; 4; 5; 6] <> [] :> list Q) by discriminate.
  repeat (split; [assumption|]).
  destruct (compute_roc_curve_points [1; 2; 3; 4] [3; 4; 5; 6]
              (Finite 3.5) H1 H2) as (fpr & tpr & a & E & Hshape).
  exists fpr, tpr, a. split; [exact E|].
  destruct Hshape as [(f0 & f1 & t0 & t1 & Ef & _)
                     |(f0 & f1 & f2 & t0 & t1 & t2 & Ef & _)];
    rewrite Ef; cbn [length]; lia.
Defined.

(** X8 on overlapping classes. *)
Lemma compute_roc_curve_area_witness :
  [1; 2; 3; 4] <> [] /\ [3; 4; 5; 6] <> [] /\
  exists fpr tpr a,
    compute_roc_curve [1; 2; 3; 4] [3; 4; 5; 6] (Finite 3.5) =
      Ok (fpr, tpr, Finite a) /\
    0 <= a /\ a <= 1.
Proof.
  assert (H1 : [1; 2; 3; 4] <> [] :> list Q) by discriminate.
  assert (H2 : [3; 4; 5; 6] <> [] :> list Q) by discriminate.
  repeat (split; [assumption|]).
  destruct (compute_roc_curve_area [1; 2; 3; 4] [3; 4; 5; 6]
              (Finite 3.5) H1 H2) as (fpr & tpr & a & E & _ & H0 & H1' & _).
  exists fpr, tpr, a.
  split; [exact E|]. split; [exact H0 | exact H1'].
Defined.

(** X9 on clutter without targets. *)
Lemma compute_roc_curve_one_class_witness :
  [1; 2; 3] <> [] /\
  exists fpr tpr,
    compute_roc_curve [1; 2; 3] [] (Finite 2) = Ok (fpr, tpr, NaN) /\
    Forall (fun x => x = NaN) tpr.
Proof.
  assert (H1 : [1; 2; 3] <> [] :> list Q) by discriminate.
  split; [exact H1|].
  exact (proj1 (compute_roc_curve_one_class [1; 2; 3] (Finite 2) H1)).
Defined.

(** X10 at the threshold NaN. *)
Lemma compute_roc_curve_nonfinite_threshold_witness :
  [1; 2] <> [] /\ [5; 6] <> [] /\
  exists fpr tpr a,
    compute_roc_curve [1; 2] [5; 6] NaN = Ok (fpr, tpr, Finite a) /\
    length fpr = 2%nat /\ length tpr = 2%nat /\ a == 1 # 2.
Proof.
  assert (H1 : [1; 2] <> [] :> list Q) by discriminate.
  assert (H2 : [5; 6] <> [] :> list Q) by discriminate.
  repeat (split; [assumption|]).
  exact (proj2 (proj2 (compute_roc_curve_nonfinite_threshold NaN
                         (or_introl eq_refl))) [1; 2] [5; 6] H1 H2).
Defined.

(** X11 for the thresholds 2 and 3. *)
Lemma detected_antitone_witness :
  2 <= 3 /\
  Nat.le (count (detected (Finite 3)) [1; 2; 3; 4])
         (count (detected (Finite 2)) [1; 2; 3; 4]).
Proof.
  assert (H : 2 <= 3) by discriminate.
  split; [exact H|].
  exact (proj2 (detected_antitone 2 3 H) [1; 2; 3; 4]).
Defined.

(** X12 on rearranged arrays. *)
Lemma compute_roc_curve_permutation_witness :
  Permutation [1; 2; 3] [2; 1; 3] /\ Permutation [5; 6] [6; 5] /\
  [1; 2; 3] ++ [5; 6] <> [] /\
  compute_roc_curve [1; 2; 3] [5; 6] (Finite 2.5) =
  compute_roc_curve [2; 1; 3] [6; 5] (Finite 2.5).
Proof.
  assert (H1 : Permutation [1; 2; 3] [2; 1; 3]) by apply perm_swap.
  assert (H2 : Permutation [5; 6] [6; 5]) by apply perm_swap.
  assert (H3 : [1; 2; 3] ++ [5; 6] <> [] :> list Q) by discriminate.
  repeat (split; [assumption|]).
  exact (compute_roc_curve_permutation _ _ _ _ (Finite 2.5) H1 H2 H3).
Defined.

(** X13 on the controls as first shown. *)
Lemma on_selection_change_spec_witness :
  roc_disabled (on_selection_change initial_widgets) = true <->
  sea_state_value initial_widgets = "All"%string \/
  target_value initial_widgets = "None"%string.
Proof.
  exact (proj1 (proj2 (proj2 (proj1 on_selection_change_spec
                                initial_widgets)))).
Defined.

(** X14 for PFA 1/10 against 1/2. *)
Lemma lower_pfa_fewer_detections_witness :
  [1; 2; 3] <> [] /\ Forall (fun x => 0 <= x) [1; 2; 3] /\
  0 < 1 # 10 /\ 1 # 10 <= 1 # 2 /\ 1 # 2 < 1 /\
  Nat.le
    (count
       (detected
          (compute_cfar_threshold Lcg.quantile Lcg.mean [1; 2; 3] (1 # 10)))
       [1; 2; 3; 4; 5])
    (count
       (detected
          (compute_cfar_threshold Lcg.quantile Lcg.mean [1; 2; 3] (1 # 2)))
       [1; 2; 3; 4; 5]).
Proof.
  assert (H1 : [1; 2; 3] <> [] :> list Q) by discriminate.
  assert (H2 : Forall (fun x => 0 <= x) [1; 2; 3])
    by (repeat constructor; discriminate).
  assert (H3 : 0 < 1 # 10) by reflexivity.
  assert (H4 : 1 # 10 <= 1 # 2) by discriminate.
  assert (H5 : 1 # 2 < 1) by reflexivity.
  repeat (split; [assumption|]).
  exact (proj2 (lower_pfa_fewer_detections Lcg.quantile Lcg.mean
                  lcg_quantile_mono lcg_mean_pos [1; 2; 3] (1 # 10) (1 # 2)
                  H1 H2 H3 H4 H5) [1; 2; 3; 4; 5]).
Defined.

(** X15 for the factor 7. *)
Lemma scale_invariant_detection_witness :
  0 < 7 /\ 0 < 1 # 10 /\ 1 # 10 < 1 /\ [1; 2; 3] <> [] /\
  compute_roc_curve (map (Qmult 7) [1; 2; 3]) (map (Qmult 7) [4; 5])
    (compute_cfar_threshold Lcg.quantile Lcg.mean
       (map (Qmult 7) [1; 2; 3]) (1 # 10)) =
  compute_roc_curve [1; 2; 3] [4; 5]
    (compute_cfar_threshold Lcg.quantile Lcg.mean [1; 2; 3] (1 # 10)).
Proof.
  assert (H1 : 0 < 7) by reflexivity.
  assert (H2 : 0 < 1 # 10) by reflexivity.
  assert (H3 : 1 # 10 < 1) by reflexivity.
  assert (H4 : [1; 2; 3] <> [] :> list Q) by discriminate.
  repeat (split; [assumption|]).
  exact (scale_invariant_detection Lcg.quantile Lcg.mean lcg_mean_pos
           7 (1 # 10) [1; 2; 3] [4; 5] H1 H2 H3 H4).
Defined.

(** X16 at PFA = 1, the upper end of the PFA slider. *)
Lemma pfa_outside_unit_interval_area_witness :
  (1 <= 0 \/ 1 <= 1) /\ [1; 2; 3] <> [] /\ [4; 5] <> [] /\
  Forall (fun x => 0 <= x) [1; 2; 3] /\ Forall (fun x => 0 <= x) [4; 5] /\
  0 < sample_mean [1; 2; 3] /\
  exists fpr tpr a,
    compute_roc_curve [1; 2; 3] [4; 5]
      (compute_cfar_threshold Lcg.quantile Lcg.mean [1; 2; 3] 1) =
      Ok (fpr, tpr, Finite a) /\
    length fpr = 2%nat /\ length tpr = 2%nat /\ a == 1 # 2.
Proof.
  assert (H1 : 1 <= 0 \/ 1 <= 1) by (right; discriminate).
  assert (H2 : [1; 2; 3] <> [] :> list Q) by discriminate.
  assert (H3 : [4; 5] <> [] :> list Q) by discriminate.
  assert (H4 : Forall (fun x => 0 <= x) [1; 2; 3])
    by (repeat constructor; discriminate).
  assert (H5 : Forall (fun x => 0 <= x) [4; 5])
    by (repeat constructor; discriminate).
  assert (H6 : 0 < sample_mean [1; 2; 3]) by reflexivity.
  repeat (split; [assumption|]).
  exact (pfa_outside_unit_interval_area Lcg.quantile Lcg.mean lcg_mean_pos
           1 [1; 2; 3] [4; 5] H1 H2 H3 H4 H5 H6).
Defined.

(** X17 for sea state 3 and the frigate, PFA 1e-10, SNR 10 dB,
    NESZ -25 dB. *)
Lemma plot_sea_state_outputs_witness :
  exists r st',
    plot_sea_state Z Lcg.float_pow Lcg.gamma_rvs Lcg.rayleigh_rvs
      Lcg.quantile Lcg.mean sea_state_3 (1 # 10000000000)
      "Warship (Frigate) (RCS=40 dBsm, Length=340 feet)" 10 (-25)
      true true 0%Z = Ok (r, st') /\
    shown_roc r <> None.
Proof.
  destruct (plot_sea_state_outputs Z Lcg.float_pow Lcg.gamma_rvs
              Lcg.rayleigh_rvs Lcg.quantile Lcg.mean
              lcg_gamma_rvs_spec lcg_rayleigh_rvs_spec
              sea_state_3 (1 # 10000000000)
              "Warship (Frigate) (RCS=40 dBsm, Length=340 feet)" 10 (-25)
              true true 0%Z (or_intror sea_state_3_option) frigate_option)
    as (d & st1 & r & st' & _ & E & _ & _ & _ & _ & _ & _ & Hroc).
  exists r, st'. split; [exact E|].
  apply Hroc. repeat split; discriminate.
Defined.

(** X18 for sea state 3 and the frigate. *)
Lemma plot_sea_state_roc_area_witness :
  exists r st' fpr tpr a,
    plot_sea_state Z Lcg.float_pow Lcg.gamma_rvs Lcg.rayleigh_rvs
      Lcg.quantile Lcg.mean sea_state_3 (1 # 10000000000)
      "Warship (Frigate) (RCS=40 dBsm, Length=340 feet)" 10 (-25)
      true true 0%Z = Ok (r, st') /\
    shown_roc r = Some (fpr, tpr, Finite a) /\ 0 <= a /\ a <= 1.
Proof.
  destruct (plot_sea_state_roc_area Z Lcg.float_pow Lcg.gamma_rvs
              Lcg.rayleigh_rvs Lcg.quantile Lcg.mean
              lcg_gamma_rvs_spec lcg_rayleigh_rvs_spec
              sea_state_3 (1 # 10000000000)
              "Warship (Frigate) (RCS=40 dBsm, Length=340 feet)" 10 (-25)
              true 0%Z sea_state_3_option frigate_option
              ltac:(discriminate))
    as (r & st' & t & fpr & tpr & a & E & _ & _ & _ & Er & H0 & H1).
  exists r, st', fpr, tpr, a.
  split; [exact E|]. split; [exact Er|]. split; [exact H0 | exact H1].
Defined.

(** X19 for a sea state that does not exist. *)
Lemma plot_sea_state_key_errors_witness :
  plot_sea_state Z Lcg.float_pow Lcg.gamma_rvs Lcg.rayleigh_rvs
    Lcg.quantile Lcg.mean "Sea State 9" (1 # 10) "None" 0 (-25)
    true false 0%Z = Raise KeyError.
Proof.
  apply (proj1 (plot_sea_state_key_errors Z Lcg.float_pow Lcg.gamma_rvs
                  Lcg.rayleigh_rvs Lcg.quantile Lcg.mean
                  lcg_gamma_rvs_spec
                  "Sea State 9" (1 # 10) "None" 0 (-25) true false 0%Z)).
  - discriminate.
  - cbn [In]. intros H.
    repeat (destruct H as [H|H]; [discriminate H|]). exact H.
Defined.

(** X20 for the frigate against no target. *)
Lemma plot_sea_state_target_independence_witness :
  exists r1 st1 r2 st2,
    plot_sea_state Z Lcg.float_pow Lcg.gamma_rvs Lcg.rayleigh_rvs
      Lcg.quantile Lcg.mean sea_state_3 (1 # 10)
      "Warship (Frigate) (RCS=40 dBsm, Length=340 feet)" 10 (-25)
      true true 0%Z = Ok (r1, st1) /\
    plot_sea_state Z Lcg.float_pow Lcg.gamma_rvs Lcg.rayleigh_rvs
      Lcg.quantile Lcg.mean sea_state_3 (1 # 10) "None" 0 (-25)
      false false 0%Z = Ok (r2, st2) /\
    shown_clutter r1 = shown_clutter r2 /\
    shown_threshold r1 = shown_threshold r2.
Proof.
  exact (plot_sea_state_target_independence Z Lcg.float_pow Lcg.gamma_rvs
           Lcg.rayleigh_rvs Lcg.quantile Lcg.mean
           lcg_gamma_rvs_spec lcg_rayleigh_rvs_spec
           sea_state_3 (1 # 10) (-25) 0%Z
           "Warship (Frigate) (RCS=40 dBsm, Length=340 feet)" "None"
           10 0 true false true false
           (or_intror sea_state_3_option) frigate_option none_option).
Defined.

(** X21 on the controls as first shown. *)
Lemma interactive_output_after_selection_witness :
  exists r st',
    interactive_output Z Lcg.float_pow Lcg.gamma_rvs Lcg.rayleigh_rvs
      Lcg.quantile Lcg.mean (on_selection_change initial_widgets) 0%Z =
      Ok (r, st') /\
    shown_roc r = None.
Proof.
  destruct (interactive_output_after_selection Z Lcg.float_pow
              Lcg.gamma_rvs Lcg.rayleigh_rvs Lcg.quantile Lcg.mean
              lcg_gamma_rvs_spec lcg_rayleigh_rvs_spec
              initial_widgets 0%Z (or_introl eq_refl) none_option)
    as (r & st' & E & _ & _ & Hroc).
  exists r, st'. split; [exact E|]. apply Hroc. reflexivity.
Defined.

(** X22 for the frigate against the threshold 100. *)
Lemma strong_target_detected_witness :
  (0 <= 1000 * 11)%Z /\
  100 <= 40 * Lcg.float_pow 10 (10 / 10) + 2 * Lcg.float_pow 10 (-25 / 10) /\
  exists out st',
    generate_target_data Z Lcg.float_pow Lcg.gamma_rvs Lcg.rayleigh_rvs
      (Some 40) 10 1000 11 (-25) 0%Z = Ok (out, st') /\
    count (detected (Finite 100)) out = length out.
Proof.
  assert (H1 : (0 <= 1000 * 11)%Z) by discriminate.
  assert (H2 : 100 <= 40 * Lcg.float_pow 10 (10 / 10)
                      + 2 * Lcg.float_pow 10 (-25 / 10)) by discriminate.
  repeat (split; [assumption|]).
  destruct (strong_target_detected Z Lcg.float_pow Lcg.gamma_rvs
              Lcg.rayleigh_rvs lcg_gamma_rvs_spec lcg_rayleigh_rvs_spec
              40 10 1000%Z 11%Z (-25) 100 0%Z H1 H2)
    as (out & st' & E & Hc & _).
  exists out, st'. split; assumption.
Defined.
